(** * parse-vevox: the record extractor and the kanban board store

    A shallow embedding of the pieces of the repository that carry
    ordering and bookkeeping guarantees:

    - [parseQAMessages] of [index.js] (lines 76-136): scanned message cards
      are filtered, sorted by likes and renumbered;
    - the [useKanbanData] hook: [sortByLikes] (lines 10-17),
      [sortAllColumnsByLikes] (22-38), [loadData] (75-109), the save effect
      (115-119), [moveCard] (121-158), [updateCategoryForIds] (160-198),
      [addMessages] (200-220) and [resetData] (222-228);
    - three callers of these: [handleScrape] of [App], which hands a scrape
      to [addMessages], [handleExportRawData] of [ExportDropdown], which
      totals the raw log, and [formatTime] of [MessageCard].

    Conventions of the embedding.

    - JavaScript numbers are integers ([Z]); strings are sequences of 8-bit
      code units ([string]).  Fractions, [NaN], the rounding of integers
      beyond 2^53 and the exponent notation of numbers from 10^21 on are
      outside the model.
    - A message object is a record of five primitive-valued properties; a
      property that is absent reads as [PUndefined], exactly as in
      JavaScript.  An array slot holds a primitive or a message object.
    - A column object always carries an [items] array, so that the guards
      of [sortByLikes] and [sortAllColumnsByLikes] for other shapes never
      fire and are left out.
    - An entry of a classification is a primitive, or an object with
      primitive [category] and [sentiment].
    - A [localStorage] blob is empty, or a document of the shape the hook
      writes, or a text that does not parse.
    - The keys of a [columns] object are other than [__proto__]; what is
      stated of a board read from [localStorage] says so.
    - An exception is a [Throw] completion.  An operation of the hook
      returns the state it leaves behind together with its completion, so
      that what was mutated before a throw stays mutated.
    - An operation runs to its end before the next one starts; the state
      updates it queues are applied in the order of the calls. *)

From stdpp Require Import gmap strings list sorting pretty.

Open Scope Z_scope.

(** ** Primitive values *)

Inductive prim : Type :=
  | PUndefined
  | PNull
  | PBool (b : bool)
  | PNum (n : Z)
  | PStr (s : string).

#[global] Instance prim_eq_dec : EqDecision prim.
Proof. solve_decision. Defined.

(** [ToBoolean]. *)
Definition truthy (p : prim) : bool :=
  match p with
  | PUndefined | PNull => false
  | PBool b => b
  | PNum n => negb (n =? 0)
  | PStr s => negb (String.eqb s "")
  end.

(** [typeof p === 'number' ? p : 0]. *)
Definition number_or_zero (p : prim) : Z :=
  match p with
  | PNum n => n
  | _ => 0
  end.

(** [ToPropertyKey] of a primitive: the string under which [obj[p]] looks
    a property up. *)
Definition to_property_key (p : prim) : string :=
  match p with
  | PUndefined => "undefined"
  | PNull => "null"
  | PBool true => "true"
  | PBool false => "false"
  | PNum n => pretty n
  | PStr s => s
  end.

(** ** Completions *)

Inductive error : Type :=
  | TypeError
  | SyntaxError.

Inductive completion (A : Type) : Type :=
  | Normal (a : A)
  | Throw (e : error).
Arguments Normal {A} a.
Arguments Throw {A} e.

#[global] Instance completion_ret : MRet completion := @Normal.
#[global] Instance completion_bind : MBind completion :=
  λ A B f m, match m with
             | Normal a => f a
             | Throw e => Throw e
             end.

(** ** Plain objects used as dictionaries

    An object literal, a spread copy and the result of [JSON.parse] all
    inherit from [Object.prototype].  [obj[k]] therefore finds the own
    property [k] when there is one, and otherwise whatever
    [Object.prototype] holds under [k].  Own properties are kept in
    enumeration order. *)

Definition object_prototype_keys : list string :=
  [ "constructor"; "__defineGetter__"; "__defineSetter__"; "hasOwnProperty";
    "__lookupGetter__"; "__lookupSetter__"; "isPrototypeOf";
    "propertyIsEnumerable"; "toString"; "valueOf"; "__proto__";
    "toLocaleString" ]%string.

Definition inherited_key (k : string) : bool :=
  bool_decide (k ∈ object_prototype_keys).

(** What [obj[k]] evaluates to. *)
Inductive slot (V : Type) : Type :=
  | Own (v : V)      (* an own property *)
  | Inherited        (* a member of Object.prototype: truthy, no own data *)
  | Absent.          (* undefined *)
Arguments Own {V} v.
Arguments Inherited {V}.
Arguments Absent {V}.

Section dictionary.
Context {V : Type}.

Fixpoint own_property (o : list (string * V)) (k : string) : option V :=
  match o with
  | [] => None
  | (k', v) :: o' => if String.eqb k' k then Some v else own_property o' k
  end.

Definition get_property (o : list (string * V)) (k : string) : slot V :=
  match own_property o k with
  | Some v => Own v
  | None => if inherited_key k then Inherited else Absent
  end.

(** [o[k] = v] / [{ ...o, [k]: v }]: an existing key keeps its place, a
    new key goes last. *)
Fixpoint set_property (k : string) (v : V) (o : list (string * V))
  : list (string * V) :=
  match o with
  | [] => [(k, v)]
  | (k', v') :: o' =>
      if String.eqb k' k then (k, v) :: o' else (k', v') :: set_property k v o'
  end.

Definition keys (o : list (string * V)) : list string := o.*1.
Definition values (o : list (string * V)) : list V := o.*2.
End dictionary.

(** ** [Array.prototype.sort]

    ECMAScript (2019 and later) specifies a stable sort along
    [SortCompare]: an [undefined] element is never passed to the
    comparator and sorts after every other element; two other elements
    [x], [y] are ordered by the sign of [comparefn(x, y)].  The sorting
    algorithm itself is left to the engine; for a comparator that is a
    total preorder every stable algorithm returns the same array, and
    insertion from the right is used here. *)

Section array_sort.
Context {A : Type}.
Context (is_undefined : A → bool) (comparefn : A → A → completion Z).

Definition SortCompare (x y : A) : completion Z :=
  if is_undefined x then
    if is_undefined y then Normal 0 else Normal 1
  else if is_undefined y then Normal (-1)
  else comparefn x y.

Fixpoint sort_insert (x : A) (l : list A) : completion (list A) :=
  match l with
  | [] => Normal [x]
  | y :: l' =>
      v ← SortCompare x y;
      if 0 <? v then l'' ← sort_insert x l'; Normal (y :: l'')
      else Normal (x :: y :: l')
  end.

Fixpoint array_sort (l : list A) : completion (list A) :=
  match l with
  | [] => Normal []
  | x :: l' => s ← array_sort l'; sort_insert x s
  end.
End array_sort.

(** ** [Array.prototype.splice]

    The start index is relative: a negative one counts from the end, and
    the result is clamped to the array. *)

Definition relative_start (start : Z) (len : nat) : nat :=
  if start <? 0 then Z.to_nat (Z.max (Z.of_nat len + start) 0)
  else Z.to_nat (Z.min start (Z.of_nat len)).

Section splice.
Context {A : Type}.

(** [arr.splice(start, 1)]: the removed elements and what is left. *)
Definition splice_remove (start : Z) (arr : list A) : list A * list A :=
  let s := relative_start start (length arr) in
  (take 1 (drop s arr), take s arr ++ drop (S s) arr).

(** [arr.splice(start, 0, x)]. *)
Definition splice_insert (start : Z) (x : A) (arr : list A) : list A :=
  let s := relative_start start (length arr) in
  take s arr ++ x :: drop s arr.
End splice.

(** ** Message records and array items *)

Record record : Type := {
  r_id : prim;
  r_timestamp : prim;
  r_message : prim;
  r_likes : prim;
  r_sentiment : prim
}.

#[global] Instance record_eq_dec : EqDecision record.
Proof. solve_decision. Defined.

Inductive item : Type :=
  | Prim (p : prim)
  | Obj (r : record).

#[global] Instance item_eq_dec : EqDecision item.
Proof. solve_decision. Defined.

Definition is_undefined (it : item) : bool :=
  match it with
  | Prim PUndefined => true
  | _ => false
  end.

Definition nullish (it : item) : bool :=
  match it with
  | Prim PUndefined | Prim PNull => true
  | _ => false
  end.

(** [a.likes]: reading a property of [undefined] or [null] throws; a
    boolean, number or string has no such property. *)
Definition get_likes (a : item) : completion prim :=
  match a with
  | Prim PUndefined | Prim PNull => Throw TypeError
  | Prim _ => Normal PUndefined
  | Obj r => Normal (r_likes r)
  end.

(** [a?.likes]. *)
Definition get_likes_optional (a : item) : completion prim :=
  if nullish a then Normal PUndefined else get_likes a.

(** ** [sortByLikes] *)

(** The comparator [(a, b) => likesB - likesA]. *)
Definition compare_likes (a b : item) : completion Z :=
  la ← get_likes_optional a;
  let likesA := number_or_zero la in
  lb ← get_likes_optional b;
  let likesB := number_or_zero lb in
  Normal (likesB - likesA).

Definition sortByLikes (items : list item) : completion (list item) :=
  array_sort is_undefined compare_likes items.

(** * Stable sorting by rank

    The order that [SortCompare] induces, read off a rank: [None] is the
    rank of an [undefined] slot, [Some k] the rank of an element with
    sort key [k]. *)

Definition rank_lt (a b : option Z) : bool :=
  match a, b with
  | None, Some _ => true
  | Some x, Some y => x <? y
  | _, None => false
  end.

Section ranked.
Context {A : Type} (rank : A → option Z).

(** [x] may stand before [y]. *)
Definition rank_ge (x y : A) : Prop := rank_lt (rank x) (rank y) = false.

Definition descending (l : list A) : Prop := StronglySorted rank_ge l.

(** The elements of rank [k], in the order they have in [l]. *)
Definition of_rank (k : option Z) (l : list A) : list A :=
  filter (λ x, rank x = k) l.

(** [out] is [l] sorted by descending rank, elements of equal rank in
    the order they had in [l]. *)
Definition stably_sorted (l out : list A) : Prop :=
  descending out ∧ ∀ k, of_rank k out = of_rank k l.

Fixpoint insert_ranked (x : A) (l : list A) : list A :=
  match l with
  | [] => [x]
  | y :: l' =>
      if rank_lt (rank x) (rank y) then y :: insert_ranked x l'
      else x :: y :: l'
  end.

Fixpoint sort_ranked (l : list A) : list A :=
  match l with
  | [] => []
  | x :: l' => insert_ranked x (sort_ranked l')
  end.
End ranked.

(** The likes value the comparator works with. *)
Definition likesOf (it : item) : Z :=
  match it with
  | Obj r => number_or_zero (r_likes r)
  | Prim _ => 0
  end.

Definition item_rank (it : item) : option Z :=
  if is_undefined it then None else Some (likesOf it).

(** * The board store ([useKanbanData]) *)

(** ** Columns *)

Record column : Type := {
  col_id : option string;
  col_title : option string;
  items : list item
}.

(** [{ ...column, items: l }]. *)
Definition with_items (c : column) (l : list item) : column :=
  {| col_id := col_id c; col_title := col_title c; items := l |}.

(** [{ ...undefined, items: l }]. *)
Definition only_items (l : list item) : column :=
  {| col_id := None; col_title := None; items := l |}.

(** The [columns] object: column id to column object. *)
Definition board : Type := list (string * column).

Definition empty_column (id title : string) : column :=
  {| col_id := Some id; col_title := Some title; items := [] |}.

Definition default_columns : board :=
  [ ("uncategorized", empty_column "uncategorized" "Uncategorized");
    ("ui_ux", empty_column "ui_ux" "UI/UX");
    ("library", empty_column "library" "Library");
    ("ai", empty_column "ai" "AI");
    ("headless", empty_column "headless" "Headless UI") ]%string.

Definition default_columnOrder : list string :=
  [ "uncategorized"; "ui_ux"; "library"; "ai"; "headless" ]%string.

(** [Object.values(columns).flatMap(c => c.items)]. *)
Definition all_items (b : board) : list item :=
  flat_map items (values b).

(** ** [sortAllColumnsByLikes]

    The result is built by the assignments [sortedColumns[key] = ...] on a
    fresh object.  For every key but [__proto__] that adds the key; the
    keys of a [columns] object are taken to be other than [__proto__]
    here (the hook never makes such a key; [JSON.parse] of a stored board
    can), and what is stated of a board that comes from outside the hook
    assumes so. *)

Fixpoint sortAllColumnsByLikes (columns : board) : completion board :=
  match columns with
  | [] => Normal []
  | (key, column) :: rest =>
      sorted ← sortByLikes (items column);
      sortedColumns ← sortAllColumnsByLikes rest;
      Normal ((key, with_items column sorted) :: sortedColumns)
  end.

(** ** [localStorage]

    A key holds no blob ([None]) or a blob.  A blob is the empty string
    ([EmptyBlob]), which the tests [if (savedRawData)] and [if (savedData)]
    of [loadData] take as no blob; or another text on which [JSON.parse]
    throws ([Unparsable]); or a text that parses, kept as the document
    [JSON.parse] makes of it.  [setItem_log] lists the keys of the
    [setItem] calls in the order they were made. *)

Definition STORAGE_KEY : string := "vevox-kanban-data".
Definition RAW_DATA_KEY : string := "vevox-raw-data".

Inductive stored (A : Type) : Type :=
  | EmptyBlob
  | Unparsable
  | Document (d : A).
Arguments EmptyBlob {A}.
Arguments Unparsable {A}.
Arguments Document {A} d.

Record board_document : Type := {
  doc_columns : option board;
  doc_columnOrder : list string
}.

Record localStorage : Type := {
  kanban_data : option (stored board_document);
  raw_data : option (stored (list item));
  setItem_log : list string
}.

(** [JSON.stringify] writes an [undefined] array slot as [null]. *)
Definition json_item (it : item) : item :=
  if is_undefined it then Prim PNull else it.

Definition json_board (b : board) : board :=
  (λ kc, (kc.1, with_items kc.2 (json_item <$> items kc.2))) <$> b.

Definition setItem_board (ls : localStorage) (columns : board)
    (columnOrder : list string) : localStorage :=
  {| kanban_data := Some (Document {| doc_columns := Some (json_board columns);
                                      doc_columnOrder := columnOrder |});
     raw_data := raw_data ls;
     setItem_log := setItem_log ls ++ [STORAGE_KEY] |}.

Definition setItem_raw (ls : localStorage) (rawData : list item) : localStorage :=
  {| kanban_data := kanban_data ls;
     raw_data := Some (Document (json_item <$> rawData));
     setItem_log := setItem_log ls ++ [RAW_DATA_KEY] |}.

(** ** The state of the hook *)

Record state : Type := {
  columns : board;
  columnOrder : list string;
  loading : bool;
  rawData : list item;
  storage : localStorage
}.

Definition initial_state (ls : localStorage) : state :=
  {| columns := default_columns;
     columnOrder := default_columnOrder;
     loading := true;
     rawData := [];
     storage := ls |}.

(** The effect that saves the board: it runs after a render in which
    [columns], [columnOrder] or [loading] changed. *)
Definition save_effect (st : state) : state :=
  if loading st then st
  else {| columns := columns st;
          columnOrder := columnOrder st;
          loading := loading st;
          rawData := rawData st;
          storage := setItem_board (storage st) (columns st) (columnOrder st) |}.

(** The state with [c] for its columns, nothing else done. *)
Definition with_columns (st : state) (c : board) : state :=
  {| columns := c;
     columnOrder := columnOrder st;
     loading := loading st;
     rawData := rawData st;
     storage := storage st |}.

(** [setColumns(c)] outside the mount effect, with the render and the save
    effect that follow. *)
Definition setColumns (st : state) (c : board) : state :=
  save_effect (with_columns st c).

Definition setColumnOrder (st : state) (o : list string) : state :=
  {| columns := columns st;
     columnOrder := o;
     loading := loading st;
     rawData := rawData st;
     storage := storage st |}.

Definition setRawData (st : state) (l : list item) : state :=
  {| columns := columns st;
     columnOrder := columnOrder st;
     loading := loading st;
     rawData := l;
     storage := storage st |}.

Definition setLoading (st : state) (b : bool) : state :=
  {| columns := columns st;
     columnOrder := columnOrder st;
     loading := b;
     rawData := rawData st;
     storage := storage st |}.

Definition write_raw (st : state) (l : list item) : state :=
  {| columns := columns st;
     columnOrder := columnOrder st;
     loading := loading st;
     rawData := rawData st;
     storage := setItem_raw (storage st) l |}.

(** ** [loadData] *)

(** [if (savedRawData) setRawData(JSON.parse(savedRawData))]. *)
Definition load_raw (st : state) : state * completion () :=
  match raw_data (storage st) with
  | None | Some EmptyBlob => (st, Normal ())
  | Some Unparsable => (st, Throw SyntaxError)
  | Some (Document l) => (setRawData st l, Normal ())
  end.

(** [if (savedData) { ... }]. *)
Definition load_board (st : state) : state * completion () :=
  match kanban_data (storage st) with
  | None | Some EmptyBlob => (st, Normal ())
  | Some Unparsable => (st, Throw SyntaxError)
  | Some (Document parsed) =>
      match doc_columns parsed with
      | None => (st, Normal ())
      | Some parsed_columns =>
          match own_property parsed_columns "ui_ux" with
          | Some _ =>
              match sortAllColumnsByLikes parsed_columns with
              | Normal sorted =>
                  (setColumnOrder (with_columns st sorted)
                     (doc_columnOrder parsed), Normal ())
              | Throw e => (st, Throw e)
              end
          | None =>
              let allItems := flat_map items (values parsed_columns) in
              let prev := columns st in
              let uncategorized :=
                match own_property prev "uncategorized" with
                | Some c => with_items c allItems
                | None => only_items allItems
                end in
              match sortAllColumnsByLikes
                      (set_property "uncategorized" uncategorized prev) with
              | Normal sorted => (with_columns st sorted, Normal ())
              | Throw e => (st, Throw e)
              end
          end
      end
  end.

(** The body of the mount effect: [try { ... } catch { log } finally
    { setLoading(false) }]. *)
Definition loadData (st : state) : state :=
  let '(st1, c1) := load_raw st in
  let st2 := match c1 with
             | Normal _ => (load_board st1).1
             | Throw _ => st1
             end in
  setLoading st2 false.

(** Mounting the hook: the initial state, [loadData], and the save effect
    of the render that follows. *)
Definition mount (ls : localStorage) : state :=
  save_effect (loadData (initial_state ls)).

(** ** [moveCard] *)

Record location : Type := {
  droppableId : string;
  index : Z
}.

Definition slot_truthy {V : Type} (s : slot V) : bool :=
  match s with
  | Own _ | Inherited => true
  | Absent => false
  end.

(** [[...column.items]] for whatever [columns[id]] gave: an inherited member
    of [Object.prototype] has no [items], and spreading [undefined] throws. *)
Definition spread_items (s : slot column) : completion (list item) :=
  match s with
  | Own c => Normal (items c)
  | _ => Throw TypeError
  end.

(** [{ ...column }] for whatever [columns[id]] gave. *)
Definition spread_column (s : slot column) : column :=
  match s with
  | Own c => c
  | _ => only_items []
  end.

Definition moveCard (st : state) (source : location)
    (destination : option location) : state * completion () :=
  match destination with
  | None => (st, Normal ())
  | Some destination =>
      if String.eqb (droppableId source) (droppableId destination)
         && (index source =? index destination)
      then (st, Normal ())
      else
        let sourceColumn := get_property (columns st) (droppableId source) in
        let destColumn := get_property (columns st) (droppableId destination) in
        if negb (slot_truthy sourceColumn) || negb (slot_truthy destColumn)
        then (st, Normal ())
        else
          let moved :=
            sourceItems ← spread_items sourceColumn;
            let '(removed_list, sourceItems) :=
              splice_remove (index source) sourceItems in
            let removed := default (Prim PUndefined) (head removed_list) in
            if String.eqb (droppableId source) (droppableId destination)
            then
              (* destItems is the very array sourceItems *)
              let destItems := splice_insert (index destination) removed sourceItems in
              Normal (destItems, destItems)
            else
              destItems ← spread_items destColumn;
              Normal (sourceItems,
                      splice_insert (index destination) removed destItems) in
          match moved with
          | Throw e => (st, Throw e)
          | Normal (sourceItems, destItems) =>
              match sortByLikes destItems with
              | Throw e => (st, Throw e)
              | Normal sortedDestItems =>
                  (setColumns st
                     (set_property (droppableId destination)
                        (with_items (spread_column destColumn) sortedDestItems)
                        (set_property (droppableId source)
                           (with_items (spread_column sourceColumn) sourceItems)
                           (columns st))),
                   Normal ())
              end
          end
  end.

(** ** [updateCategoryForIds] *)

(** What the classifier returned for one message id: a primitive, or an
    object read through its [category] and [sentiment] properties. *)
Inductive entry : Type :=
  | EntryValue (p : prim)
  | EntryObject (category sentiment : prim).

(** [classificationResult[key]]. *)
Definition get_result (classificationResult : gmap string entry)
    (key : string) : slot entry :=
  match classificationResult !! key with
  | Some e => Own e
  | None => if inherited_key key then Inherited else Absent
  end.

Definition result_truthy (result : slot entry) : bool :=
  match result with
  | Own (EntryValue p) => truthy p
  | Own (EntryObject _ _) => true
  | Inherited => true
  | Absent => false
  end.

(** [result.sentiment] and [result.category], for a truthy [result]. *)
Definition result_sentiment (result : slot entry) : prim :=
  match result with
  | Own (EntryObject _ sentiment) => sentiment
  | _ => PUndefined
  end.

Definition result_category (result : slot entry) : prim :=
  match result with
  | Own (EntryObject category _) => category
  | _ => PUndefined
  end.

(** [item.id]. *)
Definition get_id (it : item) : completion prim :=
  match it with
  | Prim PUndefined | Prim PNull => Throw TypeError
  | Prim _ => Normal PUndefined
  | Obj r => Normal (r_id r)
  end.

Definition set_r_sentiment (r : record) (v : prim) : record :=
  {| r_id := r_id r;
     r_timestamp := r_timestamp r;
     r_message := r_message r;
     r_likes := r_likes r;
     r_sentiment := v |}.

(** [item.sentiment = v] in a module (strict code): assigning to a property
    of a primitive throws. *)
Definition set_sentiment (it : item) (v : prim) : completion item :=
  match it with
  | Obj r => Normal (Obj (set_r_sentiment r v))
  | Prim _ => Throw TypeError
  end.

(** [toLowerCase] on one code unit: the capitals A-Z (65-90) and, among
    the code units from 128 on, the capitals À-Ö (192-214) and Ø-Þ
    (216-222) are moved up by 32; every other code unit below 256 is
    left as it is. *)
Definition lower_ascii (c : Ascii.ascii) : Ascii.ascii :=
  let n := Ascii.nat_of_ascii c in
  if bool_decide (65 ≤ n ≤ 90 ∨ 192 ≤ n ≤ 214 ∨ 216 ≤ n ≤ 222)%nat
  then Ascii.ascii_of_nat (n + 32) else c.

Fixpoint lower (s : string) : string :=
  match s with
  | EmptyString => EmptyString
  | String c s' => String (lower_ascii c) (lower s')
  end.

(** [category.toLowerCase()] for a truthy [category]: only a string has the
    method. *)
Definition toLowerCase (category : prim) : completion string :=
  match category with
  | PStr s => Normal (lower s)
  | _ => Throw TypeError
  end.

(** One round of [allItems.forEach], up to the choice of [targetCat]: the
    target column id and the item as the round leaves it. *)
Definition classify_item (classificationResult : gmap string entry)
    (newColumns : board) (it : item) : completion (string * item) :=
  id ← get_id it;
  let result := get_result classificationResult (to_property_key id) in
  if result_truthy result then
    it' ← set_sentiment it (result_sentiment result);
    assignedCat ← (if truthy (result_category result)
                   then toLowerCase (result_category result)
                   else Normal "uncategorized"%string);
    if slot_truthy (get_property newColumns assignedCat)
    then Normal (assignedCat, it')
    else Normal ("uncategorized"%string, it')
  else Normal ("uncategorized"%string, it).

(** [newColumns[targetCat].items.push(item)]. *)
Definition push_item (newColumns : board) (targetCat : string) (it : item)
    : completion board :=
  match get_property newColumns targetCat with
  | Own c => Normal (set_property targetCat (with_items c (items c ++ [it])) newColumns)
  | _ => Throw TypeError
  end.

(** [allItems.forEach(...)]: the column objects as the loop leaves them,
    and how the loop ended. *)
Fixpoint place_items (classificationResult : gmap string entry)
    (allItems : list item) (newColumns : board) : board * completion () :=
  match allItems with
  | [] => (newColumns, Normal ())
  | it :: rest =>
      match '(targetCat, it') ← classify_item classificationResult newColumns it;
            push_item newColumns targetCat it' with
      | Normal newColumns' => place_items classificationResult rest newColumns'
      | Throw e => (newColumns, Throw e)
      end
  end.

(** [newColumns[key].items = []] for every key. *)
Definition clear_columns (newColumns : board) : board :=
  (λ kc, (kc.1, with_items kc.2 [])) <$> newColumns.

(** [newColumns] is a spread copy of [columns]: its column objects are the
    column objects of the state, so clearing and pushing act on the state
    itself.  The records are shared too, with [rawData] among others: the
    sentiment that the pass writes on a record shows in the raw log in
    memory.  [rawData] keeps the records as they were ingested here, and
    nothing is stated of the sentiments in the raw log after a pass. *)
Definition updateCategoryForIds (st : state)
    (classificationResult : gmap string entry) : state * completion () :=
  let newColumns := columns st in
  let allItems := all_items newColumns in
  let newColumns := clear_columns newColumns in
  match place_items classificationResult allItems newColumns with
  | (newColumns, Throw e) =>
      (* no [setColumns]: the state keeps the column objects as mutated *)
      (with_columns st newColumns, Throw e)
  | (newColumns, Normal _) =>
      match sortAllColumnsByLikes newColumns with
      | Throw e => (with_columns st newColumns, Throw e)
      | Normal sorted => (setColumns st sorted, Normal ())
      end
  end.

(** ** [addMessages] *)

(** The argument is an array ([Some]) or something else ([None]).  On a
    board without [uncategorized] the call itself returns; the raw log is
    written, and the [TypeError] arises in the updater of [setColumns],
    when React renders next: the completion given here is that of the call
    together with the render that follows it. *)
Definition addMessages (st : state) (messages : option (list item))
    : state * completion () :=
  match messages with
  | None => (st, Normal ())
  | Some [] => (st, Normal ())
  | Some messages =>
      let newRawData := rawData st ++ messages in
      let st := write_raw (setRawData st newRawData) newRawData in
      let prev := columns st in
      match own_property prev "uncategorized" with
      | None => (st, Throw TypeError)
      | Some uncategorized =>
          match sortByLikes (items uncategorized ++ messages) with
          | Throw e => (st, Throw e)
          | Normal newItems =>
              (setColumns st
                 (set_property "uncategorized"
                    (with_items uncategorized newItems) prev),
               Normal ())
          end
      end
  end.

(** ** The mutating operations *)

Inductive operation : Type :=
  | Ingest (messages : option (list item))
  | Move (source : location) (destination : option location)
  | ApplyClassification (classificationResult : gmap string entry).

Definition run (st : state) (op : operation) : state * completion () :=
  match op with
  | Ingest messages => addMessages st messages
  | Move source destination => moveCard st source destination
  | ApplyClassification classificationResult =>
      updateCategoryForIds st classificationResult
  end.

(** * The record extractor ([parseQAMessages]) *)

(** The texts of the three marked sub-elements of a message card, as
    [.find(...).text()] returns them. *)
Record card : Type := {
  sentTime : string;
  likes_text : string;
  wrappingtext : string
}.

Record message : Type := {
  m_id : Z;
  m_timestamp : string;
  m_message : string;
  m_likes : Z
}.

Record parsed : Type := {
  totalMessages : Z;
  totalLikes : Z;
  messages : list message
}.

(** White space among the code units below 256. *)
Definition is_white_space (c : Ascii.ascii) : bool :=
  bool_decide (Ascii.nat_of_ascii c ∈ [9; 10; 11; 12; 13; 32; 160]%nat).

Fixpoint trim_start (s : string) : string :=
  match s with
  | EmptyString => EmptyString
  | String c s' => if is_white_space c then trim_start s' else s
  end.

Definition trim (s : string) : string :=
  String.rev (trim_start (String.rev (trim_start s))).

Definition is_digit (c : Ascii.ascii) : bool :=
  bool_decide (48 ≤ Ascii.nat_of_ascii c ≤ 57)%nat.

Fixpoint digit_run (s : string) : string :=
  match s with
  | EmptyString => EmptyString
  | String c s' => if is_digit c then String c (digit_run s') else EmptyString
  end.

(** [s.match(/\d+/)]: the first run of digits, if any. *)
Fixpoint match_digits (s : string) : option string :=
  match s with
  | EmptyString => None
  | String c s' => if is_digit c then Some (digit_run s) else match_digits s'
  end.

(** [parseInt(digits, 10)] on a run of digits: its value.  [parseInt]
    returns a double, which is that value as long as it is below 2^53;
    above, the source rounds, and from 309 digits on it gives [Infinity].
    What is stated of the value of likes assumes that bound. *)
Fixpoint parseInt_from (acc : Z) (digits : string) : Z :=
  match digits with
  | EmptyString => acc
  | String c s' => parseInt_from (10 * acc + (Z.of_nat (Ascii.nat_of_ascii c) - 48)) s'
  end.

Definition parseInt (digits : string) : Z := parseInt_from 0 digits.

Definition nonempty (s : string) : bool := negb (String.eqb s "").

(** The three fields read off a card. *)
Definition card_timestamp (c : card) : string := trim (sentTime c).

Definition card_likes (c : card) : Z :=
  let likesText := trim (likes_text c) in
  match match_digits likesText with
  | Some digits => parseInt digits
  | None => 0
  end.

Definition card_message (c : card) : string := trim (wrappingtext c).

(** One round of [messageCards.each]. *)
Definition scan_card (messages : list message) (c : card) : list message :=
  let timestamp := card_timestamp c in
  let likes := card_likes c in
  let messageContent := card_message c in
  messages ++ [ {| m_id := Z.of_nat (length messages) + 1;
                   m_timestamp := timestamp;
                   m_message := messageContent;
                   m_likes := likes |} ].

Definition with_id (msg : message) (id : Z) : message :=
  {| m_id := id;
     m_timestamp := m_timestamp msg;
     m_message := m_message msg;
     m_likes := m_likes msg |}.

(** [(a, b) => b.likes - a.likes]. *)
Definition compare_message_likes (a b : message) : completion Z :=
  Normal (m_likes b - m_likes a).

Definition parseQAMessages (messageCards : list card) : completion parsed :=
  let messages := foldl scan_card [] messageCards in
  let filteredMessages :=
    filter (λ msg, nonempty (m_message msg) || nonempty (m_timestamp msg))
           messages in
  filteredMessages ← array_sort (λ _, false) compare_message_likes filteredMessages;
  let filteredMessages :=
    imap (λ idx msg, with_id msg (Z.of_nat idx + 1)) filteredMessages in
  let totalLikes := foldl (λ sum msg, sum + m_likes msg) 0 filteredMessages in
  Normal {| totalMessages := Z.of_nat (length filteredMessages);
            totalLikes := totalLikes;
            messages := filteredMessages |}.

(** * Notions the properties are stated with *)

(** A column with its items in stable likes order. *)
Definition sorted_column (c : column) : column :=
  with_items c (sort_ranked item_rank (items c)).

(** Every column is sorted by likes, descending. *)
Definition board_sorted (b : board) : Prop :=
  Forall (λ c, descending item_rank (items c)) (values b).

(** The id of a message record; a primitive in an array slot has none. *)
Definition record_id (it : item) : option prim :=
  match it with
  | Obj r => Some (r_id r)
  | Prim _ => None
  end.

(** The ids of all records of the board, column after column. *)
Definition board_ids (b : board) : list prim := omap record_id (all_items b).

(** No id occurs twice on the board. *)
Definition unique_ids (b : board) : Prop := NoDup (board_ids b).

(** [it'] is the record [it], up to the sentiment written on it. *)
Definition same_record (it it' : item) : Prop :=
  it' = it ∨ ∃ r v, it = Obj r ∧ it' = Obj (set_r_sentiment r v).

(** The items of [l] that a classification pass over the columns [b] routes
    to column [k], as the pass leaves them and in the order of [l]. *)
Definition routed_to (classificationResult : gmap string entry) (b : board)
    (k : string) (l : list item) : list item :=
  omap (λ it, match classify_item classificationResult b it with
              | Normal (targetCat, it') =>
                  if decide (targetCat = k) then Some it' else None
              | Throw _ => None
              end) l.

(** What a message says, its id apart: timestamp, text and likes. *)
Definition content (msg : message) : string * string * Z :=
  (m_timestamp msg, m_message msg, m_likes msg).

Definition card_content (c : card) : string * string * Z :=
  (card_timestamp c, card_message c, card_likes c).

(** A card with neither body text nor timestamp. *)
Definition blank (c : card) : Prop :=
  card_message c = ""%string ∧ card_timestamp c = ""%string.

#[global] Instance blank_dec c : Decision (blank c).
Proof. unfold blank. apply _. Defined.

Definition likes_rank (t : string * string * Z) : option Z := Some t.2.

(** Every category the classification names is a string, and is the id of
    a column unless it is no member of [Object.prototype] either. *)
Definition routable (cr : gmap string entry) (b : board) : Prop :=
  ∀ key category sentiment,
    cr !! key = Some (EntryObject category sentiment) →
    truthy category = true →
    ∃ name, category = PStr name
            ∧ (is_Some (own_property b (lower name))
               ∨ inherited_key (lower name) = false).

(** What makes an operation return rather than throw: the column ids it
    uses are columns of the board or at least no members of
    [Object.prototype], [uncategorized] is there to receive what is
    ingested or left unclassified, and a board to be classified holds
    message objects only. *)
Definition runnable (st : state) (op : operation) : Prop :=
  match op with
  | Ingest _ => is_Some (own_property (columns st) "uncategorized")
  | Move source destination =>
      (inherited_key (droppableId source) = false
       ∨ is_Some (own_property (columns st) (droppableId source)))
      ∧ ∀ d, destination = Some d →
             inherited_key (droppableId d) = false
             ∨ is_Some (own_property (columns st) (droppableId d))
  | ApplyClassification classificationResult =>
      is_Some (own_property (columns st) "uncategorized")
      ∧ routable classificationResult (columns st)
      ∧ Forall (λ it, ∃ r, it = Obj r) (all_items (columns st))
  end.

(** * Sample inputs *)

Definition sample_record (id likes : Z) (sentiment : prim) : item :=
  Obj {| r_id := PNum id;
         r_timestamp := PStr "09 December 2025 19:07";
         r_message := PStr "hello";
         r_likes := PNum likes;
         r_sentiment := sentiment |}.

Definition empty_storage : localStorage :=
  {| kanban_data := None; raw_data := None; setItem_log := [] |}.

(** A board persisted under an older schema: two columns, neither of them
    [ui_ux]. *)
Definition old_columns : board :=
  [ ("todo",
     {| col_id := Some "todo"; col_title := Some "To do";
        items := [sample_record 1 4 PUndefined; sample_record 2 1 PUndefined] |});
    ("done",
     {| col_id := Some "done"; col_title := Some "Done";
        items := [sample_record 3 9 PUndefined] |}) ]%string.

Definition old_storage : localStorage :=
  {| kanban_data := Some (Document {| doc_columns := Some old_columns;
                                      doc_columnOrder := ["todo"; "done"]%string |});
     raw_data := None;
     setItem_log := [] |}.

(** A board after one scrape of three messages. *)
Definition scraped_state : state :=
  (addMessages (mount empty_storage)
     (Some [ sample_record 1 5 PUndefined;
             sample_record 2 5 PUndefined;
             sample_record 3 3 PUndefined ])).1.

(** A drag of the first card of [uncategorized] to the top of [ai]. *)
Definition sample_move : operation :=
  Move {| droppableId := "uncategorized"; index := 0 |}
       (Some {| droppableId := "ai"; index := 0 |}).

(** A drag from index 3 of [uncategorized], which holds three cards. *)
Definition stray_source : location :=
  {| droppableId := "uncategorized"; index := 3 |}.

Definition stray_destination : location :=
  {| droppableId := "ui_ux"; index := 0 |}.

(** A classification that sends message 1 to [ai], and the board after it. *)
Definition first_pass : gmap string entry :=
  {[ "1"%string := EntryObject (PStr "AI") (PStr "positive") ]}.

Definition classified_state : state :=
  (updateCategoryForIds scraped_state first_pass).1.

(** Entries for message 1 that lack a field. *)
Definition entry_without_sentiment : gmap string entry :=
  {[ "1"%string := EntryObject (PStr "ai") PUndefined ]}.

Definition entry_without_category : gmap string entry :=
  {[ "1"%string := EntryObject PUndefined (PStr "negative") ]}.

(** A classification that names a category no column has, but that
    [Object.prototype] has a member for. *)
Definition inherited_category : gmap string entry :=
  {[ "2"%string := EntryObject (PStr "constructor") (PStr "neutral") ]}.

(** One message, scraped twice. *)
Definition one_message : option (list item) :=
  Some [sample_record 1 5 PUndefined].

Definition ingested_once : state :=
  (run (mount empty_storage) (Ingest one_message)).1.

Definition ingested_twice : state :=
  (run ingested_once (Ingest one_message)).1.

(** Three cards: one complete, one without a timestamp, one blank. *)
Definition sample_cards : list card :=
  [ {| sentTime := "09 December 2025 19:07"; likes_text := "3";
       wrappingtext := "first" |};
    {| sentTime := ""; likes_text := "7"; wrappingtext := "second" |};
    {| sentTime := "  "; likes_text := "9"; wrappingtext := "" |} ]%string.

(** The old-schema board of [old_storage] beside a raw-log blob that does
    not parse. *)
Definition old_storage_bad_raw_log : localStorage :=
  {| kanban_data := kanban_data old_storage;
     raw_data := Some Unparsable;
     setItem_log := [] |}.

(** A sorted board with one card in each of three columns: messages 1, 2
    and 3 with 5, 9 and 1 likes, message 2 sent to [ai] and message 3 to
    [headless]. *)
Definition spreading_pass : gmap string entry :=
  {[ "2"%string := EntryObject (PStr "ai") (PStr "positive");
     "3"%string := EntryObject (PStr "headless") (PStr "neutral") ]}.

Definition spread_state : state :=
  (updateCategoryForIds
     (addMessages (mount empty_storage)
        (Some [ sample_record 1 5 PUndefined;
                sample_record 2 9 PUndefined;
                sample_record 3 1 PUndefined ])).1
     spreading_pass).1.

(** A classification that names the inherited [constructor] for the card
    that is read last. *)
Definition late_inherited_category : gmap string entry :=
  {[ "3"%string := EntryObject (PStr "constructor") (PStr "neutral") ]}.

(** A drag of the first card of [uncategorized] to the second place of
    the same column. *)
Definition tie_drag : operation :=
  Move {| droppableId := "uncategorized"; index := 0 |}
       (Some {| droppableId := "uncategorized"; index := 1 |}).

(** * More of the hook and of its callers *)

(** ** States the hook reaches through calls that return

    The hook starts by mounting; after that the state changes only through
    the three operations.  [reachable] follows the calls that return.  A
    call that throws does not end the life of the hook ([App] catches the
    error of a classification): [run_all] below follows every call, and
    what holds after a throw is stated with it or for the throwing call
    itself. *)

Inductive reachable : state → Prop :=
  | reachable_mount (ls : localStorage) : reachable (mount ls)
  | reachable_run (st : state) (op : operation) (st' : state) :
      reachable st → run st op = (st', Normal ()) → reachable st'.

(** A sequence of calls, each on the state the one before left behind,
    whether it returned or threw. *)
Fixpoint run_all (st : state) (ops : list operation) : state :=
  match ops with
  | [] => st
  | op :: ops => run_all (run st op).1 ops
  end.

(** The stored board blob is the board in memory. *)
Definition persisted (st : state) : Prop :=
  kanban_data (storage st)
  = Some (Document {| doc_columns := Some (json_board (columns st));
                      doc_columnOrder := columnOrder st |}).

(** ** [resetData] (lines 222-228)

    [confirmed] is what [confirm(...)] returned.  [removeItem] is called
    for both keys; [window.location.reload()] starts the page, and with it
    the hook, afresh from what [localStorage] then holds. *)

Definition removeItem_board (ls : localStorage) : localStorage :=
  {| kanban_data := None;
     raw_data := raw_data ls;
     setItem_log := setItem_log ls |}.

Definition removeItem_raw (ls : localStorage) : localStorage :=
  {| kanban_data := kanban_data ls;
     raw_data := None;
     setItem_log := setItem_log ls |}.

Definition resetData (st : state) (confirmed : bool) : state :=
  if confirmed
  then mount (removeItem_raw (removeItem_board (storage st)))
  else st.

(** ** From the scrape to the board ([handleScrape] of [App])

    The server answers with [res.json(result)]; the client reads it back
    with [response.json()]: a message arrives as an object with the four
    properties the extractor gave it.  That holds for likes below 2^53,
    which JSON carries as they are ([Infinity], which [parseInt] gives from
    309 digits on, would arrive as [null]); what is stated of a scrape
    assumes that bound. *)

Definition to_item (msg : message) : item :=
  Obj {| r_id := PNum (m_id msg);
         r_timestamp := PStr (m_timestamp msg);
         r_message := PStr (m_message msg);
         r_likes := PNum (m_likes msg);
         r_sentiment := PUndefined |}.

(** [if (data.messages && data.messages.length > 0) addMessages(data.messages)],
    for the answer [data] of a scrape that succeeded. *)
Definition handleScrape (st : state) (data : parsed) : state * completion () :=
  match messages data with
  | [] => (st, Normal ())
  | _ => addMessages st (Some (to_item <$> messages data))
  end.

(** ** [formatTime] of [MessageCard]

    [/(\d{2}:\d{2})$/] matches where two digits, a colon and two digits
    are followed by the end of the string; the search tries the start
    positions from left to right.  58 is the code of the colon. *)

Definition is_time (s : string) : bool :=
  match s with
  | String d1 (String d2 (String c (String d3 (String d4 EmptyString)))) =>
      is_digit d1 && is_digit d2 && bool_decide (Ascii.nat_of_ascii c = 58%nat)
      && is_digit d3 && is_digit d4
  | _ => false
  end.

Fixpoint match_time (s : string) : option string :=
  if is_time s then Some s
  else match s with
       | EmptyString => None
       | String _ s' => match_time s'
       end.

(** A falsy timestamp gives the empty string; only a string has [match]. *)
Definition formatTime (timestamp : prim) : completion string :=
  if negb (truthy timestamp) then Normal ""%string
  else match timestamp with
       | PStr s =>
           match match_time s with
           | Some timeMatch => Normal timeMatch
           | None => Normal s
           end
       | _ => Throw TypeError
       end.

(** ** [handleExportRawData] of [ExportDropdown] (lines 34-49)

    What is handed to [downloadJson], the export date apart. *)

(** [msg.likes || 0]. *)
Definition likes_or_zero (msg : item) : completion prim :=
  likes ← get_likes msg;
  Normal (if truthy likes then likes else PNum 0).

(** [ToString] and [ToNumber] of a primitive that is not [undefined]
    ([ToNumber] of a string is not needed: [+] concatenates it). *)
Definition to_string (p : prim) : string := to_property_key p.

Definition to_number (p : prim) : Z :=
  match p with
  | PNum n => n
  | PBool true => 1
  | _ => 0
  end.

(** [acc + v]: the concatenation as soon as one side is a string, the sum
    of the numbers otherwise.  Neither operand is ever [undefined] here:
    the accumulator starts as 0 and [msg.likes || 0] is truthy or 0. *)
Definition js_add (acc v : prim) : prim :=
  match acc, v with
  | PStr a, _ => PStr (a +:+ to_string v)
  | _, PStr b => PStr (to_string acc +:+ b)
  | _, _ => PNum (to_number acc + to_number v)
  end.

(** [rawData.reduce((acc, msg) => acc + (msg.likes || 0), acc)]. *)
Fixpoint reduce_likes (acc : prim) (rawData : list item) : completion prim :=
  match rawData with
  | [] => Normal acc
  | msg :: rest =>
      v ← likes_or_zero msg;
      reduce_likes (js_add acc v) rest
  end.

Record raw_export : Type := {
  export_totalMessages : Z;
  export_totalLikes : prim;
  export_messages : list item
}.

(** [None]: the log is empty, an alert is shown and nothing is
    downloaded. *)
Definition handleExportRawData (rawData : list item)
    : completion (option raw_export) :=
  match rawData with
  | [] => Normal None
  | _ =>
      totalLikes ← reduce_likes (PNum 0) rawData;
      Normal (Some {| export_totalMessages := Z.of_nat (length rawData);
                      export_totalLikes := totalLikes;
                      export_messages := rawData |})
  end.

(** ** Notions the further properties are stated with *)

(** [b'] has the columns of [b], under the same keys in the same order and
    with the same [id] and [title]: at most the items differ. *)
Definition same_frame (b b' : board) : Prop :=
  Forall2 (λ kc kc', kc.1 = kc'.1
                     ∧ col_id kc.2 = col_id kc'.2
                     ∧ col_title kc.2 = col_title kc'.2) b b'.

Definition sum_of (l : list Z) : Z := foldr Z.add 0 l.

(** ** Further sample inputs *)

(** The board blob of [scraped_state] beside a raw-log blob that does not
    parse. *)
Definition corrupt_raw_storage : localStorage :=
  {| kanban_data := kanban_data (storage scraped_state);
     raw_data := Some Unparsable;
     setItem_log := [] |}.

(** A drag of the second card of [uncategorized] to the top of [ai]. *)
Definition second_card : location :=
  {| droppableId := "uncategorized"; index := 1 |}.

Definition top_of_ai : location :=
  {| droppableId := "ai"; index := 0 |}.

Definition sample_message (id likes : Z) : record :=
  {| r_id := PNum id;
     r_timestamp := PStr "09 December 2025 19:07";
     r_message := PStr "hello";
     r_likes := PNum likes;
     r_sentiment := PUndefined |}.

(** A card whose likes label carries the icon text before the count. *)
Definition labelled_card : card :=
  {| sentTime := "09 December 2025 19:07";
     likes_text := "  thumb_up 12 likes 7 ";
     wrappingtext := "hello" |}.

(** What the extractor returns for [sample_cards]. *)
Definition sample_scrape : parsed :=
  {| totalMessages := 2;
     totalLikes := 10;
     messages :=
       [ {| m_id := 1; m_timestamp := ""; m_message := "second";
            m_likes := 7 |};
         {| m_id := 2; m_timestamp := "09 December 2025 19:07";
            m_message := "first"; m_likes := 3 |} ] |}.

(** A board after one scrape of three messages, no two with the same
    likes. *)
Definition ranked_state : state :=
  (addMessages (mount empty_storage)
     (Some [ sample_record 1 9 PUndefined;
             sample_record 2 4 PUndefined;
             sample_record 3 1 PUndefined ])).1.

(** * Facts about ranks and stable sorting *)

Lemma rank_lt_irrefl a : rank_lt a a = false.
Proof. destruct a; simpl; [apply Z.ltb_irrefl | done]. Qed.

Lemma rank_lt_false_trans a b c :
  rank_lt a b = false → rank_lt b c = false → rank_lt a c = false.
Proof.
  destruct a, b, c; simpl; try done.
  rewrite !Z.ltb_ge. lia.
Qed.

Lemma rank_lt_asym a b : rank_lt a b = true → rank_lt b a = false.
Proof.
  destruct a, b; simpl; try done.
  rewrite Z.ltb_lt, Z.ltb_ge. lia.
Qed.

Section ranked_facts.
Context {A : Type} (rank : A → option Z).

#[local] Instance rank_ge_trans : Transitive (rank_ge rank).
Proof.
  intros x y z Hxy Hyz. unfold rank_ge in *.
  (* rank z <= rank y <= rank x *)
  destruct (rank x), (rank y), (rank z); simpl in *; try done.
  rewrite Z.ltb_ge in *. lia.
Qed.

Lemma insert_ranked_perm x l : insert_ranked rank x l ≡ₚ x :: l.
Proof.
  induction l as [|y l IH]; simpl; [done|].
  destruct (rank_lt _ _); [|done].
  rewrite IH. apply Permutation_swap.
Qed.

Lemma sort_ranked_perm l : sort_ranked rank l ≡ₚ l.
Proof.
  induction l as [|x l IH]; simpl; [done|].
  by rewrite insert_ranked_perm, IH.
Qed.

Lemma insert_ranked_descending x l :
  descending rank l → descending rank (insert_ranked rank x l).
Proof.
  unfold descending. induction 1 as [|y l Hs IH Hall]; simpl.
  - repeat constructor.
  - destruct (rank_lt (rank x) (rank y)) eqn:Hlt.
    + constructor; [done|].
      rewrite insert_ranked_perm. constructor; [|done].
      by apply rank_lt_asym.
    + constructor; [by constructor|].
      constructor; [done|].
      eapply Forall_impl; [exact Hall|].
      intros z Hz. by etrans.
Qed.

Lemma sort_ranked_descending l : descending rank (sort_ranked rank l).
Proof.
  induction l as [|x l IH]; simpl.
  - constructor.
  - by apply insert_ranked_descending.
Qed.

Lemma insert_ranked_of_rank k x l :
  of_rank rank k (insert_ranked rank x l) = of_rank rank k (x :: l).
Proof.
  unfold of_rank. induction l as [|y l IH]; simpl; [done|].
  destruct (rank_lt (rank x) (rank y)) eqn:Hlt; [|done].
  rewrite filter_cons, IH, !filter_cons.
  destruct (decide (rank y = k)) as [Hy|Hy];
    destruct (decide (rank x = k)) as [Hx|Hx]; try done.
  rewrite Hx, Hy, rank_lt_irrefl in Hlt. done.
Qed.

Lemma sort_ranked_of_rank k l :
  of_rank rank k (sort_ranked rank l) = of_rank rank k l.
Proof.
  induction l as [|x l IH]; simpl; [done|].
  rewrite insert_ranked_of_rank. unfold of_rank in *.
  by rewrite !filter_cons, IH.
Qed.

Lemma sort_ranked_stably_sorted l : stably_sorted rank l (sort_ranked rank l).
Proof.
  split; [apply sort_ranked_descending|].
  intros k. apply sort_ranked_of_rank.
Qed.

(** A comparator that never throws and whose sign agrees with the rank
    makes [array_sort] the stable sort by rank. *)
Lemma array_sort_ranked undef (cmp : A → A → completion Z) :
  (∀ x y, ∃ v, SortCompare undef cmp x y = Normal v
               ∧ (0 <? v) = rank_lt (rank x) (rank y)) →
  ∀ l, array_sort undef cmp l = Normal (sort_ranked rank l).
Proof.
  intros Hcmp.
  assert (Hins : ∀ x l,
    sort_insert undef cmp x l = Normal (insert_ranked rank x l)).
  { intros x l. induction l as [|y l IH]; simpl; [done|].
    destruct (Hcmp x y) as (v & -> & Hv). simpl. rewrite Hv.
    destruct (rank_lt _ _); [|done]. by rewrite IH. }
  induction l as [|x l IH]; simpl; [done|].
  rewrite IH. simpl. apply Hins.
Qed.
End ranked_facts.

(** ** [sortByLikes] *)

Lemma compare_likes_value a b :
  compare_likes a b = Normal (likesOf b - likesOf a).
Proof.
  unfold compare_likes, get_likes_optional.
  destruct a as [[]|ra], b as [[]|rb]; reflexivity.
Qed.

Lemma SortCompare_item_rank x y :
  ∃ v, SortCompare is_undefined compare_likes x y = Normal v
       ∧ (0 <? v) = rank_lt (item_rank x) (item_rank y).
Proof.
  unfold SortCompare, item_rank.
  destruct (is_undefined x) eqn:Hx, (is_undefined y) eqn:Hy;
    try (eexists; split; [reflexivity|done]).
  rewrite compare_likes_value. eexists; split; [reflexivity|].
  simpl. apply eq_iff_eq_true. rewrite !Z.ltb_lt. lia.
Qed.

Lemma sortByLikes_sort_ranked items :
  sortByLikes items = Normal (sort_ranked item_rank items).
Proof. apply array_sort_ranked, SortCompare_item_rank. Qed.

(** * Facts about dictionaries *)

Section dictionary_facts.
Context {V : Type}.
Implicit Types (o : list (string * V)) (k : string) (v : V).

Lemma own_property_split o k v :
  own_property o k = Some v →
  ∃ o1 o2, o = o1 ++ (k, v) :: o2 ∧ own_property o1 k = None
           ∧ ∀ v', set_property k v' o = o1 ++ (k, v') :: o2.
Proof.
  induction o as [|[k' w] o IH]; simpl; [done|].
  destruct (String.eqb_spec k' k) as [->|Hne].
  - intros [= ->]. by exists [], o.
  - intros (o1 & o2 & -> & Hnone & Hset)%IH.
    exists ((k', w) :: o1), o2. simpl.
    apply String.eqb_neq in Hne. rewrite Hne.
    split_and!; [done..|]. intros v'. by rewrite Hset.
Qed.

Lemma own_property_app_None o1 o2 k :
  own_property o1 k = None →
  own_property (o1 ++ o2) k = own_property o2 k.
Proof.
  induction o1 as [|[k' w] o1 IH]; simpl; [done|].
  destruct (String.eqb k' k); [done|]. apply IH.
Qed.

Lemma own_property_app_ne o1 o2 k k' v v' :
  k ≠ k' →
  own_property (o1 ++ (k, v) :: o2) k' = own_property (o1 ++ (k, v') :: o2) k'.
Proof.
  intros Hne%String.eqb_neq.
  induction o1 as [|[k1 w] o1 IH]; simpl.
  - by rewrite Hne.
  - by rewrite IH.
Qed.

Lemma own_property_set_eq o k v : own_property (set_property k v o) k = Some v.
Proof.
  induction o as [|[k' w] o IH]; simpl.
  - by rewrite String.eqb_refl.
  - destruct (String.eqb k' k) eqn:Heq; simpl.
    + by rewrite String.eqb_refl.
    + by rewrite Heq.
Qed.

Lemma own_property_set_ne o k k' v :
  k ≠ k' → own_property (set_property k v o) k' = own_property o k'.
Proof.
  intros Hne. induction o as [|[k1 w] o IH]; simpl.
  - apply String.eqb_neq in Hne. by rewrite Hne.
  - destruct (String.eqb_spec k1 k) as [->|Hne1]; simpl.
    + apply String.eqb_neq in Hne. by rewrite Hne.
    + by rewrite IH.
Qed.

Lemma keys_set_property o k v v' :
  own_property o k = Some v → keys (set_property k v' o) = keys o.
Proof.
  intros (o1 & o2 & -> & _ & ->)%own_property_split.
  unfold keys. by rewrite !fmap_app.
Qed.

Lemma own_property_Some_keys o k :
  is_Some (own_property o k) ↔ k ∈ keys o.
Proof.
  unfold keys. induction o as [|[k' w] o IH]; simpl.
  - split; [by intros [? ?]|by intros ?%elem_of_nil].
  - destruct (String.eqb_spec k' k) as [->|Hne].
    + split; [intros _; left|by eexists].
    + rewrite IH, elem_of_cons. split; [by right|].
      by intros [->|?].
Qed.

Lemma own_property_elem_of o k v :
  own_property o k = Some v → v ∈ values o.
Proof.
  intros (o1 & o2 & -> & _)%own_property_split.
  unfold values. rewrite fmap_app, elem_of_app. right. simpl. left.
Qed.

Lemma Forall_values_set_property (P : V → Prop) o k v :
  Forall P (values o) → P v → Forall P (values (set_property k v o)).
Proof.
  unfold values. intros Ho Hv.
  induction o as [|[k' w] o IH]; simpl.
  - by repeat constructor.
  - apply Forall_cons in Ho as [Hw Ho].
    destruct (String.eqb k' k); simpl; constructor; auto.
Qed.

Lemma get_property_truthy_keys (o o' : list (string * V)) k :
  keys o = keys o' →
  slot_truthy (get_property o k) = slot_truthy (get_property o' k).
Proof.
  intros Hkeys. unfold get_property.
  assert (is_Some (own_property o k) ↔ is_Some (own_property o' k)) as Hiff.
  { by rewrite !own_property_Some_keys, Hkeys. }
  destruct (own_property o k) as [v|], (own_property o' k) as [v'|];
    try done.
  - destruct Hiff as [Hiff _]. by destruct Hiff as [? ?]; [eexists|].
  - destruct Hiff as [_ Hiff]. by destruct Hiff as [? ?]; [eexists|].
Qed.
End dictionary_facts.

(** * Facts about [splice] *)

Section splice_facts.
Context {A : Type}.
Implicit Types (arr : list A).

Lemma relative_start_le start arr :
  (relative_start start (length arr) ≤ length arr)%nat.
Proof. unfold relative_start. destruct (start <? 0) eqn:?; lia. Qed.

Lemma splice_remove_cases start arr :
  (splice_remove start arr = ([], arr))
  ∨ ∃ x l1 l2, arr = l1 ++ x :: l2
               ∧ splice_remove start arr = ([x], l1 ++ l2).
Proof.
  unfold splice_remove.
  set (s := relative_start start (length arr)).
  destruct (arr !! s) as [x|] eqn:Hs.
  - right. exists x, (take s arr), (drop (S s) arr).
    split; [by rewrite take_drop_middle|].
    by rewrite (drop_S arr x s Hs).
  - left. apply lookup_ge_None in Hs.
    rewrite (drop_ge arr s), (drop_ge arr (S s)), (take_ge arr s) by lia.
    by rewrite app_nil_r.
Qed.

Lemma splice_insert_perm start x arr : splice_insert start x arr ≡ₚ x :: arr.
Proof.
  unfold splice_insert.
  rewrite <-Permutation_middle. by rewrite take_drop.
Qed.

Lemma splice_insert_split start x arr :
  ∃ l1 l2, arr = l1 ++ l2 ∧ splice_insert start x arr = l1 ++ x :: l2.
Proof.
  unfold splice_insert. eexists _, _. split; [|done]. by rewrite take_drop.
Qed.
End splice_facts.

(** * Facts about the board *)

Lemma descending_sublist {A} (rank : A → option Z) l l' :
  l `sublist_of` l' → descending rank l' → descending rank l.
Proof.
  unfold descending. induction 1 as [|x l l' Hsub IH|x l l' Hsub IH].
  - done.
  - intros [Hs Hall]%StronglySorted_inv. constructor; [by apply IH|].
    apply Forall_forall. intros y Hy.
    eapply Forall_forall; [exact Hall|]. by eapply elem_of_sublist.
  - intros [Hs _]%StronglySorted_inv. by apply IH.
Qed.

Lemma all_items_app b1 b2 : all_items (b1 ++ b2) = all_items b1 ++ all_items b2.
Proof. unfold all_items, values. by rewrite fmap_app, flat_map_app. Qed.

Lemma all_items_cons k c b : all_items ((k, c) :: b) = items c ++ all_items b.
Proof. done. Qed.

(** Replacing a column swaps its items for the new ones. *)
Lemma all_items_set_property b k c c' :
  own_property b k = Some c →
  all_items (set_property k c' b) ++ items c ≡ₚ all_items b ++ items c'.
Proof.
  intros (b1 & b2 & -> & _ & ->)%own_property_split.
  rewrite !all_items_app, !all_items_cons.
  rewrite <-!(assoc_L (++)). apply Permutation_app_head.
  etrans; [apply Permutation_app_comm|].
  rewrite <-(assoc_L (++)), !(assoc_L (++)).
  apply Permutation_app_tail, Permutation_app_comm.
Qed.

Lemma sortAllColumnsByLikes_value b :
  sortAllColumnsByLikes b
  = Normal ((λ kc, (kc.1, sorted_column kc.2)) <$> b).
Proof.
  induction b as [|[k c] b IH]; simpl; [done|].
  rewrite sortByLikes_sort_ranked, IH. done.
Qed.

Lemma own_property_fmap (f : column → column) (b : board) k :
  own_property ((λ kc, (kc.1, f kc.2)) <$> b) k = f <$> own_property b k.
Proof.
  induction b as [|[k' c] b IH]; simpl; [done|].
  destruct (String.eqb k' k); [done|]. apply IH.
Qed.

Lemma keys_fmap (f : column → column) (b : board) :
  keys ((λ kc, (kc.1, f kc.2)) <$> b) = keys b.
Proof. unfold keys. rewrite <-list_fmap_compose. done. Qed.

Lemma all_items_sorted_perm (b : board) :
  all_items ((λ kc, (kc.1, sorted_column kc.2)) <$> b) ≡ₚ all_items b.
Proof.
  induction b as [|[k c] b IH]; [done|].
  rewrite fmap_cons, !all_items_cons. simpl.
  by rewrite sort_ranked_perm, IH.
Qed.

(** * Facts about the state setters *)

Lemma columns_save_effect st : columns (save_effect st) = columns st.
Proof. unfold save_effect. by destruct (loading st). Qed.

Lemma columns_setColumns st c : columns (setColumns st c) = c.
Proof. unfold setColumns. by rewrite columns_save_effect. Qed.

Lemma columnOrder_save_effect st : columnOrder (save_effect st) = columnOrder st.
Proof. unfold save_effect. by destruct (loading st). Qed.

(** * Facts about a classification pass *)

Lemma same_record_rank it it' : same_record it it' → item_rank it' = item_rank it.
Proof. by intros [->|(r & v & -> & ->)]. Qed.

Lemma same_record_id it it' : same_record it it' → record_id it' = record_id it.
Proof. by intros [->|(r & v & -> & ->)]. Qed.

Section classification_facts.
Context (cr : gmap string entry).
Implicit Types (b : board) (l : list item) (it : item) (k : string).

Lemma classify_item_keys b b' it :
  keys b = keys b' → classify_item cr b it = classify_item cr b' it.
Proof.
  intros Hkeys. unfold classify_item.
  destruct (get_id it) as [id|]; simpl; [|done].
  destruct (result_truthy _); [|done].
  destruct (set_sentiment _ _) as [it'|]; simpl; [|done].
  destruct (if truthy _ then _ else _) as [assignedCat|]; simpl; [|done].
  by rewrite (get_property_truthy_keys b b').
Qed.

Lemma classify_item_same_record b it targetCat it' :
  classify_item cr b it = Normal (targetCat, it') → same_record it it'.
Proof.
  unfold classify_item.
  destruct (get_id it) as [id|]; simpl; [|done].
  destruct (result_truthy _); [|by intros [= _ <-]; left].
  destruct it as [p|r]; simpl; [done|].
  destruct (if truthy _ then _ else _) as [assignedCat|]; simpl; [|done].
  destruct (slot_truthy _); intros [= _ <-]; right; eauto.
Qed.

Lemma routed_to_keys b b' k l :
  keys b = keys b' → routed_to cr b k l = routed_to cr b' k l.
Proof.
  intros Hkeys. unfold routed_to.
  apply list_omap_ext, Forall_Forall2_diag, Forall_forall.
  intros it _. by rewrite (classify_item_keys b b').
Qed.

Lemma all_items_push b k c l :
  own_property b k = Some c →
  all_items (set_property k (with_items c (items c ++ l)) b) ≡ₚ all_items b ++ l.
Proof.
  intros (b1 & b2 & -> & _ & ->)%own_property_split.
  rewrite !all_items_app, !all_items_cons. simpl.
  rewrite <-!(assoc_L (++)). do 2 apply Permutation_app_head.
  apply Permutation_app_comm.
Qed.

Lemma push_item_Normal b targetCat it b' :
  push_item b targetCat it = Normal b' →
  ∃ c, own_property b targetCat = Some c
       ∧ b' = set_property targetCat (with_items c (items c ++ [it])) b.
Proof.
  unfold push_item, get_property.
  destruct (own_property b targetCat) as [c|]; [|by destruct (inherited_key _)].
  intros [= <-]. eauto.
Qed.

(** One round of the loop that completes. *)
Lemma place_round b it b' :
  ('(targetCat, it') ← classify_item cr b it; push_item b targetCat it')
    = Normal b' →
  ∃ targetCat it' c,
    classify_item cr b it = Normal (targetCat, it')
    ∧ own_property b targetCat = Some c
    ∧ b' = set_property targetCat (with_items c (items c ++ [it'])) b.
Proof.
  destruct (classify_item cr b it) as [[targetCat it']|] eqn:Hc; simpl; [|done].
  intros (c & Hown & ->)%push_item_Normal. eauto 10.
Qed.

(** What the loop leaves in each column when it runs to its end. *)
Lemma place_items_columns l b b' :
  place_items cr l b = (b', Normal ()) →
  keys b' = keys b
  ∧ ∀ k, own_property b' k
         = (λ c, with_items c (items c ++ routed_to cr b k l))
             <$> own_property b k.
Proof.
  revert b. induction l as [|it l IH]; intros b; simpl.
  - intros [= <-]. split; [done|]. intros k.
    destruct (own_property b k) as [[]|]; simpl; [|done].
    unfold with_items; simpl. by rewrite app_nil_r.
  - destruct (_ ≫= _) as [b1|] eqn:Hround; [|done].
    apply place_round in Hround as (targetCat & it' & c & Hc & Hown & ->).
    intros [Hkeys Hcols]%IH.
    rewrite (keys_set_property _ _ c) in Hkeys by done.
    split; [done|]. intros k. rewrite Hcols.
    rewrite (routed_to_keys _ b) by by eapply keys_set_property.
    unfold routed_to at 2. simpl. rewrite Hc.
    fold (routed_to cr b k l).
    destruct (decide (targetCat = k)) as [->|Hne].
    + rewrite own_property_set_eq, Hown. simpl. unfold with_items; simpl.
      by rewrite <-(assoc_L (++)).
    + by rewrite own_property_set_ne.
Qed.

(** The records the loop has placed are records it was given. *)
Lemma place_items_records l b b' :
  place_items cr l b = (b', Normal ()) →
  ∃ l', Forall2 same_record l l' ∧ all_items b' ≡ₚ all_items b ++ l'.
Proof.
  revert b. induction l as [|it l IH]; intros b; simpl.
  - intros [= <-]. exists []. split; [constructor|by rewrite app_nil_r].
  - destruct (_ ≫= _) as [b1|] eqn:Hround; [|done].
    apply place_round in Hround as (targetCat & it' & c & Hc & Hown & ->).
    intros (l' & Hl' & Hperm)%IH. exists (it' :: l'). split.
    + constructor; [by eapply classify_item_same_record|done].
    + rewrite Hperm, all_items_push by done.
      by rewrite <-(assoc_L (++)).
Qed.

(** However the loop ends, it has placed no id it was not given. *)
Lemma place_items_ids l b b' c :
  place_items cr l b = (b', c) →
  board_ids b' ⊆+ board_ids b ++ omap record_id l.
Proof.
  revert b. induction l as [|it l IH]; intros b; simpl.
  - intros [= <- _]. by rewrite app_nil_r.
  - destruct (_ ≫= _) as [b1|] eqn:Hround.
    + apply place_round in Hround as (targetCat & it' & c' & Hc & Hown & ->).
      intros ->%IH. unfold board_ids.
      rewrite all_items_push, omap_app by done. simpl.
      apply classify_item_same_record, same_record_id in Hc. rewrite Hc.
      rewrite <-(assoc_L (++)). apply submseteq_skips_l.
      by destruct (record_id it).
    + intros [= <- _]. apply submseteq_inserts_r. done.
Qed.
End classification_facts.

Lemma keys_clear_columns b : keys (clear_columns b) = keys b.
Proof. apply (keys_fmap (λ c, with_items c [])). Qed.

Lemma all_items_clear_columns b : all_items (clear_columns b) = [].
Proof.
  induction b as [|[k c] b IH]; [done|].
  unfold clear_columns in *. by rewrite fmap_cons, all_items_cons.
Qed.

Lemma board_sorted_sortAll b :
  board_sorted ((λ kc, (kc.1, sorted_column kc.2)) <$> b).
Proof.
  unfold board_sorted, values. induction b as [|[k c] b IH]; simpl.
  - constructor.
  - constructor; [apply sort_ranked_descending|done].
Qed.

(** [updateCategoryForIds], when it returns. *)
Lemma updateCategoryForIds_Normal st cr st' :
  updateCategoryForIds st cr = (st', Normal ()) →
  keys (columns st') = keys (columns st)
  ∧ board_sorted (columns st')
  ∧ (∀ k, own_property (columns st') k
          = (λ c, with_items c (sort_ranked item_rank
                     (routed_to cr (columns st) k (all_items (columns st)))))
              <$> own_property (columns st) k)
  ∧ ∃ l', Forall2 same_record (all_items (columns st)) l'
          ∧ all_items (columns st') ≡ₚ l'.
Proof.
  unfold updateCategoryForIds.
  destruct (place_items _ _ _) as [placed [[]|e]] eqn:Hplace; [|done].
  rewrite sortAllColumnsByLikes_value. intros [= <-].
  rewrite columns_setColumns.
  pose proof (place_items_columns _ _ _ _ Hplace) as [Hkeys Hcols].
  pose proof (place_items_records _ _ _ _ Hplace) as (l' & Hl' & Hperm).
  rewrite keys_clear_columns in Hkeys.
  split_and!.
  - by rewrite keys_fmap.
  - apply board_sorted_sortAll.
  - intros k. rewrite own_property_fmap, Hcols.
    unfold clear_columns. rewrite (own_property_fmap (λ c, with_items c [])).
    rewrite (routed_to_keys _ _ (columns st)) by apply keys_clear_columns.
    destruct (own_property (columns st) k) as [c|]; simpl; [|done].
    unfold sorted_column, with_items. simpl. done.
  - exists l'. split; [done|].
    rewrite all_items_sorted_perm, Hperm, all_items_clear_columns. done.
Qed.

(** [updateCategoryForIds], however it ends, leaves no id on the board that
    was not there. *)
Lemma updateCategoryForIds_ids st cr :
  board_ids (columns (updateCategoryForIds st cr).1) ⊆+ board_ids (columns st).
Proof.
  unfold updateCategoryForIds.
  destruct (place_items _ _ _) as [placed c] eqn:Hplace.
  apply place_items_ids in Hplace.
  unfold board_ids at 2 in Hplace. rewrite all_items_clear_columns in Hplace.
  simpl in Hplace.
  destruct c as [[]|e]; [|done].
  rewrite sortAllColumnsByLikes_value. simpl. rewrite columns_setColumns.
  unfold board_ids at 1. by rewrite all_items_sorted_perm.
Qed.

(** When the loop runs to its end, every item was routed to a column the
    board has. *)
Lemma place_items_targets cr l b b' :
  place_items cr l b = (b', Normal ()) →
  Forall (λ it, ∃ targetCat it',
            classify_item cr b it = Normal (targetCat, it')
            ∧ is_Some (own_property b targetCat)) l.
Proof.
  revert b. induction l as [|it l IH]; intros b; simpl; [by constructor|].
  destruct (_ ≫= _) as [b1|] eqn:Hround; [|done].
  apply place_round in Hround as (targetCat & it' & c & Hc & Hown & ->).
  intros Hrest%IH. constructor; [by eauto|].
  eapply Forall_impl; [exact Hrest|]. intros it0 (t0 & it0' & Hc0 & Hown0).
  exists t0, it0'. rewrite (classify_item_keys _ _ b) in Hc0
    by by eapply keys_set_property.
  split; [done|]. apply own_property_Some_keys.
  apply own_property_Some_keys in Hown0.
  by rewrite (keys_set_property _ _ c) in Hown0.
Qed.

(** Where a record goes when [updateCategoryForIds] returns. *)
Lemma updateCategoryForIds_routes st cr st' it :
  updateCategoryForIds st cr = (st', Normal ()) →
  it ∈ all_items (columns st) →
  ∃ targetCat it' c',
    classify_item cr (columns st) it = Normal (targetCat, it')
    ∧ own_property (columns st') targetCat = Some c'
    ∧ it' ∈ items c'.
Proof.
  intros Hupdate Hit.
  pose proof (updateCategoryForIds_Normal _ _ _ Hupdate) as (_ & _ & Hcols & _).
  unfold updateCategoryForIds in Hupdate.
  destruct (place_items _ _ _) as [placed [[]|e]] eqn:Hplace; [|done].
  apply place_items_targets in Hplace.
  eapply Forall_forall in Hplace as (targetCat & it' & Hc & [c Hown]); [|done].
  rewrite (classify_item_keys _ _ (columns st)) in Hc
    by apply keys_clear_columns.
  unfold clear_columns in Hown.
  rewrite (own_property_fmap (λ c, with_items c [])) in Hown.
  destruct (own_property (columns st) targetCat) as [c0|] eqn:Hown0; [|done].
  exists targetCat, it', (with_items c0 (sort_ranked item_rank
    (routed_to cr (columns st) targetCat (all_items (columns st))))).
  split_and!; [done|by rewrite Hcols, Hown0|].
  simpl. rewrite sort_ranked_perm. unfold routed_to.
  apply list_elem_of_omap. exists it. split; [done|].
  rewrite Hc. by rewrite decide_True.
Qed.

(** * Facts about [moveCard] *)

#[local] Arguments splice_remove : simpl never.
#[local] Arguments splice_insert : simpl never.

Lemma set_property_twice {V} (o : list (string * V)) k v v' :
  set_property k v (set_property k v' o) = set_property k v o.
Proof.
  induction o as [|[k1 w] o IH]; simpl.
  - by rewrite String.eqb_refl.
  - destruct (String.eqb k1 k) eqn:Heq; simpl.
    + by rewrite String.eqb_refl.
    + by rewrite Heq, IH.
Qed.

(** Either nothing happens to the state, or a card is taken out of the
    source column and put into the destination column, which is sorted. *)
Lemma moveCard_cases st source destination st' c :
  moveCard st source destination = (st', c) →
  st' = st
  ∨ ∃ d S removed_list rest,
      destination = Some d ∧ c = Normal ()
      ∧ own_property (columns st) (droppableId source) = Some S
      ∧ splice_remove (index source) (items S) = (removed_list, rest)
      ∧ let removed := default (Prim PUndefined) (head removed_list) in
        (droppableId source = droppableId d
         ∧ columns st'
           = set_property (droppableId d)
               (with_items S (sort_ranked item_rank
                                (splice_insert (index d) removed rest)))
               (columns st))
        ∨ (droppableId source ≠ droppableId d
           ∧ ∃ D, own_property (columns st) (droppableId d) = Some D
                  ∧ columns st'
                    = set_property (droppableId d)
                        (with_items D (sort_ranked item_rank
                                         (splice_insert (index d) removed (items D))))
                        (set_property (droppableId source)
                           (with_items S rest) (columns st))).
Proof.
  unfold moveCard. destruct destination as [d|]; [|by intros [= <-]; left].
  destruct (_ && _); [by intros [= <-]; left|].
  unfold get_property.
  destruct (own_property (columns st) (droppableId source)) as [S|] eqn:HS;
    cbn; [|by destruct (inherited_key _); cbn;
             [destruct (negb _)|]; intros [= <-]; left].
  destruct (splice_remove (index source) (items S)) as [removed_list rest] eqn:Hsp.
  destruct (String.eqb_spec (droppableId source) (droppableId d)) as [Heq|Hne].
  - rewrite <-Heq, HS. cbn. rewrite sortByLikes_sort_ranked.
    intros [= <- <-]. right. exists d, S, removed_list, rest.
    split_and!; [done..|]. left. split; [done|].
    rewrite columns_setColumns, <-Heq. apply set_property_twice.
  - destruct (own_property (columns st) (droppableId d)) as [D|] eqn:HD; cbn.
    + rewrite sortByLikes_sort_ranked. intros [= <- <-]. right.
      exists d, S, removed_list, rest. split_and!; [done..|].
      right. split; [done|]. exists D. split; [done|].
      by rewrite columns_setColumns.
    + destruct (inherited_key _); cbn; intros [= <-]; by left.
Qed.

Lemma moveCard_keys st source destination :
  keys (columns (moveCard st source destination).1) = keys (columns st).
Proof.
  destruct (moveCard st source destination) as [st' c] eqn:Hmove. simpl.
  apply moveCard_cases in Hmove
    as [->|(d & S & rl & rest & -> & -> & HS & Hsp & [[Heq ->]|(Hne & D & HD & ->)])];
    [done|..].
  - rewrite <-Heq. by eapply keys_set_property.
  - rewrite (keys_set_property _ _ D).
    + by eapply keys_set_property.
    + by rewrite own_property_set_ne.
Qed.

Lemma all_items_replace b k c c' l :
  own_property b k = Some c → items c' ≡ₚ l →
  all_items (set_property k c' b) ++ items c ≡ₚ all_items b ++ l.
Proof. intros Hown <-. by apply all_items_set_property. Qed.

(** The board holds the items it held, and possibly one more [undefined]. *)
Lemma moveCard_items st source destination :
  let b' := columns (moveCard st source destination).1 in
  all_items b' ≡ₚ all_items (columns st)
  ∨ all_items b' ≡ₚ Prim PUndefined :: all_items (columns st).
Proof.
  destruct (moveCard st source destination) as [st' c] eqn:Hmove. simpl.
  apply moveCard_cases in Hmove
    as [->|(d & S & rl & rest & -> & -> & HS & Hsp & Hcases)]; [by left|].
  assert (Hrem : (rl = [] ∧ rest = items S)
                 ∨ ∃ x, rl = [x] ∧ items S ≡ₚ x :: rest).
  { destruct (splice_remove_cases (index source) (items S))
      as [Hnone|(x & l1 & l2 & Harr & Hsome)]; rewrite Hsp in *.
    - left. by injection Hnone.
    - right. exists x. injection Hsome as -> ->. split; [done|].
      by rewrite Harr, Permutation_middle. }
  set (removed := default (Prim PUndefined) (head rl)) in *.
  simpl in Hcases.
  destruct Hcases as [[Heq ->]|(Hne & D & HD & ->)].
  - rewrite <-Heq.
    assert (sort_ranked item_rank (splice_insert (index d) removed rest)
            ≡ₚ removed :: rest) as Hperm
      by by rewrite sort_ranked_perm, splice_insert_perm.
    pose proof (all_items_replace (columns st) (droppableId source) S
      (with_items S (sort_ranked item_rank (splice_insert (index d) removed rest)))
      (removed :: rest) HS Hperm) as Hswap.
    destruct Hrem as [[Hrl ->]|(x & Hrl & Hx)];
      subst removed; rewrite Hrl in *; simpl in *.
    + right. apply (Permutation_app_inv_r (items S)).
      rewrite Hswap. by rewrite <-Permutation_middle.
    + left. apply (Permutation_app_inv_r (items S)).
      by rewrite Hswap, Hx.
  - set (b1 := set_property (droppableId source) (with_items S rest) (columns st)).
    assert (own_property b1 (droppableId d) = Some D) as HD1.
    { unfold b1. by rewrite own_property_set_ne. }
    pose proof (all_items_replace (columns st) (droppableId source) S
      (with_items S rest) rest HS (reflexivity _)) as Hswap1.
    assert (sort_ranked item_rank (splice_insert (index d) removed (items D))
            ≡ₚ removed :: items D) as Hperm
      by by rewrite sort_ranked_perm, splice_insert_perm.
    pose proof (all_items_replace b1 (droppableId d) D
      (with_items D (sort_ranked item_rank
         (splice_insert (index d) removed (items D))))
      (removed :: items D) HD1 Hperm) as Hswap2.
    fold b1 in Hswap1.
    set (new := all_items (set_property _ _ b1)) in *.
    assert (new ++ items D ++ items S
            ≡ₚ (removed :: rest) ++ all_items (columns st) ++ items D) as Hboth.
    { rewrite (assoc_L (++) new), Hswap2.
      rewrite <-(assoc_L (++)), (comm (++) (removed :: items D) (items S)).
      rewrite (assoc_L (++)), Hswap1.
      rewrite <-Permutation_middle. simpl. apply perm_skip.
      rewrite (comm (++) (all_items (columns st)) rest).
      by rewrite <-(assoc_L (++)). }
    destruct Hrem as [[Hrl ->]|(x & Hrl & Hx)];
      subst removed; rewrite Hrl in *; simpl in *.
    + right. apply (Permutation_app_inv_r (items D ++ items S)).
      rewrite Hboth. simpl. apply perm_skip.
      rewrite (comm (++) (items S)). by rewrite <-(assoc_L (++)).
    + left. apply (Permutation_app_inv_r (items D ++ items S)).
      rewrite Hboth, Hx. rewrite (assoc_L (++) (all_items (columns st))).
      rewrite <-Permutation_middle. apply perm_skip, Permutation_app_comm.
Qed.

Lemma moveCard_ids st source destination :
  board_ids (columns (moveCard st source destination).1)
  ≡ₚ board_ids (columns st).
Proof.
  unfold board_ids.
  destruct (moveCard_items st source destination) as [->| ->]; done.
Qed.

Lemma moveCard_sorted st source destination :
  board_sorted (columns st) →
  board_sorted (columns (moveCard st source destination).1).
Proof.
  intros Hsorted.
  destruct (moveCard st source destination) as [st' c] eqn:Hmove. simpl.
  apply moveCard_cases in Hmove
    as [->|(d & S & rl & rest & -> & -> & HS & Hsp & Hcases)]; [done|].
  assert (descending item_rank rest) as Hrest.
  { apply (descending_sublist _ _ (items S)).
    - destruct (splice_remove_cases (index source) (items S))
        as [Hnone|(x & l1 & l2 & Harr & Hsome)]; rewrite Hsp in *.
      + by injection Hnone as _ ->.
      + injection Hsome as _ ->. rewrite Harr.
        apply sublist_app; [done|]. by apply sublist_cons.
    - unfold board_sorted in Hsorted.
      eapply Forall_forall in Hsorted; [exact Hsorted|].
      by eapply own_property_elem_of. }
  simpl in Hcases. unfold board_sorted.
  destruct Hcases as [[Heq ->]|(Hne & D & HD & ->)].
  - apply Forall_values_set_property; [done|]. apply sort_ranked_descending.
  - apply Forall_values_set_property; [|apply sort_ranked_descending].
    by apply Forall_values_set_property.
Qed.

(** A column id that the board does not have and that [Object.prototype]
    has no member for makes [moveCard] return without touching the state. *)
Lemma moveCard_unknown_column st source destination :
  get_property (columns st) (droppableId source) = Absent
  ∨ (∃ d, destination = Some d ∧ get_property (columns st) (droppableId d) = Absent) →
  moveCard st source destination = (st, Normal ()).
Proof.
  unfold moveCard. intros Habsent.
  destruct destination as [d|]; [|done].
  destruct (_ && _); [done|].
  destruct Habsent as [-> |(d' & [= <-] & ->)]; simpl; [done|].
  by rewrite orb_true_r.
Qed.

(** A throw of [moveCard] leaves the state as it was. *)
Lemma moveCard_throw_keeps_state st source destination st' e :
  moveCard st source destination = (st', Throw e) → st' = st.
Proof.
  intros [->|(d & S & rl & rest & _ & ? & _)]%moveCard_cases; done.
Qed.

(** * Facts about [addMessages] *)

Lemma all_items_grow b k c c' l :
  own_property b k = Some c → items c' ≡ₚ items c ++ l →
  all_items (set_property k c' b) ≡ₚ all_items b ++ l.
Proof.
  intros (b1 & b2 & -> & _ & ->)%own_property_split Hperm.
  rewrite !all_items_app, !all_items_cons, Hperm.
  rewrite <-!(assoc_L (++)). do 2 apply Permutation_app_head.
  apply Permutation_app_comm.
Qed.

Lemma addMessages_cases st messages st' c :
  addMessages st messages = (st', c) →
  (st' = st ∧ c = Normal () ∧ (messages = None ∨ messages = Some []))
  ∨ ∃ msgs, messages = Some msgs ∧ msgs ≠ []
      ∧ ((c = Throw TypeError ∧ columns st' = columns st)
         ∨ ∃ unc, c = Normal ()
             ∧ own_property (columns st) "uncategorized" = Some unc
             ∧ columns st'
               = set_property "uncategorized"
                   (with_items unc (sort_ranked item_rank (items unc ++ msgs)))
                   (columns st)).
Proof.
  unfold addMessages. destruct messages as [[|m msgs]|];
    [intros [= <- <-]; left; eauto| |intros [= <- <-]; left; eauto].
  intros Hadd. right. exists (m :: msgs). split_and!; [done..|].
  simpl in Hadd.
  destruct (own_property (columns st) "uncategorized") as [unc|] eqn:Hunc.
  - rewrite sortByLikes_sort_ranked in Hadd. injection Hadd as <- <-.
    right. exists unc. split_and!; [done..|].
    by rewrite columns_setColumns.
  - injection Hadd as <- <-. by left.
Qed.

Lemma addMessages_sorted st messages :
  board_sorted (columns st) →
  board_sorted (columns (addMessages st messages).1).
Proof.
  intros Hsorted.
  destruct (addMessages st messages) as [st' c] eqn:Hadd. simpl.
  apply addMessages_cases in Hadd
    as [(-> & _)|(msgs & -> & _ & [[_ ->]|(unc & -> & Hunc & ->)])]; [done..|].
  apply Forall_values_set_property; [done|]. apply sort_ranked_descending.
Qed.

Lemma addMessages_items st messages st' :
  addMessages st messages = (st', Normal ()) →
  all_items (columns st') ≡ₚ all_items (columns st) ++ default [] messages.
Proof.
  intros Hadd. apply addMessages_cases in Hadd
    as [(-> & _ & [-> | ->])|(msgs & -> & _ & [[? _]|(unc & _ & Hunc & ->)])];
    simpl; [by rewrite app_nil_r..|done|].
  apply (all_items_grow _ _ unc); [done|]. apply sort_ranked_perm.
Qed.

(** [moveCard] between two columns of the board, or between two places of
    one column. *)
Lemma moveCard_moves st source d S D removed_list rest :
  ¬ (droppableId source = droppableId d ∧ index source = index d) →
  own_property (columns st) (droppableId source) = Some S →
  own_property (columns st) (droppableId d) = Some D →
  splice_remove (index source) (items S) = (removed_list, rest) →
  let removed := default (Prim PUndefined) (head removed_list) in
  moveCard st source (Some d)
  = (setColumns st
       (if decide (droppableId source = droppableId d)
        then set_property (droppableId d)
               (with_items S (sort_ranked item_rank
                                (splice_insert (index d) removed rest)))
               (columns st)
        else set_property (droppableId d)
               (with_items D (sort_ranked item_rank
                                (splice_insert (index d) removed (items D))))
               (set_property (droppableId source)
                  (with_items S rest) (columns st))),
     Normal ()).
Proof.
  intros Hmoved HS HD Hsp. unfold moveCard.
  destruct (String.eqb_spec (droppableId source) (droppableId d)) as [Heq|Hne].
  - destruct (Z.eqb_spec (index source) (index d)) as [Hidx|Hidx];
      [by destruct Hmoved|].
    cbn. unfold get_property. rewrite <-Heq, HS. cbn. rewrite Hsp.
    rewrite sortByLikes_sort_ranked. rewrite decide_True by done.
    by rewrite set_property_twice.
  - cbn. unfold get_property. rewrite HS, HD. cbn. rewrite Hsp. cbn.
    rewrite sortByLikes_sort_ranked. by rewrite decide_False by done.
Qed.

(** * Facts about the extractor *)

Lemma content_scan acc cards :
  content <$> foldl scan_card acc cards
  = (content <$> acc) ++ (card_content <$> cards).
Proof.
  revert acc. induction cards as [|c cards IH]; intros acc; simpl.
  - by rewrite app_nil_r.
  - rewrite IH. unfold scan_card. rewrite fmap_app. simpl.
    by rewrite <-(assoc_L (++)).
Qed.

Lemma content_kept (msgs : list message) :
  content <$> filter (λ msg, nonempty (m_message msg) || nonempty (m_timestamp msg)) msgs
  = filter (λ t, ¬ (t.1.2 = "" ∧ t.1.1 = ""))%string (content <$> msgs).
Proof.
  induction msgs as [|msg msgs IH]; [done|].
  rewrite fmap_cons, !filter_cons, <-IH. unfold nonempty. simpl.
  destruct (String.eqb_spec (m_message msg) ""), (String.eqb_spec (m_timestamp msg) "");
    simpl; repeat case_decide; try done; tauto.
Qed.

Lemma card_content_kept (cards : list card) :
  filter (λ t, ¬ (t.1.2 = "" ∧ t.1.1 = ""))%string (card_content <$> cards)
  = card_content <$> filter (λ c, ¬ blank c) cards.
Proof.
  induction cards as [|c cards IH]; [done|].
  rewrite fmap_cons, !filter_cons, IH. unfold blank. simpl.
  by repeat case_decide.
Qed.

Section sort_ranked_fmap.
Context {A B : Type} (f : A → B) (rank : B → option Z).

Lemma insert_ranked_fmap x l :
  f <$> insert_ranked (λ a, rank (f a)) x l = insert_ranked rank (f x) (f <$> l).
Proof.
  induction l as [|y l IH]; [done|].
  rewrite fmap_cons. cbn [insert_ranked].
  destruct (rank_lt _ _); [|done]. by rewrite fmap_cons, IH.
Qed.

Lemma sort_ranked_fmap l :
  f <$> sort_ranked (λ a, rank (f a)) l = sort_ranked rank (f <$> l).
Proof.
  induction l as [|x l IH]; [done|].
  rewrite fmap_cons. cbn [sort_ranked]. rewrite <-IH.
  apply insert_ranked_fmap.
Qed.
End sort_ranked_fmap.

Lemma sort_messages (msgs : list message) :
  array_sort (λ _, false) compare_message_likes msgs
  = Normal (sort_ranked (λ msg, likes_rank (content msg)) msgs).
Proof.
  apply array_sort_ranked. intros x y. eexists. split; [done|].
  simpl. apply eq_iff_eq_true. rewrite !Z.ltb_lt. lia.
Qed.

Lemma content_renumber (msgs : list message) :
  content <$> imap (λ idx msg, with_id msg (Z.of_nat idx + 1)) msgs
  = content <$> msgs.
Proof.
  rewrite fmap_imap. rewrite <-(imap_const content msgs).
  by apply imap_ext.
Qed.

Lemma ids_renumber (msgs : list message) :
  m_id <$> imap (λ idx msg, with_id msg (Z.of_nat idx + 1)) msgs
  = (λ idx, Z.of_nat idx + 1) <$> seq 0 (length msgs).
Proof.
  rewrite fmap_imap. rewrite <-imap_seq_0. by apply imap_ext.
Qed.

(** [parseQAMessages] always returns; its records are those of the cards
    that are not blank, stably sorted by likes and numbered from 1. *)
Lemma parseQAMessages_value cards :
  ∃ out, parseQAMessages cards = Normal out
    ∧ content <$> messages out
      = sort_ranked likes_rank (card_content <$> filter (λ c, ¬ blank c) cards)
    ∧ m_id <$> messages out
      = (λ idx, Z.of_nat idx + 1) <$> seq 0 (length (messages out)).
Proof.
  unfold parseQAMessages. rewrite sort_messages. simpl.
  eexists. split; [done|]. simpl. split.
  - rewrite content_renumber, (sort_ranked_fmap content likes_rank).
    rewrite content_kept, content_scan, fmap_nil, app_nil_l.
    by rewrite card_content_kept.
  - by rewrite ids_renumber, length_imap.
Qed.

(** * Any stable sort gives the same array

    Two arrangements of the same elements that are both descending and
    both keep the elements of every rank in the same order are equal.  The
    engine's sorting algorithm is therefore immaterial. *)

Section stable_sort_unique.
Context {A : Type} (rank : A → option Z).

Lemma rank_ge_antisym x y :
  rank_ge rank x y → rank_ge rank y x → rank x = rank y.
Proof.
  unfold rank_ge. destruct (rank x), (rank y); simpl; try done.
  rewrite !Z.ltb_ge. intros. f_equal. lia.
Qed.

Lemma of_rank_head_elem_of x l l' :
  of_rank rank (rank x) (x :: l) = of_rank rank (rank x) l' → x ∈ l'.
Proof.
  unfold of_rank. rewrite filter_cons, decide_True by done.
  intros Heq.
  assert (x ∈ filter (λ y, rank y = rank x) l') as Hin
    by (rewrite <-Heq; left).
  by apply list_elem_of_filter in Hin as [_ ?].
Qed.

Lemma descending_same_ranks_eq l1 l2 :
  descending rank l1 → descending rank l2 →
  (∀ k, of_rank rank k l1 = of_rank rank k l2) →
  l1 = l2.
Proof.
  revert l2. induction l1 as [|x l1 IH]; intros l2 Hd1 Hd2 Hranks.
  - destruct l2 as [|y l2]; [done|].
    specialize (Hranks (rank y)). unfold of_rank in Hranks.
    by rewrite filter_cons, decide_True in Hranks.
  - destruct l2 as [|y l2].
    { specialize (Hranks (rank x)). unfold of_rank in Hranks.
      by rewrite filter_cons, decide_True in Hranks. }
    apply StronglySorted_inv in Hd1 as [Hd1 Hx].
    apply StronglySorted_inv in Hd2 as [Hd2 Hy].
    assert (rank x = rank y) as Hxy.
    { pose proof (of_rank_head_elem_of x l1 (y :: l2) (Hranks (rank x))) as Hxin.
      pose proof (of_rank_head_elem_of y l2 (x :: l1) (eq_sym (Hranks (rank y))))
        as Hyin.
      apply elem_of_cons in Hxin as [->|Hxin]; [done|].
      apply elem_of_cons in Hyin as [->|Hyin]; [done|].
      apply rank_ge_antisym.
      - eapply Forall_forall in Hx; [exact Hx|done].
      - eapply Forall_forall in Hy; [exact Hy|done]. }
    assert (x = y ∧ ∀ k, of_rank rank k l1 = of_rank rank k l2) as [-> Htl].
    { pose proof (Hranks (rank x)) as Hhead. unfold of_rank in Hhead.
      rewrite !filter_cons, decide_True, decide_True in Hhead by done.
      injection Hhead as -> Hhead. split; [done|].
      intros k. destruct (decide (rank y = k)) as [<-|Hk]; [done|].
      specialize (Hranks k). unfold of_rank in *.
      by rewrite !filter_cons, !decide_False in Hranks. }
    f_equal. by apply IH.
Qed.

Lemma stably_sorted_unique l out :
  stably_sorted rank l out → out = sort_ranked rank l.
Proof.
  intros [Hd Hranks]. apply descending_same_ranks_eq; [done|..].
  - apply sort_ranked_descending.
  - intros k. by rewrite Hranks, sort_ranked_of_rank.
Qed.
End stable_sort_unique.

(** Without [undefined] slots, descending by rank is descending by likes. *)
Lemma descending_by_likes (l : list item) :
  Forall (λ it, is_undefined it = false) l →
  descending item_rank l ↔ StronglySorted (λ a b, likesOf b ≤ likesOf a) l.
Proof.
  unfold descending. induction 1 as [|x l Hx Hl IH].
  - split; constructor.
  - split; intros [Hs Hall]%StronglySorted_inv; constructor; try by apply IH.
    + apply Forall_forall. intros y Hy.
      eapply Forall_forall in Hall; [|done].
      eapply Forall_forall in Hl; [|done].
      unfold rank_ge, item_rank in Hall. rewrite Hx, Hl in Hall.
      simpl in Hall. by apply Z.ltb_ge in Hall.
    + apply Forall_forall. intros y Hy.
      eapply Forall_forall in Hall; [|done].
      eapply Forall_forall in Hl; [|done].
      unfold rank_ge, item_rank. rewrite Hx, Hl. simpl. by apply Z.ltb_ge.
Qed.

(** * When a classification pass returns *)

Lemma classify_item_returns cr b0 b r :
  keys b = keys b0 →
  is_Some (own_property b0 "uncategorized") →
  routable cr b0 →
  ∃ targetCat it',
    classify_item cr b (Obj r) = Normal (targetCat, it')
    ∧ is_Some (own_property b targetCat).
Proof.
  intros Hkeys Hunc Hroutable.
  assert (is_Some (own_property b "uncategorized")) as Hunc'.
  { apply own_property_Some_keys. rewrite Hkeys.
    by apply own_property_Some_keys. }
  unfold classify_item. simpl.
  destruct (get_result cr (to_property_key (r_id r))) as [[p|category sentiment]| |]
    eqn:Hresult; simpl.
  - destruct (truthy p); simpl; [|by eauto].
    destruct (slot_truthy _); eauto.
  - destruct (truthy category) eqn:Hcat; simpl.
    + unfold get_result in Hresult.
      destruct (cr !! to_property_key (r_id r)) as [e|] eqn:Hkey;
        [|by destruct (inherited_key _)].
      injection Hresult as ->.
      destruct (Hroutable _ _ _ Hkey Hcat) as (name & -> & Hname). simpl.
      unfold get_property.
      destruct (own_property b (lower name)) as [c|] eqn:Hown; simpl;
        [by eauto|].
      destruct Hname as [Hname| ->]; simpl; [|by eauto].
      apply own_property_Some_keys in Hname. rewrite <-Hkeys in Hname.
      apply own_property_Some_keys in Hname. rewrite Hown in Hname.
      by destruct Hname.
    + destruct (slot_truthy _); eauto.
  - destruct (slot_truthy _); eauto.
  - eauto.
Qed.

Lemma place_items_returns cr b0 l b :
  keys b = keys b0 →
  is_Some (own_property b0 "uncategorized") →
  routable cr b0 →
  Forall (λ it, ∃ r, it = Obj r) l →
  ∃ b', place_items cr l b = (b', Normal ()).
Proof.
  intros Hkeys Hunc Hroutable Hl. revert b Hkeys.
  induction Hl as [|it l [r ->] _ IH]; intros b Hkeys; simpl; [by eauto|].
  destruct (classify_item_returns cr b0 b r Hkeys Hunc Hroutable)
    as (targetCat & it' & -> & [c Hown]).
  simpl. unfold push_item, get_property. rewrite Hown.
  apply IH. by rewrite (keys_set_property _ _ c).
Qed.

(** [updateCategoryForIds] returns when the board has [uncategorized], its
    items are message objects, and the classification is routable. *)
Lemma updateCategoryForIds_returns st cr :
  is_Some (own_property (columns st) "uncategorized") →
  routable cr (columns st) →
  Forall (λ it, ∃ r, it = Obj r) (all_items (columns st)) →
  ∃ st', updateCategoryForIds st cr = (st', Normal ()).
Proof.
  intros Hunc Hroutable Hitems. unfold updateCategoryForIds.
  destruct (place_items_returns cr (columns st) (all_items (columns st))
              (clear_columns (columns st)) (keys_clear_columns _)
              Hunc Hroutable Hitems) as [placed ->].
  rewrite sortAllColumnsByLikes_value. eauto.
Qed.

(** [updateCategoryForIds], when it returns, has kept every record, up to
    the sentiment it wrote. *)
Lemma updateCategoryForIds_keeps_records st cr st' :
  updateCategoryForIds st cr = (st', Normal ()) →
  ∃ l', Forall2 same_record (all_items (columns st)) l'
        ∧ all_items (columns st') ≡ₚ l'.
Proof. by intros (_ & _ & _ & H)%updateCategoryForIds_Normal. Qed.

(** * When an operation returns *)

Lemma run_returns st op : runnable st op → ∃ st', run st op = (st', Normal ()).
Proof.
  destruct op as [messages|source destination|cr]; simpl.
  - intros [unc Hunc]. unfold addMessages.
    destruct messages as [[|m msgs]|]; [by eauto| |by eauto].
    simpl. rewrite Hunc, sortByLikes_sort_ranked. eauto.
  - intros [Hsource Hdest].
    destruct destination as [d|]; [|by eauto].
    specialize (Hdest d eq_refl).
    destruct (decide (droppableId source = droppableId d ∧ index source = index d))
      as [[Hid Hidx]|Hmoved].
    { unfold moveCard.
      apply String.eqb_eq in Hid. apply Z.eqb_eq in Hidx.
      rewrite Hid, Hidx. simpl. eauto. }
    destruct (own_property (columns st) (droppableId source)) as [S|] eqn:HS;
      [destruct (own_property (columns st) (droppableId d)) as [D|] eqn:HD|].
    + destruct (splice_remove (index source) (items S)) as [rl rest] eqn:Hsp.
      rewrite (moveCard_moves _ _ _ S D rl rest) by done. eauto.
    + exists st. apply moveCard_unknown_column. right. exists d. split; [done|].
      unfold get_property. rewrite HD.
      destruct Hdest as [-> |[? ?]]; done.
    + exists st. apply moveCard_unknown_column. left.
      unfold get_property. rewrite HS.
      destruct Hsource as [-> |[? ?]]; done.
  - intros (Hunc & Hroutable & Hitems). by apply updateCategoryForIds_returns.
Qed.

(** * Small cases *)

Example sortByLikes_mixed_items :
  sortByLikes [ Prim PUndefined; sample_record 1 0 PUndefined; Prim PNull;
                sample_record 2 4 PUndefined ]
  = Normal [ sample_record 2 4 PUndefined; sample_record 1 0 PUndefined;
             Prim PNull; Prim PUndefined ].
Proof. reflexivity. Qed.

Example splice_remove_from_the_end :
  splice_remove (-1) [1; 2; 3] = ([3], [1; 2]).
Proof. reflexivity. Qed.

Example splice_remove_past_the_end :
  splice_remove 3 [1; 2; 3] = ([], [1; 2; 3]).
Proof. reflexivity. Qed.

Example splice_insert_clamped : splice_insert 9 0 [1; 2; 3] = [1; 2; 3; 0].
Proof. reflexivity. Qed.

Example match_digits_first_run :
  match_digits "thumb_up 12 likes 7" = Some "12"%string.
Proof. reflexivity. Qed.

Example trim_both_ends : trim "  09 December 2025 19:07 " = "09 December 2025 19:07"%string.
Proof. reflexivity. Qed.

Example number_id_as_key : to_property_key (PNum 12) = "12"%string.
Proof. reflexivity. Qed.

Example constructor_is_inherited :
  get_property default_columns "constructor" = Inherited.
Proof. reflexivity. Qed.

Example spreadsheet_is_absent :
  get_property default_columns "spreadsheet" = Absent.
Proof. reflexivity. Qed.

Example category_is_lowered : toLowerCase (PStr "AI") = Normal "ai"%string.
Proof. reflexivity. Qed.

(** * The extractor: ranking and filtering *)

(** C5. For every list of scanned cards, [parseQAMessages] returns the
    retained records sorted by likes, descending, records with equal likes
    in the order their cards have in the document, and numbers them
    1, 2, 3, ... in that order.  In particular cards with likes 2, 10, 10
    and texts a, b, c come out as b, c, a with ids 1, 2, 3. *)
Theorem parseQAMessages_ranked :
  (∀ cards, ∃ out,
      parseQAMessages cards = Normal out
      ∧ stably_sorted likes_rank
          (card_content <$> filter (λ c, ¬ blank c) cards)
          (content <$> messages out)
      ∧ m_id <$> messages out
        = (λ idx, Z.of_nat idx + 1) <$> seq 0 (length (messages out)))
  ∧ (∀ t1 t2 t3,
      parseQAMessages
        [ {| sentTime := t1; likes_text := "2"; wrappingtext := "a" |};
          {| sentTime := t2; likes_text := "10"; wrappingtext := "b" |};
          {| sentTime := t3; likes_text := "10"; wrappingtext := "c" |} ]
      = Normal
          {| totalMessages := 3;
             totalLikes := 22;
             messages :=
               [ {| m_id := 1; m_timestamp := trim t2; m_message := "b"; m_likes := 10 |};
                 {| m_id := 2; m_timestamp := trim t3; m_message := "c"; m_likes := 10 |};
                 {| m_id := 3; m_timestamp := trim t1; m_message := "a"; m_likes := 2 |} ] |}).
Proof.
  split.
  - intros cards.
    destruct (parseQAMessages_value cards) as (out & Hout & Hcontent & Hids).
    exists out. split_and!; [done| |done].
    rewrite Hcontent. apply sort_ranked_stably_sorted.
  - intros t1 t2 t3. reflexivity.
Qed.

(** C8. [parseQAMessages] drops a card exactly when both its body text and
    its timestamp are empty: the records returned are, one for one, the
    cards that have a body text or a timestamp. *)
Theorem parseQAMessages_drops_blank_cards (cards : list card) :
  ∃ out,
    parseQAMessages cards = Normal out
    ∧ content <$> messages out
      ≡ₚ card_content <$> filter (λ c, ¬ blank c) cards
    ∧ ∀ c, c ∈ cards →
        (card_content c ∈ content <$> messages out ↔ ¬ blank c).
Proof.
  destruct (parseQAMessages_value cards) as (out & Hout & Hcontent & _).
  exists out. split; [done|].
  assert (content <$> messages out
          ≡ₚ card_content <$> filter (λ c, ¬ blank c) cards) as Hperm.
  { rewrite Hcontent. apply sort_ranked_perm. }
  split; [done|]. intros c Hc. rewrite Hperm, list_elem_of_fmap. split.
  - intros (c' & Heq & [Hnb _]%list_elem_of_filter) [Hm Ht]. apply Hnb.
    unfold card_content in Heq. injection Heq as Ht' Hm' _.
    split; congruence.
  - intros Hnb. exists c. split; [done|]. by apply list_elem_of_filter.
Qed.

Lemma parseQAMessages_drops_blank_cards_witness :
  ∃ out,
    parseQAMessages sample_cards = Normal out
    ∧ length (messages out) = 2%nat.
Proof.
  destruct (parseQAMessages_drops_blank_cards sample_cards)
    as (out & Hout & Hperm & _).
  exists out. split; [done|].
  apply Permutation_length in Hperm. rewrite !length_fmap in Hperm.
  rewrite Hperm. reflexivity.
Defined.

(** * Sorting a column *)


(** * Ingesting nothing *)

(** C10. [addMessages] called with something that is not an array, or with
    an empty array, returns at once: the columns, the raw data log and
    [localStorage] are what they were, and no [setItem] call is made. *)
Theorem addMessages_nothing_to_add (st : state) :
  let not_an_array := addMessages st None in
  let empty_array := addMessages st (Some []) in
  (not_an_array = (st, Normal ()) ∧ empty_array = (st, Normal ()))
  ∧ (columns not_an_array.1 = columns st
     ∧ rawData not_an_array.1 = rawData st
     ∧ setItem_log (storage not_an_array.1) = setItem_log (storage st))
  ∧ (columns empty_array.1 = columns st
     ∧ rawData empty_array.1 = rawData st
     ∧ setItem_log (storage empty_array.1) = setItem_log (storage st)).
Proof. done. Qed.

(** * Loading an older schema *)

(** C7, as the code has it.  When the persisted board has a [columns]
    object without the key [ui_ux], and the raw-log blob is absent, empty
    or parses, mounting the hook puts all records of all persisted columns
    into [uncategorized] of the default five-column board, sorted by
    likes; the other four columns are the empty default ones, and
    [columnOrder] is the default order.  (The raw-log blob is parsed
    first, inside the same [try]: when it does not parse, the board is not
    read at all.) *)
Theorem load_migrates_old_schema (ls : localStorage) (doc : board_document)
    (old : board) :
  raw_data ls ≠ Some Unparsable →
  kanban_data ls = Some (Document doc) →
  doc_columns doc = Some old →
  own_property old "ui_ux" = None →
  ∃ migrated,
    migrated ≡ₚ all_items old
    ∧ stably_sorted item_rank (all_items old) migrated
    ∧ columns (mount ls)
      = [ ("uncategorized",
           {| col_id := Some "uncategorized";
              col_title := Some "Uncategorized";
              items := migrated |});
          ("ui_ux", empty_column "ui_ux" "UI/UX");
          ("library", empty_column "library" "Library");
          ("ai", empty_column "ai" "AI");
          ("headless", empty_column "headless" "Headless UI") ]%string
    ∧ columnOrder (mount ls) = default_columnOrder.
Proof.
  intros Hraw Hdata Hcols Hsentinel.
  exists (sort_ranked item_rank (all_items old)). split_and!.
  - apply sort_ranked_perm.
  - apply sort_ranked_stably_sorted.
  - unfold mount. rewrite columns_save_effect.
    unfold loadData, load_raw, initial_state. simpl.
    destruct (raw_data ls) as [[| |raw]|]; [|done|..];
      unfold load_board; cbn -[sortAllColumnsByLikes];
      rewrite Hdata, Hcols, Hsentinel, sortAllColumnsByLikes_value; done.
  - unfold mount. rewrite columnOrder_save_effect.
    unfold loadData, load_raw, initial_state. simpl.
    destruct (raw_data ls) as [[| |raw]|]; [|done|..];
      unfold load_board; cbn -[sortAllColumnsByLikes];
      rewrite Hdata, Hcols, Hsentinel, sortAllColumnsByLikes_value; done.
Qed.

Lemma load_migrates_old_schema_witness :
  ∃ migrated,
    migrated ≡ₚ all_items old_columns
    ∧ stably_sorted item_rank (all_items old_columns) migrated
    ∧ columns (mount old_storage)
      = [ ("uncategorized",
           {| col_id := Some "uncategorized";
              col_title := Some "Uncategorized";
              items := migrated |});
          ("ui_ux", empty_column "ui_ux" "UI/UX");
          ("library", empty_column "library" "Library");
          ("ai", empty_column "ai" "AI");
          ("headless", empty_column "headless" "Headless UI") ]%string
    ∧ columnOrder (mount old_storage) = default_columnOrder.
Proof.
  apply (load_migrates_old_schema old_storage
           {| doc_columns := Some old_columns;
              doc_columnOrder := ["todo"; "done"]%string |} old_columns);
    [done|reflexivity..].
Defined.

(** C7, the claim as it was stated fails: with the same old-schema board
    in [localStorage] and a raw-log blob that does not parse, no record of
    the stored board reaches [uncategorized]; the board is the empty
    default one, and the save effect overwrites the stored board with
    it. *)
Lemma load_leaves_old_schema_unread :
  kanban_data old_storage_bad_raw_log
  = Some (Document {| doc_columns := Some old_columns;
                      doc_columnOrder := ["todo"; "done"]%string |})
  ∧ own_property old_columns "ui_ux" = None
  ∧ all_items old_columns
    = [ sample_record 1 4 PUndefined; sample_record 2 1 PUndefined;
        sample_record 3 9 PUndefined ]
  ∧ columns (mount old_storage_bad_raw_log) = default_columns
  ∧ all_items (columns (mount old_storage_bad_raw_log)) = []
  ∧ kanban_data (storage (mount old_storage_bad_raw_log))
    = Some (Document {| doc_columns := Some default_columns;
                        doc_columnOrder := default_columnOrder |}).
Proof. split_and!; reflexivity. Qed.

(** * Columns stay sorted *)

Lemma stably_sorted_refl {A} (rank : A → option Z) l :
  descending rank l → stably_sorted rank l l.
Proof. by split. Qed.

(** C6, as the code has it.  If every column is sorted by likes,
    descending, then after [addMessages], [moveCard] or
    [updateCategoryForIds] has returned every column is again sorted by
    likes, descending (an [undefined] slot counting as below every item,
    as in the order [sortByLikes] produces).  Items of equal likes keep
    the order of the list that is sorted:
    - [addMessages] leaves the other columns as they are and stably sorts
      the old items of [uncategorized] followed by the new messages;
    - [moveCard] leaves the other columns as they are, leaves the remaining
      cards of the source column in their order, and stably sorts the
      destination column with the moved card inserted at the destination
      index: among cards of equal likes the moved card is where it was
      dropped, so that a drag can change the order of tied cards;
    - [updateCategoryForIds] stably sorts, in each column, the records
      routed to it, taken in the order in which the columns were read.
    Nothing is said of a call that throws. *)
Theorem operations_keep_columns_sorted (st : state) (op : operation)
    (st' : state) :
  board_sorted (columns st) →
  run st op = (st', Normal ()) →
  board_sorted (columns st')
  ∧ match op with
    | Ingest messages =>
        (∀ k, k ≠ "uncategorized"%string →
           own_property (columns st') k = own_property (columns st) k)
        ∧ ∀ unc unc',
            own_property (columns st) "uncategorized" = Some unc →
            own_property (columns st') "uncategorized" = Some unc' →
            stably_sorted item_rank
              (items unc ++ default [] messages) (items unc')
    | Move source destination =>
        ∀ d, destination = Some d →
          (∀ k, k ≠ droppableId source → k ≠ droppableId d →
             own_property (columns st') k = own_property (columns st) k)
          ∧ ∀ S removed_list rest D D',
              ¬ (droppableId source = droppableId d
                 ∧ index source = index d) →
              own_property (columns st) (droppableId source) = Some S →
              splice_remove (index source) (items S) = (removed_list, rest) →
              own_property (columns st) (droppableId d) = Some D →
              own_property (columns st') (droppableId d) = Some D' →
              stably_sorted item_rank
                (splice_insert (index d)
                   (default (Prim PUndefined) (head removed_list))
                   (if decide (droppableId source = droppableId d) then rest
                    else items D))
                (items D')
              ∧ (droppableId source ≠ droppableId d →
                 items <$> own_property (columns st') (droppableId source)
                 = Some rest)
    | ApplyClassification classificationResult =>
        ∀ k c',
          own_property (columns st') k = Some c' →
          stably_sorted item_rank
            (routed_to classificationResult (columns st) k
               (all_items (columns st)))
            (items c')
    end.
Proof.
  intros Hsorted Hrun. split.
  - destruct op as [messages|source destination|cr]; unfold run in Hrun.
    + pose proof (addMessages_sorted st messages Hsorted) as H.
      by rewrite Hrun in H.
    + pose proof (moveCard_sorted st source destination Hsorted) as H.
      by rewrite Hrun in H.
    + by apply updateCategoryForIds_Normal in Hrun as (_ & H & _).
  - destruct op as [messages|source destination|cr]; unfold run in Hrun.
    + apply addMessages_cases in Hrun
        as [(-> & _ & Hnone)|(msgs & -> & _ & [[? _]|(unc0 & _ & Hunc0 & Hcols)])];
        [|done|].
      * split; [done|]. intros unc unc' Hunc Hunc'.
        rewrite Hunc in Hunc'. injection Hunc' as <-.
        assert (default [] messages = []) as ->
          by by destruct Hnone as [-> | ->].
        rewrite app_nil_r. apply stably_sorted_refl.
        eapply Forall_forall in Hsorted; [exact Hsorted|].
        by eapply own_property_elem_of.
      * rewrite Hcols. split.
        { intros k Hk. by rewrite own_property_set_ne. }
        intros unc unc' Hunc Hunc'.
        rewrite Hunc in Hunc0. injection Hunc0 as <-.
        rewrite own_property_set_eq in Hunc'. injection Hunc' as <-.
        apply sort_ranked_stably_sorted.
    + intros d ->. split.
      * intros k Hks Hkd. apply moveCard_cases in Hrun
          as [->|(d0 & S & rl & rest & [= <-] & _ & HS & Hsp & Hcases)];
          [done|].
        simpl in Hcases.
        destruct Hcases as [[_ ->]|(_ & D & _ & ->)];
          by rewrite ?own_property_set_ne.
      * intros S removed_list rest D D' Hmoved HS Hsp HD HD'.
        rewrite (moveCard_moves _ _ _ S D removed_list rest) in Hrun by done.
        injection Hrun as <-. rewrite columns_setColumns in *.
        destruct (decide _) as [Heq|Hne]; split; try done.
        -- rewrite own_property_set_eq in HD'. injection HD' as <-.
           apply sort_ranked_stably_sorted.
        -- rewrite own_property_set_eq in HD'. injection HD' as <-.
           apply sort_ranked_stably_sorted.
        -- intros _. rewrite own_property_set_ne by done.
           by rewrite own_property_set_eq.
    + intros k c' Hc'.
      apply updateCategoryForIds_Normal in Hrun as (_ & _ & Hcols & _).
      rewrite Hcols in Hc'.
      destruct (own_property (columns st) k) as [c|]; [|done].
      injection Hc' as <-. apply sort_ranked_stably_sorted.
Qed.

Lemma operations_keep_columns_sorted_witness :
  board_sorted (columns scraped_state)
  ∧ (run scraped_state sample_move).2 = Normal ()
  ∧ board_sorted (columns (run scraped_state sample_move).1).
Proof.
  assert (board_sorted (columns scraped_state)) as Hsorted.
  { unfold board_sorted. vm_compute. repeat constructor. }
  assert (run scraped_state sample_move
          = ((run scraped_state sample_move).1, Normal ())) as Hrun.
  { vm_compute. reflexivity. }
  split_and!; [done|by rewrite Hrun|].
  exact (proj1 (operations_keep_columns_sorted
                  scraped_state sample_move _ Hsorted Hrun)).
Defined.

(** C6, the claim as it was stated fails twice.  A classification that
    throws leaves a sorted board unsorted: on [spread_state] the pass puts
    message 1 (5 likes) and then message 2 (9 likes) into [uncategorized]
    and throws at message 3.  And a drag that returns changes the order of
    two cards of equal likes: on [scraped_state] messages 1 and 2, both
    with 5 likes, change places. *)
Lemma operations_can_leave_columns_unsorted_or_ties_swapped :
  (board_sorted (columns spread_state)
   ∧ (run spread_state (ApplyClassification late_inherited_category)).2
     = Throw TypeError
   ∧ likesOf <$> all_items (columns (run spread_state
                                      (ApplyClassification
                                         late_inherited_category)).1)
     = [5; 9]
   ∧ ¬ board_sorted (columns (run spread_state
                                (ApplyClassification
                                   late_inherited_category)).1))
  ∧ (board_sorted (columns scraped_state)
     ∧ (run scraped_state tie_drag).2 = Normal ()
     ∧ items <$> own_property (columns scraped_state) "uncategorized"
       = Some [ sample_record 1 5 PUndefined; sample_record 2 5 PUndefined;
                sample_record 3 3 PUndefined ]
     ∧ items <$> own_property (columns (run scraped_state tie_drag).1)
                   "uncategorized"
       = Some [ sample_record 2 5 PUndefined; sample_record 1 5 PUndefined;
                sample_record 3 3 PUndefined ]
     ∧ of_rank item_rank (Some 5)
         (all_items (columns (run scraped_state tie_drag).1))
       ≠ of_rank item_rank (Some 5) (all_items (columns scraped_state))).
Proof.
  split; split_and!.
  - unfold board_sorted. vm_compute. repeat constructor.
  - reflexivity.
  - reflexivity.
  - unfold board_sorted. intros Hsorted.
    apply Forall_cons in Hsorted as [Hunc _].
    vm_compute in Hunc. apply StronglySorted_inv in Hunc as [_ Hhead].
    apply Forall_cons in Hhead as [Hrank _]. discriminate Hrank.
  - unfold board_sorted. vm_compute. repeat constructor.
  - reflexivity.
  - reflexivity.
  - reflexivity.
  - vm_compute. intros Heq. discriminate Heq.
Qed.

(** * Ids on the board *)

Lemma NoDup_submseteq_inv {A} (l k : list A) : l ⊆+ k → NoDup k → NoDup l.
Proof.
  intros (k' & ->)%submseteq_Permutation [? _]%NoDup_app. done.
Qed.

(** C2, as the code has it.  [moveCard] and [updateCategoryForIds] keep the
    ids on the board unique, however they end.  [addMessages] does not look
    at ids: it keeps them unique when the ids of the new messages are
    distinct from each other and from the ids on the board. *)
Theorem unique_ids_preserved (st : state) :
  unique_ids (columns st) →
  (∀ source destination,
      unique_ids (columns (moveCard st source destination).1))
  ∧ (∀ classificationResult,
      unique_ids (columns (updateCategoryForIds st classificationResult).1))
  ∧ (∀ messages,
      NoDup (board_ids (columns st) ++ omap record_id (default [] messages)) →
      unique_ids (columns (addMessages st messages).1)).
Proof.
  unfold unique_ids. intros Hunique. split_and!.
  - intros source destination. by rewrite moveCard_ids.
  - intros cr. eapply NoDup_submseteq_inv; [apply updateCategoryForIds_ids|done].
  - intros messages Hfresh.
    destruct (addMessages st messages) as [st' c] eqn:Hadd. simpl.
    destruct c as [[]|e].
    + apply addMessages_items in Hadd. unfold board_ids in *.
      by rewrite Hadd, omap_app.
    + apply addMessages_cases in Hadd
        as [(_ & ? & _)|(msgs & _ & _ & [[_ ->]|(unc & ? & _)])]; done.
Qed.

Lemma unique_ids_preserved_witness :
  unique_ids (columns scraped_state)
  ∧ unique_ids (columns (updateCategoryForIds scraped_state first_pass).1).
Proof.
  assert (unique_ids (columns scraped_state)) as Hunique.
  { unfold unique_ids. apply (bool_decide_unpack _). vm_compute. exact I. }
  split; [done|].
  apply (proj1 (proj2 (unique_ids_preserved scraped_state Hunique))).
Defined.

(** C2 as stated fails on [addMessages]: a message scraped twice is on the
    board twice, under the same id. *)
Lemma ingest_repeats_ids :
  unique_ids (columns (mount empty_storage))
  ∧ unique_ids (columns ingested_once)
  ∧ (run ingested_once (Ingest one_message)).2 = Normal ()
  ∧ board_ids (columns ingested_twice) = [PNum 1; PNum 1]
  ∧ ¬ unique_ids (columns ingested_twice).
Proof.
  split_and!.
  - unfold unique_ids. apply (bool_decide_unpack _). vm_compute. exact I.
  - unfold unique_ids. apply (bool_decide_unpack _). vm_compute. exact I.
  - reflexivity.
  - reflexivity.
  - unfold unique_ids.
    replace (board_ids _) with [PNum 1; PNum 1] by reflexivity.
    intros [Hnotin _]%NoDup_cons. apply Hnotin. left.
Qed.

(** * Malformed classification entries *)

(** C4, as the code has it.  When the call returns, an entry that lacks
    fields still classifies.  When the entry has no [category], the record
    goes to [uncategorized] and its sentiment is overwritten with the
    entry's [sentiment] ([undefined] when that is missing too).  When the
    entry has no [sentiment] but names, in whatever letter case, a column
    of the board, the record goes to that column and its sentiment becomes
    [undefined].  (When another entry makes the loop throw, the call does
    not return and places no further record.) *)
Theorem malformed_entry_still_classifies (st : state)
    (classificationResult : gmap string entry) (st' : state) (r : record)
    (category sentiment : prim) :
  updateCategoryForIds st classificationResult = (st', Normal ()) →
  Obj r ∈ all_items (columns st) →
  classificationResult !! to_property_key (r_id r)
    = Some (EntryObject category sentiment) →
  (category = PUndefined →
     ∃ c', own_property (columns st') "uncategorized" = Some c'
           ∧ Obj (set_r_sentiment r sentiment) ∈ items c')
  ∧ (sentiment = PUndefined →
     ∀ name, category = PStr name → name ≠ ""%string →
       is_Some (own_property (columns st) (lower name)) →
       ∃ c', own_property (columns st') (lower name) = Some c'
             ∧ Obj (set_r_sentiment r PUndefined) ∈ items c').
Proof.
  intros Hupdate Hr Hentry.
  destruct (updateCategoryForIds_routes _ _ _ _ Hupdate Hr)
    as (targetCat & it' & c' & Hc & Hown & Hin).
  unfold classify_item, get_result in Hc. simpl in Hc. rewrite Hentry in Hc.
  simpl in Hc. split.
  - intros ->. simpl in Hc.
    destruct (slot_truthy _); injection Hc as <- <-; eauto.
  - intros -> name -> Hname [c Hc0]. simpl in Hc.
    apply String.eqb_neq in Hname. rewrite Hname in Hc. simpl in Hc.
    unfold get_property in Hc. rewrite Hc0 in Hc. simpl in Hc.
    injection Hc as <- <-. eauto.
Qed.

Lemma malformed_entry_still_classifies_witness :
  Obj (set_r_sentiment
         {| r_id := PNum 1; r_timestamp := PStr "09 December 2025 19:07";
            r_message := PStr "hello"; r_likes := PNum 5;
            r_sentiment := PStr "positive" |} (PStr "negative"))
  ∈ all_items (columns (updateCategoryForIds classified_state
                          entry_without_category).1).
Proof.
  assert (updateCategoryForIds classified_state entry_without_category
          = ((updateCategoryForIds classified_state entry_without_category).1,
             Normal ())) as Hupdate by (vm_compute; reflexivity).
  destruct (proj1 (malformed_entry_still_classifies
              classified_state entry_without_category _
              {| r_id := PNum 1; r_timestamp := PStr "09 December 2025 19:07";
                 r_message := PStr "hello"; r_likes := PNum 5;
                 r_sentiment := PStr "positive" |}
              PUndefined (PStr "negative") Hupdate
              ltac:(vm_compute; right; right; left)
              ltac:(vm_compute; reflexivity)) eq_refl)
    as (c' & Hown & Hin).
  unfold all_items. apply list_elem_of_In, in_flat_map.
  exists c'. split; apply list_elem_of_In; [|done].
  by eapply own_property_elem_of.
Defined.

(** C4 as stated fails.  Message 1 sits in [ai] with sentiment [positive].
    An entry for it without [sentiment] leaves it in [ai] and erases the
    sentiment; an entry without [category] moves it to [uncategorized] and
    makes the sentiment [negative]. *)
Lemma malformed_entry_is_not_ignored :
  sample_record 1 5 (PStr "positive") ∈ all_items (columns classified_state)
  ∧ (updateCategoryForIds classified_state entry_without_sentiment).2 = Normal ()
  ∧ items <$> own_property
                (columns (updateCategoryForIds classified_state
                            entry_without_sentiment).1) "uncategorized"
    = Some [sample_record 2 5 PUndefined; sample_record 3 3 PUndefined]
  ∧ items <$> own_property
                (columns (updateCategoryForIds classified_state
                            entry_without_sentiment).1) "ai"
    = Some [sample_record 1 5 PUndefined]
  ∧ (updateCategoryForIds classified_state entry_without_category).2 = Normal ()
  ∧ items <$> own_property
                (columns (updateCategoryForIds classified_state
                            entry_without_category).1) "uncategorized"
    = Some [sample_record 2 5 PUndefined; sample_record 1 5 (PStr "negative");
            sample_record 3 3 PUndefined]
  ∧ (sample_record 1 5 (PStr "positive")
     ∉ all_items (columns (updateCategoryForIds classified_state
                             entry_without_sentiment).1))
  ∧ (sample_record 1 5 (PStr "positive")
     ∉ all_items (columns (updateCategoryForIds classified_state
                             entry_without_category).1)).
Proof.
  split_and!; try reflexivity.
  - vm_compute. right; right; left.
  - apply (bool_decide_unpack _). vm_compute. exact I.
  - apply (bool_decide_unpack _). vm_compute. exact I.
Qed.

(** * Records lost by a classification that throws *)

(** C1 fails on the code.  A classification that names the category
    [constructor] makes [updateCategoryForIds] throw in the middle of its
    loop: [newColumns["constructor"]] is the inherited member of
    [Object.prototype], which is truthy and has no [items].  The columns
    were emptied before the loop, so messages 2 and 3 are gone from the
    board. *)
Theorem classification_throws_and_drops_records :
  all_items (columns scraped_state)
  = [sample_record 1 5 PUndefined; sample_record 2 5 PUndefined;
     sample_record 3 3 PUndefined]
  ∧ (updateCategoryForIds scraped_state inherited_category).2 = Throw TypeError
  ∧ all_items (columns (updateCategoryForIds scraped_state inherited_category).1)
    = [sample_record 1 5 PUndefined]
  ∧ ¬ (all_items (columns (updateCategoryForIds scraped_state
                             inherited_category).1)
       ≡ₚ all_items (columns scraped_state)).
Proof.
  split_and!; try reflexivity.
  replace (all_items (columns (updateCategoryForIds _ _).1))
    with [sample_record 1 5 PUndefined] by reflexivity.
  replace (all_items (columns scraped_state))
    with [sample_record 1 5 PUndefined; sample_record 2 5 PUndefined;
          sample_record 3 3 PUndefined] by reflexivity.
  intros Hperm%Permutation_length. done.
Qed.

(** * A move from an index the source column does not have *)

(** C3 fails on the code for the source index.  [uncategorized] holds three
    cards; moving from its index 3 takes nothing out and inserts
    [undefined] into the destination column. *)
Theorem moveCard_out_of_bounds_changes_board :
  (length <$> (items <$> own_property (columns scraped_state) "uncategorized"))
  = Some 3%nat
  ∧ (moveCard scraped_state stray_source (Some stray_destination)).2 = Normal ()
  ∧ items <$> own_property (columns scraped_state) "ui_ux" = Some []
  ∧ items <$> own_property
                (columns (moveCard scraped_state stray_source
                            (Some stray_destination)).1) "ui_ux"
    = Some [Prim PUndefined]
  ∧ columns (moveCard scraped_state stray_source (Some stray_destination)).1
    ≠ columns scraped_state.
Proof.
  split_and!; try reflexivity.
  intros Heq.
  assert (items <$> own_property
            (columns (moveCard scraped_state stray_source
                        (Some stray_destination)).1) "ui_ux"
          = Some [Prim PUndefined]) as Hnew by reflexivity.
  rewrite Heq in Hnew. discriminate Hnew.
Qed.

(** * Mounting, saving and reloading *)

Lemma with_items_items c : with_items c (items c) = c.
Proof. by destruct c. Qed.

Lemma board_sorted_default : board_sorted default_columns.
Proof. repeat constructor. Qed.

(** What the board is after mounting, by what [localStorage] holds. *)
Lemma mount_columns ls :
  columns (mount ls)
  = match raw_data ls, kanban_data ls with
    | Some Unparsable, _ => default_columns
    | _, Some (Document doc) =>
        match doc_columns doc with
        | Some b =>
            (λ kc, (kc.1, sorted_column kc.2)) <$>
              (match own_property b "ui_ux" with
               | Some _ => b
               | None =>
                   set_property "uncategorized"
                     (with_items (empty_column "uncategorized" "Uncategorized")
                        (all_items b))
                     default_columns
               end)
        | None => default_columns
        end
    | _, _ => default_columns
    end.
Proof.
  unfold mount. rewrite columns_save_effect.
  unfold loadData, load_raw, initial_state. simpl.
  destruct (raw_data ls) as [[| |raw]|]; [|done|..];
    unfold load_board; cbn -[sortAllColumnsByLikes];
    (destruct (kanban_data ls) as [[| |doc]|]; [done|done| |done]);
    (destruct (doc_columns doc) as [b|]; [|done]);
    (destruct (own_property b "ui_ux"));
    by rewrite sortAllColumnsByLikes_value.
Qed.

Lemma mount_columnOrder ls :
  columnOrder (mount ls)
  = match raw_data ls, kanban_data ls with
    | Some Unparsable, _ => default_columnOrder
    | _, Some (Document doc) =>
        match doc_columns doc with
        | Some b =>
            match own_property b "ui_ux" with
            | Some _ => doc_columnOrder doc
            | None => default_columnOrder
            end
        | None => default_columnOrder
        end
    | _, _ => default_columnOrder
    end.
Proof.
  unfold mount. rewrite columnOrder_save_effect.
  unfold loadData, load_raw, initial_state. simpl.
  destruct (raw_data ls) as [[| |raw]|]; [|done|..];
    unfold load_board; cbn -[sortAllColumnsByLikes];
    (destruct (kanban_data ls) as [[| |doc]|]; [done|done| |done]);
    (destruct (doc_columns doc) as [b|]; [|done]);
    (destruct (own_property b "ui_ux"));
    by rewrite sortAllColumnsByLikes_value.
Qed.

Lemma mount_rawData ls :
  rawData (mount ls)
  = match raw_data ls with
    | Some (Document l) => l
    | _ => []
    end.
Proof.
  unfold mount, save_effect, loadData, load_raw, initial_state. simpl.
  destruct (raw_data ls) as [[| |raw]|]; [|done|..];
    unfold load_board; cbn -[sortAllColumnsByLikes];
    (destruct (kanban_data ls) as [[| |doc]|]; [done|done| |done]);
    (destruct (doc_columns doc) as [b|]; [|done]);
    (destruct (own_property b "ui_ux"));
    by rewrite sortAllColumnsByLikes_value.
Qed.

Lemma loading_mount ls : loading (mount ls) = false.
Proof.
  unfold mount, save_effect, loadData.
  destruct (load_raw (initial_state ls)) as [st1 c1]. done.
Qed.

Lemma persisted_save_effect st : loading st = false → persisted (save_effect st).
Proof. intros Hl. unfold persisted, save_effect. by rewrite Hl. Qed.

Lemma persisted_mount ls : persisted (mount ls).
Proof.
  unfold mount. apply persisted_save_effect.
  unfold loadData. by destruct (load_raw (initial_state ls)).
Qed.

Lemma mount_sorted ls : board_sorted (columns (mount ls)).
Proof.
  rewrite mount_columns.
  destruct (raw_data ls) as [[| |raw]|]; [|apply board_sorted_default|..];
    (destruct (kanban_data ls) as [[| |doc]|];
       [apply board_sorted_default|apply board_sorted_default|
        |apply board_sorted_default]);
    (destruct (doc_columns doc) as [b|]; [|apply board_sorted_default]);
    apply board_sorted_sortAll.
Qed.

(** ** The state an operation leaves behind *)

Lemma moveCard_state st source destination st' c :
  moveCard st source destination = (st', c) →
  st' = st ∨ ∃ b, st' = setColumns st b.
Proof.
  unfold moveCard. intros H.
  repeat case_match; simplify_eq; eauto.
Qed.

Lemma updateCategoryForIds_state st cr st' :
  updateCategoryForIds st cr = (st', Normal ()) →
  ∃ b, st' = setColumns st b.
Proof.
  unfold updateCategoryForIds. intros H.
  repeat case_match; simplify_eq; eauto.
Qed.

Lemma addMessages_state st messages st' :
  addMessages st messages = (st', Normal ()) →
  st' = st
  ∨ ∃ msgs b, messages = Some msgs ∧ msgs ≠ []
      ∧ st' = setColumns (write_raw (setRawData st (rawData st ++ msgs))
                            (rawData st ++ msgs)) b.
Proof.
  unfold addMessages. intros H.
  destruct messages as [[|m msgs]|]; simplify_eq; eauto.
  right. exists (m :: msgs).
  cbn -[sortByLikes] in H.
  destruct (own_property (columns st) "uncategorized"); [|done].
  destruct (sortByLikes _); simplify_eq. eauto.
Qed.

Lemma run_state st op st' :
  run st op = (st', Normal ()) →
  st' = st
  ∨ ∃ st0 b, st' = setColumns st0 b
      ∧ loading st0 = loading st ∧ columnOrder st0 = columnOrder st.
Proof.
  destruct op as [messages|source destination|cr]; simpl; intros H.
  - apply addMessages_state in H as [->|(msgs & b & _ & _ & ->)]; eauto.
    right. by eexists _, _.
  - apply moveCard_state in H as [->|[b ->]]; eauto.
    right. by eexists _, _.
  - apply updateCategoryForIds_state in H as [b ->].
    right. by eexists _, _.
Qed.

(** ** Columns are never added, removed, renamed or reordered *)

Lemma same_frame_refl b : same_frame b b.
Proof. apply Forall_Forall2_diag, Forall_forall. done. Qed.

Lemma same_frame_trans b1 b2 b3 :
  same_frame b1 b2 → same_frame b2 b3 → same_frame b1 b3.
Proof.
  unfold same_frame. intros H12. revert b3.
  induction H12 as [|x y l l' (Hk & Hid & Ht) _ IH]; intros b3 H23;
    inversion H23 as [|? z ? ? (Hk' & Hid' & Ht')]; subst; constructor;
    [|by apply IH].
  split_and!; congruence.
Qed.

Lemma same_frame_keys b b' : same_frame b b' → keys b' = keys b.
Proof.
  induction 1 as [|x y l l' (Hk & _) _ IH]; [done|].
  unfold keys in *. rewrite !fmap_cons. by f_equal.
Qed.

Lemma same_frame_set_property b k c c' :
  own_property b k = Some c →
  col_id c' = col_id c → col_title c' = col_title c →
  same_frame b (set_property k c' b).
Proof.
  intros Hown Hid Htitle.
  induction b as [|[k0 c0] b IH]; [done|].
  simpl in *. destruct (String.eqb k0 k) eqn:Hk.
  - apply String.eqb_eq in Hk as ->. simplify_eq.
    constructor; [done|apply same_frame_refl].
  - constructor; [done|by apply IH].
Qed.

Lemma same_frame_fmap (f : column → column) b :
  (∀ c, col_id (f c) = col_id c ∧ col_title (f c) = col_title c) →
  same_frame b ((λ kc, (kc.1, f kc.2)) <$> b).
Proof.
  intros Hf. induction b as [|[k c] b IH]; [constructor|].
  rewrite fmap_cons. constructor; [|done].
  simpl. destruct (Hf c). done.
Qed.

Lemma same_frame_own_property b b' k c :
  same_frame b b' → own_property b k = Some c →
  ∃ c', own_property b' k = Some c'
        ∧ col_id c' = col_id c ∧ col_title c' = col_title c.
Proof.
  induction 1 as [|[k1 c1] [k2 c2] l l' (Hk & Hid & Ht) _ IH]; [done|].
  simpl in *. subst k2. destruct (String.eqb k1 k); [|done].
  intros [= <-]. eauto.
Qed.

Lemma place_items_frame cr l b b' c :
  place_items cr l b = (b', c) → same_frame b b'.
Proof.
  revert b. induction l as [|it l IH]; intros b; simpl.
  - intros [= <- _]. apply same_frame_refl.
  - destruct (_ ≫= _) as [b1|e] eqn:Hround.
    + intros Hrest. apply place_round in Hround
        as (targetCat & it' & c0 & _ & Hown & ->).
      eapply same_frame_trans; [|by apply IH].
      by apply (same_frame_set_property _ targetCat c0).
    + intros [= <- _]. apply same_frame_refl.
Qed.

Lemma updateCategoryForIds_frame st cr :
  same_frame (columns st) (columns (updateCategoryForIds st cr).1).
Proof.
  unfold updateCategoryForIds.
  destruct (place_items cr (all_items (columns st)) (clear_columns (columns st)))
    as [b' c] eqn:Hplace.
  apply place_items_frame in Hplace.
  assert (same_frame (columns st) b') as Hb'.
  { eapply same_frame_trans; [|done].
    unfold clear_columns. by apply (same_frame_fmap (λ c, with_items c [])). }
  destruct c as [[]|e]; [|done].
  rewrite sortAllColumnsByLikes_value. cbn [fst].
  rewrite columns_setColumns.
  eapply same_frame_trans; [done|].
  by apply (same_frame_fmap sorted_column).
Qed.

Lemma moveCard_frame st source destination :
  same_frame (columns st) (columns (moveCard st source destination).1).
Proof.
  destruct (moveCard st source destination) as [st' c] eqn:Hmove. simpl.
  apply moveCard_cases in Hmove
    as [->|(d & S & rl & rest & -> & -> & HS & Hsp & Hcases)];
    [apply same_frame_refl|].
  simpl in Hcases. destruct Hcases as [[Heq ->]|(Hne & D & HD & ->)].
  - rewrite <-Heq.
    by apply (same_frame_set_property _ (droppableId source) S).
  - eapply same_frame_trans.
    + by apply (same_frame_set_property _ (droppableId source) S
                  (with_items S rest)).
    + apply (same_frame_set_property _ (droppableId d) D); [|done..].
      by rewrite own_property_set_ne.
Qed.

Lemma addMessages_frame st messages :
  same_frame (columns st) (columns (addMessages st messages).1).
Proof.
  destruct (addMessages st messages) as [st' c] eqn:Hadd. simpl.
  apply addMessages_cases in Hadd
    as [(-> & _)|(msgs & _ & _ & [[_ ->]|(unc & _ & Hunc & ->)])];
    [apply same_frame_refl..|].
  by apply (same_frame_set_property _ "uncategorized" unc).
Qed.

Lemma run_frame st op : same_frame (columns st) (columns (run st op).1).
Proof.
  destruct op; simpl;
    [apply addMessages_frame|apply moveCard_frame|apply updateCategoryForIds_frame].
Qed.

Lemma run_columnOrder st op : columnOrder (run st op).1 = columnOrder st.
Proof.
  destruct op as [messages|source destination|cr]; simpl.
  - unfold addMessages.
    destruct messages as [[|m msgs]|]; [done| |done].
    cbn -[sortByLikes].
    destruct (own_property (columns st) "uncategorized"); [|done].
    destruct (sortByLikes _); [|done].
    cbn [fst]. unfold setColumns. by rewrite columnOrder_save_effect.
  - destruct (moveCard st source destination) as [st' c] eqn:Hmove.
    apply moveCard_state in Hmove as [->|[b ->]]; [done|].
    cbn [fst]. unfold setColumns. by rewrite columnOrder_save_effect.
  - unfold updateCategoryForIds.
    destruct (place_items _ _ _) as [b' [[]|e]]; [|done].
    destruct (sortAllColumnsByLikes b'); [|done].
    cbn [fst]. unfold setColumns. by rewrite columnOrder_save_effect.
Qed.

(** ** What holds in every state the hook reaches *)

Lemma run_sorted st op st' :
  board_sorted (columns st) → run st op = (st', Normal ()) →
  board_sorted (columns st').
Proof.
  intros Hsorted Hrun.
  destruct op as [messages|source destination|cr]; simpl in Hrun.
  - pose proof (addMessages_sorted st messages Hsorted) as H.
    by rewrite Hrun in H.
  - pose proof (moveCard_sorted st source destination Hsorted) as H.
    by rewrite Hrun in H.
  - by apply updateCategoryForIds_Normal in Hrun as (_ & ? & _).
Qed.

Lemma run_saved st op st' :
  loading st = false → persisted st → run st op = (st', Normal ()) →
  loading st' = false ∧ persisted st'.
Proof.
  intros Hloading Hp Hrun.
  apply run_state in Hrun as [->|(st0 & b & -> & Hl & _)]; [done|].
  rewrite Hloading in Hl. split; [|by apply persisted_save_effect].
  unfold setColumns, save_effect, with_columns. simpl. by rewrite Hl.
Qed.

Lemma mount_ui_ux ls : is_Some (own_property (columns (mount ls)) "ui_ux").
Proof.
  rewrite mount_columns.
  destruct (raw_data ls) as [[| |raw]|]; [|by eexists|..];
    (destruct (kanban_data ls) as [[| |doc]|]; [by eexists|by eexists| |by eexists]);
    (destruct (doc_columns doc) as [b|]; [|by eexists]);
    rewrite (own_property_fmap sorted_column);
    destruct (own_property b "ui_ux") as [c|] eqn:Hc;
    try rewrite Hc; by eexists.
Qed.

Lemma reachable_invariant st :
  reachable st →
  loading st = false
  ∧ persisted st
  ∧ board_sorted (columns st)
  ∧ is_Some (own_property (columns st) "ui_ux").
Proof.
  induction 1 as [ls|st op st' _ (IHl & IHp & IHs & IHu) Hrun].
  - split_and!; [apply loading_mount|apply persisted_mount|apply mount_sorted|
                 apply mount_ui_ux].
  - destruct (run_saved _ _ _ IHl IHp Hrun) as [Hl Hp].
    split_and!; [done..|by eapply run_sorted|].
    apply own_property_Some_keys.
    pose proof (same_frame_keys _ _ (run_frame st op)) as Hk.
    rewrite Hrun in Hk. simpl in Hk. rewrite Hk.
    by apply own_property_Some_keys.
Qed.

(** ** Reloading what was saved *)

Lemma sort_ranked_sorted {A} (rank : A → option Z) l :
  descending rank l → sort_ranked rank l = l.
Proof.
  intros Hl. symmetry. by apply stably_sorted_unique, stably_sorted_refl.
Qed.

Lemma sorted_board_fixed b :
  board_sorted b → (λ kc, (kc.1, sorted_column kc.2)) <$> b = b.
Proof.
  unfold board_sorted, values.
  induction b as [|[k c] b IH]; [done|].
  rewrite !fmap_cons. intros [Hc Hb]%Forall_cons.
  rewrite IH by done. f_equal. simpl. unfold sorted_column.
  by rewrite sort_ranked_sorted, with_items_items.
Qed.

Lemma json_item_defined it : is_undefined it = false → json_item it = it.
Proof. unfold json_item. by intros ->. Qed.

Lemma json_board_defined b :
  Forall (λ it, is_undefined it = false) (all_items b) → json_board b = b.
Proof.
  unfold json_board.
  induction b as [|[k c] b IH]; [done|].
  rewrite all_items_cons, fmap_cons. intros [Hc Hb]%Forall_app.
  rewrite IH by done. f_equal. simpl. f_equal.
  assert (json_item <$> items c = items c) as ->; [|apply with_items_items].
  rewrite <-(list_fmap_id (items c)) at 2.
  apply list_fmap_ext. intros i it Hit. apply json_item_defined.
  eapply Forall_lookup_1 in Hc; done.
Qed.

Lemma reload_persisted st :
  persisted st →
  raw_data (storage st) ≠ Some Unparsable →
  is_Some (own_property (columns st) "ui_ux") →
  board_sorted (columns st) →
  Forall (λ it, is_undefined it = false) (all_items (columns st)) →
  columns (mount (storage st)) = columns st
  ∧ columnOrder (mount (storage st)) = columnOrder st.
Proof.
  intros Hp Hraw [c Hui] Hsorted Hdef.
  rewrite mount_columns, mount_columnOrder, Hp. simpl.
  rewrite json_board_defined, Hui by done.
  rewrite sorted_board_fixed by done.
  by destruct (raw_data (storage st)) as [[| |raw]|].
Qed.

(** X1. In every state the hook reaches (mounting from whatever
    [localStorage] holds, then any operations that return), every column
    is sorted by likes, descending. *)
Theorem reachable_board_sorted (st : state) :
  reachable st → board_sorted (columns st).
Proof.
  induction 1 as [ls|st op st' _ IH Hrun].
  - apply mount_sorted.
  - by apply (run_sorted st op).
Qed.

Lemma reachable_board_sorted_witness :
  board_sorted (columns classified_state).
Proof.
  apply reachable_board_sorted.
  apply (reachable_run scraped_state (ApplyClassification first_pass)).
  - apply (reachable_run (mount empty_storage)
             (Ingest (Some [ sample_record 1 5 PUndefined;
                             sample_record 2 5 PUndefined;
                             sample_record 3 3 PUndefined ]))).
    + apply reachable_mount.
    + reflexivity.
  - reflexivity.
Defined.

(** X2. In every state the hook reaches through calls that return
    (mounting from whatever [localStorage] holds, then any operations that
    return), loading is over and the board blob in [localStorage] is the
    JSON of the board and the column order in memory.  (Not so after a
    call that throws: that one leaves the board changed and unsaved.) *)
Theorem reachable_persisted (st : state) :
  reachable st →
  loading st = false
  ∧ kanban_data (storage st)
    = Some (Document {| doc_columns := Some (json_board (columns st));
                        doc_columnOrder := columnOrder st |}).
Proof.
  induction 1 as [ls|st op st' _ [IHl IHp] Hrun].
  - split; [apply loading_mount|apply persisted_mount].
  - by apply (run_saved st op).
Qed.

Lemma reachable_persisted_witness :
  loading scraped_state = false
  ∧ kanban_data (storage scraped_state)
    = Some (Document {| doc_columns := Some (json_board (columns scraped_state));
                        doc_columnOrder := columnOrder scraped_state |}).
Proof.
  apply reachable_persisted.
  apply (reachable_run (mount empty_storage)
           (Ingest (Some [ sample_record 1 5 PUndefined;
                           sample_record 2 5 PUndefined;
                           sample_record 3 3 PUndefined ]))).
  - apply reachable_mount.
  - reflexivity.
Defined.

(** X3. No operation, however it ends, adds, removes, renames or reorders
    columns: the keys of [columns] and their order, the [id] and [title]
    of every column and [columnOrder] are what they were. *)
Theorem operations_keep_the_columns (st : state) (op : operation) :
  keys (columns (run st op).1) = keys (columns st)
  ∧ columnOrder (run st op).1 = columnOrder st
  ∧ same_frame (columns st) (columns (run st op).1)
  ∧ ∀ k c, own_property (columns st) k = Some c →
      ∃ c', own_property (columns (run st op).1) k = Some c'
            ∧ col_id c' = col_id c ∧ col_title c' = col_title c.
Proof.
  split_and!.
  - apply same_frame_keys, run_frame.
  - apply run_columnOrder.
  - apply run_frame.
  - intros k c. apply same_frame_own_property, run_frame.
Qed.

(** X4. When either blob in [localStorage] is a non-empty text that does
    not parse, mounting shows the empty default board and overwrites the
    stored board with it; in particular such a raw-log blob makes the hook
    discard a stored board that parses.  (An empty blob is not parsed: it
    counts as no blob.) *)
Theorem mount_discards_board_on_unparsable_blob (ls : localStorage) :
  raw_data ls = Some Unparsable ∨ kanban_data ls = Some Unparsable →
  columns (mount ls) = default_columns
  ∧ columnOrder (mount ls) = default_columnOrder
  ∧ kanban_data (storage (mount ls))
    = Some (Document {| doc_columns := Some default_columns;
                        doc_columnOrder := default_columnOrder |}).
Proof.
  intros Hbad.
  assert (columns (mount ls) = default_columns
          ∧ columnOrder (mount ls) = default_columnOrder) as [Hc Ho].
  { rewrite mount_columns, mount_columnOrder.
    destruct Hbad as [-> | ->]; [done|].
    by destruct (raw_data ls) as [[| |raw]|]. }
  split_and!; [done..|].
  pose proof (persisted_mount ls) as Hp. unfold persisted in Hp.
  by rewrite Hp, Hc, Ho.
Qed.

Lemma mount_discards_board_on_unparsable_blob_witness :
  all_items (columns (mount (storage scraped_state)))
  = [sample_record 1 5 PUndefined; sample_record 2 5 PUndefined;
     sample_record 3 3 PUndefined]
  ∧ columns (mount corrupt_raw_storage) = default_columns
  ∧ kanban_data (storage (mount corrupt_raw_storage))
    = Some (Document {| doc_columns := Some default_columns;
                        doc_columnOrder := default_columnOrder |}).
Proof.
  split; [reflexivity|].
  pose proof (mount_discards_board_on_unparsable_blob corrupt_raw_storage
                (or_introl eq_refl)) as (Hc & _ & Hs).
  exact (conj Hc Hs).
Defined.

(** X5. When the stored board has the key [ui_ux] and no key
    [__proto__] (and the raw-log blob, if there is one, is empty or
    parses), mounting shows the stored columns under their keys, in their
    order and with their [id] and [title], each with its stored items
    sorted by likes (ties in stored order), takes [columnOrder] from the
    blob, and takes the raw log from its blob. *)
Theorem mount_loads_saved_board (ls : localStorage) (doc : board_document)
    (saved : board) :
  raw_data ls ≠ Some Unparsable →
  kanban_data ls = Some (Document doc) →
  doc_columns doc = Some saved →
  is_Some (own_property saved "ui_ux") →
  ("__proto__"%string ∉ keys saved) →
  keys (columns (mount ls)) = keys saved
  ∧ columnOrder (mount ls) = doc_columnOrder doc
  ∧ (∀ k c, own_property saved k = Some c →
       ∃ c', own_property (columns (mount ls)) k = Some c'
             ∧ col_id c' = col_id c ∧ col_title c' = col_title c
             ∧ items c' ≡ₚ items c
             ∧ stably_sorted item_rank (items c) (items c'))
  ∧ rawData (mount ls) = match raw_data ls with
                         | Some (Document l) => l
                         | _ => []
                         end.
Proof.
  intros Hraw Hdata Hcols [ui Hui] _.
  rewrite mount_columns, mount_columnOrder, mount_rawData, Hdata, Hcols, Hui.
  split_and!.
  - destruct (raw_data ls) as [[| |raw]|]; [|done|..];
      apply (keys_fmap sorted_column).
  - by destruct (raw_data ls) as [[| |raw]|].
  - intros k c Hc. exists (sorted_column c). split_and!; try done.
    + destruct (raw_data ls) as [[| |raw]|]; [|done|..];
        by rewrite (own_property_fmap sorted_column), Hc.
    + apply sort_ranked_perm.
    + apply sort_ranked_stably_sorted.
  - done.
Qed.

Lemma mount_loads_saved_board_witness :
  keys (columns (mount (storage scraped_state))) = default_columnOrder
  ∧ columnOrder (mount (storage scraped_state)) = default_columnOrder.
Proof.
  pose proof (mount_loads_saved_board (storage scraped_state)
    {| doc_columns := Some (json_board (columns scraped_state));
       doc_columnOrder := columnOrder scraped_state |}
    (json_board (columns scraped_state))) as H.
  destruct H as (Hk & Ho & _);
    [done|reflexivity|reflexivity|by eexists| |].
  - apply (bool_decide_unpack _). vm_compute. exact I.
  - exact (conj Hk Ho).
Defined.

(** X6. Saving and reloading is a round trip: from a state the hook
    reached, with no [undefined] slot on the board and a raw-log blob that
    parses (or none), mounting again from what [localStorage] holds gives
    the same columns and the same column order. *)
Theorem reload_restores_board (st : state) :
  reachable st →
  raw_data (storage st) ≠ Some Unparsable →
  Forall (λ it, is_undefined it = false) (all_items (columns st)) →
  columns (mount (storage st)) = columns st
  ∧ columnOrder (mount (storage st)) = columnOrder st.
Proof.
  intros (_ & Hp & Hsorted & [c Hui])%reachable_invariant Hraw Hdef.
  rewrite mount_columns, mount_columnOrder, Hp. simpl.
  rewrite json_board_defined, Hui by done.
  rewrite sorted_board_fixed by done.
  by destruct (raw_data (storage st)) as [[| |raw]|].
Qed.

Lemma reload_restores_board_witness :
  columns (mount (storage classified_state)) = columns classified_state
  ∧ columnOrder (mount (storage classified_state))
    = columnOrder classified_state.
Proof.
  apply reload_restores_board.
  - apply (reachable_run scraped_state (ApplyClassification first_pass)).
    + apply (reachable_run (mount empty_storage)
               (Ingest (Some [ sample_record 1 5 PUndefined;
                               sample_record 2 5 PUndefined;
                               sample_record 3 3 PUndefined ]))).
      * apply reachable_mount.
      * reflexivity.
    + reflexivity.
  - intros H. vm_compute in H. discriminate H.
  - vm_compute. repeat constructor.
Defined.

(** X7. [resetData] does nothing when the confirmation is declined; when
    it is confirmed, the page comes back with the empty default board, the
    default column order and an empty raw log, whatever the state was, the
    raw-log blob is gone and the board blob is the default board. *)
Theorem resetData_clears_board_and_log (st : state) :
  resetData st false = st
  ∧ columns (resetData st true) = default_columns
  ∧ columnOrder (resetData st true) = default_columnOrder
  ∧ rawData (resetData st true) = []
  ∧ raw_data (storage (resetData st true)) = None
  ∧ kanban_data (storage (resetData st true))
    = Some (Document {| doc_columns := Some default_columns;
                        doc_columnOrder := default_columnOrder |}).
Proof. done. Qed.

Lemma run_all_frame st ops :
  same_frame (columns st) (columns (run_all st ops))
  ∧ columnOrder (run_all st ops) = columnOrder st.
Proof.
  revert st. induction ops as [|op ops IH]; intros st; simpl.
  - split; [apply same_frame_refl|done].
  - destruct (IH (run st op).1) as [Hframe Horder]. split.
    + eapply same_frame_trans; [apply run_frame|done].
    + by rewrite Horder, run_columnOrder.
Qed.

(** X8. After a first start (no board in [localStorage]), and whatever
    calls of the three operations follow, returning or throwing, the board
    has exactly the five default columns in the default order and
    [columnOrder] is the default order: every id that [App] renders a
    column for names a column. *)
Theorem first_start_keeps_the_default_columns (ls : localStorage)
    (ops : list operation) :
  kanban_data ls = None →
  keys (columns (run_all (mount ls) ops)) = default_columnOrder
  ∧ columnOrder (run_all (mount ls) ops) = default_columnOrder
  ∧ Forall (λ columnId,
              is_Some (own_property (columns (run_all (mount ls) ops)) columnId))
           (columnOrder (run_all (mount ls) ops)).
Proof.
  intros Hdata.
  destruct (run_all_frame (mount ls) ops) as [Hframe Horder].
  apply same_frame_keys in Hframe.
  assert (keys (columns (run_all (mount ls) ops)) = default_columnOrder)
    as Hkeys.
  { rewrite Hframe, mount_columns, Hdata.
    by destruct (raw_data ls) as [[| |raw]|]. }
  assert (columnOrder (run_all (mount ls) ops) = default_columnOrder)
    as Hdefault.
  { rewrite Horder, mount_columnOrder, Hdata.
    by destruct (raw_data ls) as [[| |raw]|]. }
  split_and!; [done..|].
  rewrite Hdefault. apply Forall_forall. intros columnId Hid.
  apply own_property_Some_keys. by rewrite Hkeys.
Qed.

Lemma first_start_keeps_the_default_columns_witness :
  keys (columns (run_all (mount empty_storage)
                   [ Ingest one_message;
                     ApplyClassification inherited_category;
                     sample_move ]))
  = default_columnOrder.
Proof.
  apply (first_start_keeps_the_default_columns empty_storage
           [ Ingest one_message; ApplyClassification inherited_category;
             sample_move ]).
  reflexivity.
Defined.

(** * Moving a card that is there *)

Lemma splice_remove_in_bounds {A} (i : Z) (l : list A) x :
  0 ≤ i → l !! Z.to_nat i = Some x →
  splice_remove i l = ([x], delete (Z.to_nat i) l).
Proof.
  intros Hi Hx. unfold splice_remove, relative_start.
  pose proof (lookup_lt_Some _ _ _ Hx) as Hlt.
  destruct (Z.ltb_spec i 0); [lia|].
  rewrite Z.min_l by lia.
  rewrite delete_take_drop. f_equal.
  apply take_drop_middle in Hx.
  rewrite <-Hx at 1.
  rewrite drop_app_length'; [done|].
  rewrite length_take. lia.
Qed.

Lemma delete_perm {A} (l : list A) i x :
  l !! i = Some x → l ≡ₚ x :: delete i l.
Proof.
  intros Hx. rewrite delete_take_drop.
  rewrite <-(take_drop_middle l i x Hx) at 1.
  by rewrite Permutation_middle.
Qed.

(** X9. A drag of the card at an index of the source column to another
    position, both columns being columns of the board, returns; the board
    holds the same items as before; the card is in the destination column;
    between two columns, the source column is what it was without the
    card, in the same order, and the destination column has gained exactly
    the card. *)
Theorem moveCard_moves_the_card (st : state) (source d : location)
    (S D : column) (card : item) :
  own_property (columns st) (droppableId source) = Some S →
  own_property (columns st) (droppableId d) = Some D →
  0 ≤ index source →
  items S !! Z.to_nat (index source) = Some card →
  ¬ (droppableId source = droppableId d ∧ index source = index d) →
  ∃ st' D',
    moveCard st source (Some d) = (st', Normal ())
    ∧ all_items (columns st') ≡ₚ all_items (columns st)
    ∧ own_property (columns st') (droppableId d) = Some D'
    ∧ card ∈ items D'
    ∧ (droppableId source = droppableId d → items D' ≡ₚ items S)
    ∧ (droppableId source ≠ droppableId d →
       items D' ≡ₚ card :: items D
       ∧ items <$> own_property (columns st') (droppableId source)
         = Some (delete (Z.to_nat (index source)) (items S))).
Proof.
  intros HS HD Hi Hcard Hpos.
  pose proof (splice_remove_in_bounds _ _ _ Hi Hcard) as Hsp.
  pose proof (delete_perm _ _ _ Hcard) as Hperm.
  set (rest := delete (Z.to_nat (index source)) (items S)) in *.
  pose proof (moveCard_moves st source d S D [card] rest Hpos HS HD Hsp) as Hmove.
  cbv zeta in Hmove.
  change (default (Prim PUndefined) (head [card])) with card in Hmove.
  rewrite Hmove. clear Hmove.
  destruct (decide (droppableId source = droppableId d)) as [Heq|Hne].
  - set (sorted := sort_ranked item_rank (splice_insert (index d) card rest)).
    assert (sorted ≡ₚ items S) as Hsorted.
    { unfold sorted. by rewrite sort_ranked_perm, splice_insert_perm. }
    eexists _, (with_items S sorted). split_and!; [done|..].
    + rewrite columns_setColumns. rewrite <-Heq.
      apply (Permutation_app_inv_r (items S)).
      by apply all_items_replace.
    + by rewrite columns_setColumns, own_property_set_eq.
    + simpl. rewrite Hsorted, Hperm. by left.
    + done.
    + done.
  - set (sorted := sort_ranked item_rank (splice_insert (index d) card (items D))).
    assert (sorted ≡ₚ card :: items D) as Hsorted.
    { unfold sorted. by rewrite sort_ranked_perm, splice_insert_perm. }
    set (b1 := set_property (droppableId source) (with_items S rest) (columns st)).
    assert (own_property b1 (droppableId d) = Some D) as HD1.
    { unfold b1. by rewrite own_property_set_ne. }
    eexists _, (with_items D sorted). split_and!; [done|..].
    + rewrite columns_setColumns.
      pose proof (all_items_replace (columns st) (droppableId source) S
        (with_items S rest) rest HS (reflexivity _)) as Hswap1.
      pose proof (all_items_replace b1 (droppableId d) D
        (with_items D sorted) (card :: items D) HD1 Hsorted) as Hswap2.
      fold b1 in Hswap1.
      apply (Permutation_app_inv_r (items D ++ items S)).
      rewrite (assoc_L (++)), Hswap2.
      rewrite <-(assoc_L (++)), (comm (++) (card :: items D) (items S)).
      rewrite (assoc_L (++)), Hswap1.
      rewrite <-!(assoc_L (++)). apply Permutation_app_head.
      rewrite (comm (++) (items D)), Hperm. simpl.
      by rewrite <-Permutation_middle.
    + by rewrite columns_setColumns, own_property_set_eq.
    + simpl. rewrite Hsorted. by left.
    + done.
    + intros _. split; [done|].
      rewrite columns_setColumns.
      rewrite own_property_set_ne by done.
      unfold b1. by rewrite own_property_set_eq.
Qed.

Lemma moveCard_moves_the_card_witness :
  ∃ st' D',
    moveCard scraped_state second_card (Some top_of_ai) = (st', Normal ())
    ∧ own_property (columns st') "ai" = Some D'
    ∧ sample_record 2 5 PUndefined ∈ items D'
    ∧ items <$> own_property (columns st') "uncategorized"
      = Some [sample_record 1 5 PUndefined; sample_record 3 3 PUndefined].
Proof.
  destruct (moveCard_moves_the_card scraped_state second_card top_of_ai
              (with_items (empty_column "uncategorized" "Uncategorized")
                 [ sample_record 1 5 PUndefined; sample_record 2 5 PUndefined;
                   sample_record 3 3 PUndefined ])
              (empty_column "ai" "AI")
              (sample_record 2 5 PUndefined))
    as (st' & D' & Hmove & _ & Hown & Hin & _ & Hrest);
    [reflexivity|reflexivity|simpl; lia|reflexivity| |].
  - intros [Heq _]. discriminate Heq.
  - exists st', D'. split_and!; [done..|].
    apply Hrest. intros Heq. discriminate Heq.
Defined.

(** ** A drag within a column *)

Lemma set_property_same {V} (b : list (string * V)) k c :
  own_property b k = Some c → set_property k c b = b.
Proof.
  induction b as [|[k0 c0] b IH]; [done|]. simpl.
  destruct (String.eqb k0 k) eqn:Hk.
  - apply String.eqb_eq in Hk as ->. by intros [= ->].
  - intros Hown. by rewrite IH.
Qed.

Lemma of_rank_absent {A} (rank : A → option Z) k l :
  k ∉ rank <$> l → of_rank rank k l = [].
Proof.
  unfold of_rank. induction l as [|x l IH]; [done|].
  rewrite fmap_cons, not_elem_of_cons. intros [Hx Hl].
  rewrite filter_cons. destruct (decide (rank x = k)); [done|by apply IH].
Qed.

Lemma of_rank_distinct {A} (rank : A → option Z) k l :
  NoDup (rank <$> l) → (length (of_rank rank k l) ≤ 1)%nat.
Proof.
  induction l as [|x l IH]; [simpl; lia|].
  rewrite fmap_cons. intros [Hx Hl]%NoDup_cons.
  unfold of_rank. rewrite filter_cons.
  destruct (decide (rank x = k)) as [<-|]; [|by apply IH].
  fold (of_rank rank (rank x) l). rewrite of_rank_absent by done. simpl. lia.
Qed.

Lemma sort_ranked_distinct {A} (rank : A → option Z) (l l' : list A) :
  descending rank l → NoDup (rank <$> l) → l' ≡ₚ l →
  sort_ranked rank l' = l.
Proof.
  intros Hdesc Hnd Hperm.
  apply (descending_same_ranks_eq rank); [apply sort_ranked_descending|done|].
  intros k. rewrite sort_ranked_of_rank.
  assert (of_rank rank k l' ≡ₚ of_rank rank k l) as Hk
    by (unfold of_rank; by rewrite Hperm).
  pose proof (of_rank_distinct rank k l Hnd) as Hlen.
  destruct (of_rank rank k l) as [|x [|y rest]]; simpl in Hlen; [| |lia].
  - by apply Permutation_nil_r.
  - by apply Permutation_singleton_r.
Qed.

(** X10. A drag within one column whose items are sorted and have no two
    equal likes (and no two [undefined] slots) changes nothing on the
    board, whatever position the card is dropped at: the sort that follows
    the splice puts the card back. *)
Theorem moveCard_within_a_column_without_ties (st : state)
    (source d : location) (S : column) (card : item) :
  own_property (columns st) (droppableId source) = Some S →
  droppableId d = droppableId source →
  0 ≤ index source →
  items S !! Z.to_nat (index source) = Some card →
  descending item_rank (items S) →
  NoDup (item_rank <$> items S) →
  ∃ st',
    moveCard st source (Some d) = (st', Normal ())
    ∧ columns st' = columns st.
Proof.
  intros HS Hsame Hi Hcard Hdesc Hnd.
  destruct (decide (index source = index d)) as [Hindex|Hindex].
  { exists st. split; [|done]. unfold moveCard.
    rewrite Hsame, String.eqb_refl, Hindex, Z.eqb_refl. done. }
  pose proof (splice_remove_in_bounds _ _ _ Hi Hcard) as Hsp.
  pose proof (delete_perm _ _ _ Hcard) as Hperm.
  set (rest := delete (Z.to_nat (index source)) (items S)) in *.
  assert (own_property (columns st) (droppableId d) = Some S) as HD
    by by rewrite Hsame.
  pose proof (moveCard_moves st source d S S [card] rest) as Hmove.
  cbv zeta in Hmove.
  change (default (Prim PUndefined) (head [card])) with card in Hmove.
  rewrite Hmove; [|by intros [_ ?]|done..]. clear Hmove.
  eexists. split; [done|]. rewrite columns_setColumns.
  destruct (decide (droppableId source = droppableId d)); [|done].
  assert (sort_ranked item_rank (splice_insert (index d) card rest) = items S)
    as ->.
  { apply sort_ranked_distinct; [done..|].
    by rewrite splice_insert_perm, Hperm. }
  rewrite with_items_items. rewrite Hsame. by apply set_property_same.
Qed.

Lemma moveCard_within_a_column_without_ties_witness :
  ∃ st',
    moveCard ranked_state {| droppableId := "uncategorized"; index := 0 |}
      (Some {| droppableId := "uncategorized"; index := 2 |})
    = (st', Normal ())
    ∧ columns st' = columns ranked_state.
Proof.
  apply (moveCard_within_a_column_without_ties ranked_state
           {| droppableId := "uncategorized"; index := 0 |}
           {| droppableId := "uncategorized"; index := 2 |}
           (with_items (empty_column "uncategorized" "Uncategorized")
              [ sample_record 1 9 PUndefined; sample_record 2 4 PUndefined;
                sample_record 3 1 PUndefined ])
           (sample_record 1 9 PUndefined)).
  - reflexivity.
  - reflexivity.
  - simpl. lia.
  - reflexivity.
  - repeat constructor.
  - apply (bool_decide_unpack _). vm_compute. exact I.
Defined.

(** * Ingesting a batch *)

Lemma addMessages_rawData st msgs st' c :
  addMessages st (Some msgs) = (st', c) →
  rawData st' = rawData st ++ msgs.
Proof.
  unfold addMessages. destruct msgs as [|m msgs].
  - intros [= <- _]. by rewrite app_nil_r.
  - cbn -[sortByLikes].
    destruct (own_property (columns st) "uncategorized");
      [|by intros [= <- _]].
    destruct (sortByLikes _); intros [= <- _]; [|done].
    unfold setColumns, save_effect. simpl. by destruct (loading st).
Qed.

Lemma addMessages_returns st msgs :
  msgs ≠ [] →
  is_Some (own_property (columns st) "uncategorized") →
  ∃ st', addMessages st (Some msgs) = (st', Normal ()).
Proof.
  intros Hmsgs [unc Hunc]. destruct msgs as [|m msgs]; [done|].
  unfold addMessages. cbn -[sortByLikes].
  rewrite Hunc, sortByLikes_sort_ranked. eauto.
Qed.

(** X11. Ingesting a non-empty batch into a board that has the column
    [uncategorized] returns; the board then holds exactly the items it
    held and the items of the batch, each as often as before, and the raw
    log is the old log followed by the batch. *)
Theorem addMessages_adds_the_batch (st : state) (msgs : list item)
    (unc : column) :
  msgs ≠ [] →
  own_property (columns st) "uncategorized" = Some unc →
  ∃ st',
    addMessages st (Some msgs) = (st', Normal ())
    ∧ all_items (columns st') ≡ₚ all_items (columns st) ++ msgs
    ∧ length (all_items (columns st'))
      = (length (all_items (columns st)) + length msgs)%nat
    ∧ rawData st' = rawData st ++ msgs.
Proof.
  intros Hmsgs Hunc.
  assert (∃ st', addMessages st (Some msgs) = (st', Normal ())) as [st' Hadd].
  { destruct msgs as [|m msgs]; [done|].
    unfold addMessages. cbn -[sortByLikes].
    rewrite Hunc, sortByLikes_sort_ranked. eauto. }
  exists st'. pose proof (addMessages_items _ _ _ Hadd) as Hitems.
  simpl in Hitems. split_and!; [done..| |].
  - by rewrite Hitems, length_app.
  - by apply addMessages_rawData in Hadd.
Qed.

Lemma addMessages_adds_the_batch_witness :
  ∃ st',
    addMessages scraped_state (Some [sample_record 4 9 PUndefined])
    = (st', Normal ())
    ∧ length (all_items (columns st')) = 4%nat
    ∧ length (rawData st') = 4%nat.
Proof.
  destruct (addMessages_adds_the_batch scraped_state
              [sample_record 4 9 PUndefined]
              (with_items (empty_column "uncategorized" "Uncategorized")
                 [ sample_record 1 5 PUndefined; sample_record 2 5 PUndefined;
                   sample_record 3 3 PUndefined ]))
    as (st' & Hadd & _ & Hlen & Hraw); [done|reflexivity|].
  exists st'. split_and!; [done..|].
  by rewrite Hraw.
Defined.

Lemma sort_ranked_app_sorted {A} (rank : A → option Z) (l1 l2 : list A) :
  sort_ranked rank (sort_ranked rank l1 ++ l2) = sort_ranked rank (l1 ++ l2).
Proof.
  symmetry. apply stably_sorted_unique. split.
  - apply sort_ranked_descending.
  - intros k. rewrite sort_ranked_of_rank. unfold of_rank.
    rewrite !filter_app. f_equal. symmetry. apply sort_ranked_of_rank.
Qed.

(** X12. Ingesting in two batches is ingesting at once: on a board that
    has [uncategorized], two calls of [addMessages], one batch after the
    other, leave the same columns and the same raw log as one call with
    the two batches in a row. *)
Theorem addMessages_in_two_batches (st : state) (first second : list item) :
  is_Some (own_property (columns st) "uncategorized") →
  columns (addMessages (addMessages st (Some first)).1 (Some second)).1
  = columns (addMessages st (Some (first ++ second))).1
  ∧ rawData (addMessages (addMessages st (Some first)).1 (Some second)).1
    = rawData (addMessages st (Some (first ++ second))).1.
Proof.
  intros [unc Hunc].
  assert (∀ st0 unc0 msgs,
            own_property (columns st0) "uncategorized" = Some unc0 →
            columns (addMessages st0 (Some msgs)).1
            = (if decide (msgs = []) then columns st0
               else set_property "uncategorized"
                      (with_items unc0
                         (sort_ranked item_rank (items unc0 ++ msgs)))
                      (columns st0))
            ∧ rawData (addMessages st0 (Some msgs)).1 = rawData st0 ++ msgs)
    as Hadd.
  { intros st0 unc0 msgs Hunc0.
    split; [|by eapply addMessages_rawData, surjective_pairing].
    destruct msgs as [|m msgs]; [done|].
    unfold addMessages. cbn -[sortByLikes].
    rewrite Hunc0, sortByLikes_sort_ranked. cbn [fst].
    by rewrite columns_setColumns. }
  destruct (Hadd st unc first Hunc) as [Hc1 Hr1].
  destruct (Hadd st unc (first ++ second) Hunc) as [Hc Hr].
  set (st1 := (addMessages st (Some first)).1) in *.
  destruct (decide (first = [])) as [->|Hfirst].
  { assert (st1 = st) as -> by done. done. }
  assert (own_property (columns st1) "uncategorized"
          = Some (with_items unc (sort_ranked item_rank (items unc ++ first))))
    as Hunc1 by by rewrite Hc1, own_property_set_eq.
  destruct (Hadd st1 _ second Hunc1) as [Hc2 Hr2].
  split; [|by rewrite Hr2, Hr1, Hr, (assoc_L (++))].
  rewrite Hc2, Hc.
  destruct (decide (second = [])) as [->|Hsecond].
  { rewrite app_nil_r. by destruct (decide (first = [])). }
  destruct (decide (first ++ second = [])) as [Hnil|_];
    [by apply app_eq_nil in Hnil as [? _]|].
  rewrite Hc1, set_property_twice. simpl.
  by rewrite sort_ranked_app_sorted, (assoc_L (++)).
Qed.

Lemma addMessages_in_two_batches_witness :
  columns (addMessages
             (addMessages (mount empty_storage)
                (Some [sample_record 1 3 PUndefined])).1
             (Some [sample_record 2 7 PUndefined])).1
  = columns (addMessages (mount empty_storage)
               (Some [sample_record 1 3 PUndefined;
                      sample_record 2 7 PUndefined])).1.
Proof.
  apply (addMessages_in_two_batches (mount empty_storage)
           [sample_record 1 3 PUndefined] [sample_record 2 7 PUndefined]).
  by eexists.
Defined.

(** * Sorting every column *)

Lemma sortByLikes_again l sorted :
  sortByLikes l = Normal sorted → sortByLikes sorted = Normal sorted.
Proof.
  rewrite !sortByLikes_sort_ranked. intros [= <-]. f_equal.
  apply sort_ranked_sorted, sort_ranked_descending.
Qed.

(** X13. On a board none of whose keys is [__proto__],
    [sortAllColumnsByLikes] does not fail.  It returns the columns under
    the same keys in the same order and with the same [id] and [title],
    each with its own items sorted by likes, descending, ties in their
    previous order; no item is lost or gained; and sorting what it
    returned changes nothing. *)
Theorem sortAllColumnsByLikes_sorts_every_column (b : board) :
  ("__proto__"%string ∉ keys b) →
  ∃ sorted,
    sortAllColumnsByLikes b = Normal sorted
    ∧ same_frame b sorted
    ∧ board_sorted sorted
    ∧ all_items sorted ≡ₚ all_items b
    ∧ (∀ k c, own_property b k = Some c →
         ∃ c', own_property sorted k = Some c'
               ∧ stably_sorted item_rank (items c) (items c'))
    ∧ sortAllColumnsByLikes sorted = Normal sorted.
Proof.
  intros _. rewrite sortAllColumnsByLikes_value. eexists. split; [done|].
  split_and!.
  - by apply (same_frame_fmap sorted_column).
  - apply board_sorted_sortAll.
  - apply all_items_sorted_perm.
  - intros k c Hc. exists (sorted_column c).
    rewrite (own_property_fmap sorted_column), Hc. split; [done|].
    apply sort_ranked_stably_sorted.
  - rewrite sortAllColumnsByLikes_value. f_equal.
    apply sorted_board_fixed, board_sorted_sortAll.
Qed.

Lemma sortAllColumnsByLikes_sorts_every_column_witness :
  ∃ sorted,
    sortAllColumnsByLikes (json_board (columns scraped_state)) = Normal sorted
    ∧ keys sorted = default_columnOrder
    ∧ board_sorted sorted.
Proof.
  destruct (sortAllColumnsByLikes_sorts_every_column
              (json_board (columns scraped_state)))
    as (sorted & Hsorted & Hframe & Hboard & _).
  - apply (bool_decide_unpack _). vm_compute. exact I.
  - exists sorted. split_and!; [done| |done].
    vm_compute in Hsorted. by injection Hsorted as <-.
Defined.

(** * Where a classification puts a record *)

(** X14. After a classification that returns, a record whose id has no
    entry in the mapping is in [uncategorized], whatever column it was in
    before.  It is there as it was, with the sentiment it had, unless its
    id is the name of a member of [Object.prototype]: the lookup
    [classificationResult[item.id]] then finds that member, and the
    sentiment of the record is overwritten with [undefined]. *)
Theorem unclassified_record_goes_to_uncategorized (st : state)
    (classificationResult : gmap string entry) (st' : state) (r : record) :
  updateCategoryForIds st classificationResult = (st', Normal ()) →
  Obj r ∈ all_items (columns st) →
  classificationResult !! to_property_key (r_id r) = None →
  ∃ c', own_property (columns st') "uncategorized" = Some c'
        ∧ (if inherited_key (to_property_key (r_id r))
           then Obj (set_r_sentiment r PUndefined)
           else Obj r) ∈ items c'.
Proof.
  intros Hupdate Hr Hentry.
  destruct (updateCategoryForIds_routes _ _ _ _ Hupdate Hr)
    as (targetCat & it' & c' & Hclass & Hown & Hin).
  unfold classify_item, get_result in Hclass. simpl in Hclass.
  rewrite Hentry in Hclass.
  destruct (inherited_key (to_property_key (r_id r))); simpl in Hclass.
  - exists c'.
    by destruct (slot_truthy _); injection Hclass as <- <-.
  - injection Hclass as <- <-. eauto.
Qed.

Lemma unclassified_record_goes_to_uncategorized_witness :
  ∃ c', own_property (columns classified_state) "uncategorized" = Some c'
        ∧ Obj (sample_message 2 5) ∈ items c'.
Proof.
  refine (unclassified_record_goes_to_uncategorized scraped_state first_pass
            classified_state (sample_message 2 5) _ _ _).
  - reflexivity.
  - apply (bool_decide_unpack _). vm_compute. exact I.
  - reflexivity.
Defined.

(** X15. After a classification that returns, a record whose entry names
    a category (a non-empty string) is, with the entry's sentiment written
    on it, in the column whose key is the category in lower case when the
    board has such a column, and in [uncategorized] when it has none. *)
Theorem classified_record_goes_to_its_category (st : state)
    (classificationResult : gmap string entry) (st' : state) (r : record)
    (name : string) (sentiment : prim) :
  updateCategoryForIds st classificationResult = (st', Normal ()) →
  Obj r ∈ all_items (columns st) →
  classificationResult !! to_property_key (r_id r)
    = Some (EntryObject (PStr name) sentiment) →
  name ≠ ""%string →
  ∃ c', own_property (columns st')
          (if decide (is_Some (own_property (columns st) (lower name)))
           then lower name else "uncategorized"%string) = Some c'
        ∧ Obj (set_r_sentiment r sentiment) ∈ items c'.
Proof.
  intros Hupdate Hr Hentry Hname.
  destruct (updateCategoryForIds_routes _ _ _ _ Hupdate Hr)
    as (targetCat & it' & c' & Hclass & Hown & Hin).
  unfold classify_item, get_result in Hclass. simpl in Hclass.
  rewrite Hentry in Hclass. simpl in Hclass.
  assert (String.eqb name "" = false) as Hne by by apply String.eqb_neq.
  rewrite Hne in Hclass. simpl in Hclass.
  exists c'. split; [|by destruct (slot_truthy _); injection Hclass as <- <-].
  destruct (decide _) as [Hknown|Hunknown].
  - unfold get_property in Hclass. destruct Hknown as [c Hc].
    rewrite Hc in Hclass. by injection Hclass as <- <-.
  - unfold get_property in Hclass.
    destruct (own_property (columns st) (lower name)) as [c|] eqn:Hc;
      [by destruct Hunknown|].
    destruct (inherited_key (lower name));
      simpl in Hclass; injection Hclass as <- <-; [|done].
    apply updateCategoryForIds_Normal in Hupdate as (Hkeys & _).
    assert (is_Some (own_property (columns st) (lower name))) as [? ?];
      [|congruence].
    apply own_property_Some_keys. rewrite <-Hkeys.
    by apply own_property_Some_keys.
Qed.

Lemma classified_record_goes_to_its_category_witness :
  ∃ c', own_property (columns classified_state) "ai" = Some c'
        ∧ Obj (set_r_sentiment (sample_message 1 5) (PStr "positive"))
          ∈ items c'.
Proof.
  apply (classified_record_goes_to_its_category scraped_state first_pass
           classified_state (sample_message 1 5) "AI" (PStr "positive")).
  - reflexivity.
  - apply (bool_decide_unpack _). vm_compute. exact I.
  - reflexivity.
  - intros H. discriminate H.
Defined.

Lemma classify_item_category cr b it k it' :
  classify_item cr b it = Normal (k, it') →
  k ≠ "uncategorized"%string →
  ∃ r name sentiment,
    it = Obj r ∧ it' = Obj (set_r_sentiment r sentiment)
    ∧ cr !! to_property_key (r_id r) = Some (EntryObject (PStr name) sentiment)
    ∧ lower name = k.
Proof.
  unfold classify_item. intros Hclass Hk.
  destruct (get_id it) as [id|] eqn:Hid; [|done]. simpl in Hclass.
  destruct (result_truthy _) eqn:Htruthy; [|by injection Hclass as <- <-].
  destruct it as [p|r]; [done|]. simpl in *. injection Hid as <-.
  destruct (truthy (result_category _)) eqn:Hcat; simpl in Hclass;
    [|by destruct (slot_truthy _); injection Hclass as <- <-].
  unfold get_result in *.
  destruct (cr !! to_property_key (r_id r)) as [[p|category sentiment]|]
    eqn:Hentry; simpl in *; [done| |by destruct (inherited_key _)].
  destruct category as [| | |n|name]; simpl in Hclass; try done.
  exists r, name, sentiment. split_and!; try done.
  - by destruct (slot_truthy _); injection Hclass as <- <-.
  - by destruct (slot_truthy _); injection Hclass as <- <-.
Qed.

(** X16. After a classification that returns, a column other than
    [uncategorized] holds only records that the mapping sends there: each
    of its items is a record of the board with the sentiment of its entry
    written on it, and the entry's category, in lower case, is the key of
    the column.  Earlier placements count for nothing. *)
Theorem category_columns_hold_classified_records (st : state)
    (classificationResult : gmap string entry) (st' : state)
    (k : string) (c' : column) (it' : item) :
  updateCategoryForIds st classificationResult = (st', Normal ()) →
  own_property (columns st') k = Some c' →
  k ≠ "uncategorized"%string →
  it' ∈ items c' →
  ∃ r name sentiment,
    Obj r ∈ all_items (columns st)
    ∧ it' = Obj (set_r_sentiment r sentiment)
    ∧ classificationResult !! to_property_key (r_id r)
      = Some (EntryObject (PStr name) sentiment)
    ∧ lower name = k.
Proof.
  intros Hupdate Hown Hk Hin.
  apply updateCategoryForIds_Normal in Hupdate as (_ & _ & Hcols & _).
  rewrite Hcols in Hown.
  destruct (own_property (columns st) k) as [c|]; [|done].
  injection Hown as <-. simpl in Hin.
  rewrite sort_ranked_perm in Hin.
  apply list_elem_of_omap in Hin as (it & Hit & Hrouted).
  destruct (classify_item classificationResult (columns st) it)
    as [[targetCat moved]|] eqn:Hclass; [|done].
  destruct (decide (targetCat = k)) as [->|]; [|done].
  injection Hrouted as ->.
  destruct (classify_item_category _ _ _ _ _ Hclass Hk)
    as (r & name & sentiment & -> & -> & Hentry & Hlower).
  by exists r, name, sentiment.
Qed.

Lemma category_columns_hold_classified_records_witness :
  ∃ r name sentiment,
    Obj r ∈ all_items (columns scraped_state)
    ∧ sample_record 1 5 (PStr "positive") = Obj (set_r_sentiment r sentiment)
    ∧ first_pass !! to_property_key (r_id r)
      = Some (EntryObject (PStr name) sentiment)
    ∧ lower name = "ai"%string.
Proof.
  apply (category_columns_hold_classified_records scraped_state first_pass
           classified_state "ai"
           (with_items (empty_column "ai" "AI")
              [sample_record 1 5 (PStr "positive")])).
  - reflexivity.
  - reflexivity.
  - intros H. discriminate H.
  - apply (bool_decide_unpack _). vm_compute. exact I.
Defined.

(** X17. On a board that has [uncategorized] and holds message objects
    only, a classification whose categories are strings that name a column
    or at least no member of [Object.prototype] returns, and keeps every
    record: the board has as many items as before, the same ids, and the
    same records up to the sentiment written on them. *)
Theorem classification_returns_and_keeps_records (st : state)
    (classificationResult : gmap string entry) :
  is_Some (own_property (columns st) "uncategorized") →
  routable classificationResult (columns st) →
  Forall (λ it, ∃ r, it = Obj r) (all_items (columns st)) →
  ∃ st',
    updateCategoryForIds st classificationResult = (st', Normal ())
    ∧ board_ids (columns st') ≡ₚ board_ids (columns st)
    ∧ length (all_items (columns st')) = length (all_items (columns st))
    ∧ ∃ l', Forall2 same_record (all_items (columns st)) l'
            ∧ all_items (columns st') ≡ₚ l'.
Proof.
  intros Hunc Hroutable Hitems.
  destruct (updateCategoryForIds_returns st classificationResult
              Hunc Hroutable Hitems) as [st' Hupdate].
  exists st'. split; [done|].
  destruct (updateCategoryForIds_keeps_records _ _ _ Hupdate) as (l' & Hl' & Hperm).
  split_and!; [| |by eauto].
  - unfold board_ids. rewrite Hperm.
    assert (omap record_id l' = omap record_id (all_items (columns st))) as Hids;
      [|by rewrite Hids].
    apply list_omap_ext, Forall2_flip.
    eapply Forall2_impl; [done|]. intros it it' Hrec.
    by apply same_record_id.
  - rewrite Hperm. symmetry. by eapply Forall2_length.
Qed.

Lemma classification_returns_and_keeps_records_witness :
  ∃ st',
    updateCategoryForIds scraped_state first_pass = (st', Normal ())
    ∧ length (all_items (columns st')) = 3%nat.
Proof.
  destruct (classification_returns_and_keeps_records scraped_state first_pass)
    as (st' & Hupdate & _ & Hlength & _).
  - by eexists.
  - intros key category sentiment Hkey Hcat. unfold first_pass in Hkey.
    apply lookup_singleton_Some in Hkey as [_ Hentry].
    exists "AI"%string. split; [by injection Hentry as <- _|].
    left. by eexists.
  - vm_compute. repeat constructor; by eexists.
  - exists st'. split; [done|]. exact Hlength.
Defined.

(** * Classifying twice *)

Lemma classify_item_again cr b it k it' :
  classify_item cr b it = Normal (k, it') →
  classify_item cr b it' = Normal (k, it').
Proof.
  unfold classify_item. intros Hclass.
  destruct (get_id it) as [id|] eqn:Hid; [|done]. simpl in Hclass.
  destruct (result_truthy (get_result cr (to_property_key id))) eqn:Htruthy.
  - destruct it as [p|r]; [done|]. simpl in *. injection Hid as <-.
    destruct (if truthy _ then _ else _) as [assignedCat|] eqn:Hcat; [|done].
    simpl in Hclass.
    assert (it' = Obj (set_r_sentiment r
                         (result_sentiment
                            (get_result cr (to_property_key (r_id r))))))
      as -> by by destruct (slot_truthy _); injection Hclass as _ <-.
    simpl. rewrite Htruthy, Hcat. simpl.
    by destruct (slot_truthy _); injection Hclass as <-.
  - injection Hclass as <- <-. rewrite Hid. simpl. by rewrite Htruthy.
Qed.

Lemma place_items_total cr l b :
  Forall (λ it, ∃ targetCat it',
            classify_item cr b it = Normal (targetCat, it')
            ∧ is_Some (own_property b targetCat)) l →
  ∃ b', place_items cr l b = (b', Normal ()).
Proof.
  revert b. induction l as [|it l IH]; intros b Hl; simpl; [by eauto|].
  apply Forall_cons in Hl as [(targetCat & it' & Hclass & [c Hc]) Hl].
  rewrite Hclass. simpl. unfold push_item, get_property. rewrite Hc.
  apply IH. eapply Forall_impl; [done|].
  intros it0 (t0 & it0' & Hclass0 & Hown0). exists t0, it0'. split.
  - rewrite <-Hclass0. apply classify_item_keys.
    by apply keys_set_property with c.
  - apply own_property_Some_keys.
    rewrite keys_set_property with (v := c) by done.
    by apply own_property_Some_keys.
Qed.

Lemma own_property_NoDup (b : board) k c :
  NoDup (keys b) → (k, c) ∈ b → own_property b k = Some c.
Proof.
  unfold keys. induction b as [|[k0 c0] b IH]; [by intros _ ?%elem_of_nil|].
  rewrite fmap_cons. intros [Hk0 Hb]%NoDup_cons [Heq|Hin]%elem_of_cons; simpl.
  - injection Heq as <- <-. by rewrite String.eqb_refl.
  - destruct (String.eqb k0 k) eqn:Hk; [|by apply IH].
    apply String.eqb_eq in Hk as ->. destruct Hk0.
    apply list_elem_of_fmap. by exists (k, c).
Qed.

Lemma board_ext (b1 b2 : board) :
  NoDup (keys b1) → keys b2 = keys b1 →
  (∀ k, own_property b2 k = own_property b1 k) →
  b2 = b1.
Proof.
  intros Hnd Hkeys Hown.
  assert (NoDup (keys b2)) as Hnd2 by by rewrite Hkeys.
  revert b2 Hkeys Hown Hnd2. unfold keys.
  induction b1 as [|[k1 c1] b1 IH]; intros [|[k2 c2] b2]; try done.
  rewrite !fmap_cons. intros [= -> Hkeys] Hown.
  apply NoDup_cons in Hnd as [Hk1 Hnd]. intros [Hk2 Hnd2]%NoDup_cons.
  pose proof (Hown k1) as Hc. simpl in Hc. rewrite String.eqb_refl in Hc.
  injection Hc as ->. f_equal. apply IH; try done.
  intros k. pose proof (Hown k) as Hk. simpl in Hk.
  destruct (String.eqb k1 k) eqn:Heq; [|done].
  apply String.eqb_eq in Heq as ->.
  assert (own_property b1 k = None) as ->.
  { destruct (own_property b1 k) eqn:Hb; [|done].
    destruct Hk1. apply own_property_Some_keys. by eexists. }
  destruct (own_property b2 k) eqn:Hb; [|done].
  destruct Hk2. apply own_property_Some_keys. by eexists.
Qed.

Lemma routed_to_cons cr b k it l :
  routed_to cr b k (it :: l)
  = match classify_item cr b it with
    | Normal (targetCat, moved) =>
        if decide (targetCat = k) then moved :: routed_to cr b k l
        else routed_to cr b k l
    | Throw _ => routed_to cr b k l
    end.
Proof.
  unfold routed_to. simpl.
  destruct (classify_item cr b it) as [[targetCat moved]|]; [|done].
  by destruct (decide (targetCat = k)).
Qed.

Lemma routed_to_settled cr B k0 k l :
  (∀ it, it ∈ l → classify_item cr B it = Normal (k0, it)) →
  routed_to cr B k l = if decide (k0 = k) then l else [].
Proof.
  induction l as [|it l IH]; intros Hl; [by destruct (decide _)|].
  rewrite routed_to_cons, (Hl it) by by left.
  rewrite IH by (intros; apply Hl; by right).
  by destruct (decide (k0 = k)).
Qed.

Lemma routed_to_own cr B (b : board) k :
  NoDup (keys b) →
  (∀ k' c it, (k', c) ∈ b → it ∈ items c →
     classify_item cr B it = Normal (k', it)) →
  routed_to cr B k (all_items b) = from_option items [] (own_property b k).
Proof.
  unfold keys. induction b as [|[k0 c0] b IH]; [done|].
  rewrite fmap_cons. intros [Hk0 Hb]%NoDup_cons Hsettled.
  rewrite all_items_cons. unfold routed_to in *. rewrite omap_app.
  fold (routed_to cr B k (items c0)).
  rewrite (routed_to_settled cr B k0 k)
    by (intros; eapply Hsettled; [by left|done]).
  rewrite IH; [|done|by intros; eapply Hsettled; [by right|done]].
  simpl. destruct (decide (k0 = k)) as [->|Hne].
  - rewrite String.eqb_refl.
    destruct (own_property b k) eqn:Hown; [|by rewrite app_nil_r].
    destruct Hk0. apply own_property_Some_keys. by eexists.
  - apply String.eqb_neq in Hne. by rewrite Hne.
Qed.

Lemma elem_of_all_items (b : board) it :
  it ∈ all_items b ↔ ∃ k c, (k, c) ∈ b ∧ it ∈ items c.
Proof.
  unfold all_items, values. rewrite list_elem_of_In, in_flat_map. split.
  - intros (c & Hc & Hit). apply list_elem_of_In, list_elem_of_fmap in Hc
      as ([k c'] & -> & Hkc).
    exists k, c'. by rewrite list_elem_of_In.
  - intros (k & c & Hkc & Hit). exists c. rewrite <-!list_elem_of_In.
    split; [|done]. apply list_elem_of_fmap. by exists (k, c).
Qed.

(** X18. Classification is idempotent: when a classification has
    returned, applying the same mapping again returns too and leaves every
    column exactly as it is, items and order.  (The keys of [columns] are
    distinct, as the keys of an object are.) *)
Theorem classification_is_idempotent (st : state)
    (classificationResult : gmap string entry) (st1 : state) :
  NoDup (keys (columns st)) →
  updateCategoryForIds st classificationResult = (st1, Normal ()) →
  ∃ st2,
    updateCategoryForIds st1 classificationResult = (st2, Normal ())
    ∧ columns st2 = columns st1.
Proof.
  intros Hnd Hfirst.
  destruct (updateCategoryForIds_Normal _ _ _ Hfirst)
    as (Hkeys1 & Hsorted1 & Hcols1 & _).
  assert (NoDup (keys (columns st1))) as Hnd1 by by rewrite Hkeys1.
  assert (∀ k c1 it1, (k, c1) ∈ columns st1 → it1 ∈ items c1 →
            classify_item classificationResult (columns st1) it1
            = Normal (k, it1)) as Hsettled.
  { intros k c1 it1 Hkc Hit1.
    apply own_property_NoDup in Hkc; [|done].
    rewrite Hcols1 in Hkc.
    destruct (own_property (columns st) k) as [c|]; [|done].
    injection Hkc as <-. simpl in Hit1. rewrite sort_ranked_perm in Hit1.
    apply list_elem_of_omap in Hit1 as (it & _ & Hrouted).
    destruct (classify_item classificationResult (columns st) it)
      as [[targetCat moved]|] eqn:Hclass; [|done].
    destruct (decide (targetCat = k)) as [->|]; [|done].
    injection Hrouted as ->.
    rewrite (classify_item_keys _ _ (columns st)) by done.
    by apply classify_item_again with it. }
  assert (∃ st2, updateCategoryForIds st1 classificationResult
                 = (st2, Normal ())) as [st2 Hsecond].
  { unfold updateCategoryForIds.
    destruct (place_items_total classificationResult
                (all_items (columns st1)) (clear_columns (columns st1)))
      as [placed ->].
    - apply Forall_forall. intros it1 (k & c1 & Hkc & Hit1)%elem_of_all_items.
      exists k, it1. split.
      + rewrite (classify_item_keys _ _ (columns st1))
          by apply keys_clear_columns.
        by apply Hsettled with c1.
      + apply own_property_Some_keys. rewrite keys_clear_columns.
        apply own_property_Some_keys. exists c1.
        by apply own_property_NoDup.
    - rewrite sortAllColumnsByLikes_value. eauto. }
  exists st2. split; [done|].
  destruct (updateCategoryForIds_Normal _ _ _ Hsecond)
    as (Hkeys2 & _ & Hcols2 & _).
  apply board_ext; [done..|].
  intros k. rewrite Hcols2.
  destruct (own_property (columns st1) k) as [c1|] eqn:Hc1; [|done].
  simpl. f_equal.
  rewrite routed_to_own, Hc1 by done. simpl.
  rewrite sort_ranked_sorted; [apply with_items_items|].
  apply own_property_elem_of in Hc1.
  unfold board_sorted in Hsorted1. rewrite Forall_forall in Hsorted1.
  by apply Hsorted1.
Qed.

Lemma classification_is_idempotent_witness :
  ∃ st2,
    updateCategoryForIds classified_state first_pass = (st2, Normal ())
    ∧ columns st2 = columns classified_state.
Proof.
  apply (classification_is_idempotent scraped_state first_pass).
  - apply (bool_decide_unpack _). vm_compute. exact I.
  - reflexivity.
Defined.

(** X19. A classification that throws saves nothing: [localStorage] is
    what it was, so that (from a state the hook reached, with no
    [undefined] slot on the board and a raw-log blob that parses)
    reloading the page brings back the board as it was before the call. *)
Theorem failed_classification_is_not_saved (st : state)
    (classificationResult : gmap string entry) (st' : state) (e : error) :
  reachable st →
  raw_data (storage st) ≠ Some Unparsable →
  Forall (λ it, is_undefined it = false) (all_items (columns st)) →
  updateCategoryForIds st classificationResult = (st', Throw e) →
  storage st' = storage st
  ∧ columns (mount (storage st')) = columns st
  ∧ columnOrder (mount (storage st')) = columnOrder st.
Proof.
  intros Hr Hraw Hdef Hupdate.
  assert (storage st' = storage st) as Hstorage.
  { unfold updateCategoryForIds in Hupdate.
    destruct (place_items _ _ _) as [b' [[]|e']].
    - rewrite sortAllColumnsByLikes_value in Hupdate. done.
    - by injection Hupdate as <- _. }
  split; [done|]. rewrite Hstorage.
  apply reachable_invariant in Hr as (_ & Hp & Hsorted & Hui).
  by apply reload_persisted.
Qed.

Lemma failed_classification_is_not_saved_witness :
  all_items (columns (updateCategoryForIds scraped_state inherited_category).1)
  = [sample_record 1 5 PUndefined]
  ∧ columns (mount (storage (updateCategoryForIds scraped_state
                               inherited_category).1))
    = columns scraped_state.
Proof.
  split; [reflexivity|].
  apply (failed_classification_is_not_saved scraped_state inherited_category
           (updateCategoryForIds scraped_state inherited_category).1 TypeError).
  - apply (reachable_run (mount empty_storage)
             (Ingest (Some [ sample_record 1 5 PUndefined;
                             sample_record 2 5 PUndefined;
                             sample_record 3 3 PUndefined ]))).
    + apply reachable_mount.
    + reflexivity.
  - intros H. vm_compute in H. discriminate H.
  - vm_compute. repeat constructor.
  - reflexivity.
Defined.

(** * The extractor's totals *)

Lemma sum_of_cons x l : sum_of (x :: l) = x + sum_of l.
Proof. done. Qed.

Lemma sum_of_perm l l' : l ≡ₚ l' → sum_of l = sum_of l'.
Proof. induction 1; rewrite ?sum_of_cons; lia. Qed.

Lemma foldl_likes (msgs : list message) acc :
  foldl (λ sum msg, sum + m_likes msg) acc msgs
  = acc + sum_of (m_likes <$> msgs).
Proof.
  revert acc. induction msgs as [|msg msgs IH]; intros acc.
  - unfold sum_of. simpl. lia.
  - rewrite fmap_cons, sum_of_cons. simpl. rewrite IH. lia.
Qed.

Lemma likes_of_content (msgs : list message) :
  m_likes <$> msgs = snd <$> (content <$> msgs).
Proof. rewrite <-list_fmap_compose. by apply list_fmap_ext. Qed.

Lemma likes_of_card_content (cards : list card) :
  card_likes <$> cards = snd <$> (card_content <$> cards).
Proof. rewrite <-list_fmap_compose. by apply list_fmap_ext. Qed.

Lemma parseQAMessages_folds cards out :
  parseQAMessages cards = Normal out →
  totalMessages out = Z.of_nat (length (messages out))
  ∧ totalLikes out = sum_of (m_likes <$> messages out).
Proof.
  intros Hout. unfold parseQAMessages in Hout. rewrite sort_messages in Hout.
  simpl in Hout. injection Hout as <-. simpl.
  split; [done|]. by rewrite foldl_likes.
Qed.

(** X20. The totals of an extraction are those of the cards it keeps,
    for cards whose likes add up to less than 2^53 (every number involved
    is then one that a double holds exactly): [totalMessages] is the
    number of messages returned, which is the number of cards that are not
    blank, and [totalLikes] is the sum of the likes of the messages
    returned, which is the sum of the likes of the cards that are not
    blank. *)
Theorem parseQAMessages_totals (cards : list card) :
  sum_of (card_likes <$> filter (λ c, ¬ blank c) cards) < 2 ^ 53 →
  ∃ out,
    parseQAMessages cards = Normal out
    ∧ totalMessages out = Z.of_nat (length (messages out))
    ∧ totalMessages out
      = Z.of_nat (length (filter (λ c, ¬ blank c) cards))
    ∧ totalLikes out = sum_of (m_likes <$> messages out)
    ∧ totalLikes out
      = sum_of (card_likes <$> filter (λ c, ¬ blank c) cards).
Proof.
  intros _.
  destruct (parseQAMessages_value cards) as (out & Hout & Hcontent & _).
  exists out. split; [done|].
  assert (content <$> messages out
          ≡ₚ card_content <$> filter (λ c, ¬ blank c) cards) as Hperm
    by by rewrite Hcontent, sort_ranked_perm.
  destruct (parseQAMessages_folds cards out Hout) as [Hm Hl].
  split_and!; try done.
  - rewrite Hm. f_equal.
    rewrite <-(length_fmap content), Hperm. by rewrite length_fmap.
  - rewrite Hl, likes_of_content, likes_of_card_content.
    apply sum_of_perm. by rewrite Hperm.
Qed.

Lemma parseQAMessages_totals_witness :
  ∃ out,
    parseQAMessages sample_cards = Normal out
    ∧ totalMessages out = 2
    ∧ totalLikes out = 10.
Proof.
  destruct (parseQAMessages_totals sample_cards)
    as (out & Hout & _ & Hmessages & _ & Hlikes); [reflexivity|].
  exists out. split_and!; [done|exact Hmessages|exact Hlikes].
Defined.

(** * Reading the likes label *)

Lemma is_digit_code c :
  is_digit c = true → 0 ≤ Z.of_nat (Ascii.nat_of_ascii c) - 48 ≤ 9.
Proof. unfold is_digit. intros H%bool_decide_eq_true. lia. Qed.

Lemma parseInt_from_digit_run acc s :
  0 ≤ acc → 0 ≤ parseInt_from acc (digit_run s).
Proof.
  revert acc. induction s as [|c s IH]; intros acc Hacc; simpl; [done|].
  destruct (is_digit c) eqn:Hc; simpl; [|done].
  apply IH. apply is_digit_code in Hc. lia.
Qed.

Lemma match_digits_digit_run s digits :
  match_digits s = Some digits → ∃ s', digits = digit_run s'.
Proof.
  induction s as [|c s IH]; simpl; [done|].
  destruct (is_digit c) eqn:Hc; [|done]. intros [= <-].
  exists (String c s). simpl. by rewrite Hc.
Qed.

Lemma card_likes_nonneg c : 0 ≤ card_likes c.
Proof.
  unfold card_likes.
  destruct (match_digits _) as [digits|] eqn:Hmatch; [|done].
  apply match_digits_digit_run in Hmatch as [s' ->].
  by apply parseInt_from_digit_run.
Qed.

Lemma sum_of_nonneg l : Forall (λ x, 0 ≤ x) l → 0 ≤ sum_of l.
Proof. induction 1; rewrite ?sum_of_cons; [done|lia]. Qed.

(** X21. No message comes out of an extraction with negative likes,
    whatever the likes labels say (a sign before the digits is not read),
    and [totalLikes] is not negative. *)
Theorem parseQAMessages_likes_nonneg (cards : list card) :
  ∃ out,
    parseQAMessages cards = Normal out
    ∧ Forall (λ msg, 0 ≤ m_likes msg) (messages out)
    ∧ 0 ≤ totalLikes out.
Proof.
  destruct (parseQAMessages_value cards) as (out & Hout & Hcontent & _).
  exists out. split; [done|].
  assert (Forall (λ msg, 0 ≤ m_likes msg) (messages out)) as Hlikes.
  { apply Forall_forall. intros msg Hmsg.
    assert (content msg ∈ content <$> messages out) as Hin
      by by apply list_elem_of_fmap_2.
    rewrite Hcontent, sort_ranked_perm in Hin.
    apply list_elem_of_fmap in Hin as (c & Hc & _).
    assert (m_likes msg = card_likes c) as ->; [|apply card_likes_nonneg].
    unfold content, card_content in Hc. by injection Hc. }
  split; [done|].
  destruct (parseQAMessages_folds cards out Hout) as [_ Hsum].
  rewrite Hsum. apply sum_of_nonneg. by apply Forall_fmap.
Qed.

Lemma pretty_N_char_code (y : N) :
  (y < 10)%N →
  is_digit (pretty_N_char y) = true
  ∧ Z.of_nat (Ascii.nat_of_ascii (pretty_N_char y)) - 48 = Z.of_N y.
Proof.
  intros Hy.
  assert (y = 0 ∨ y = 1 ∨ y = 2 ∨ y = 3 ∨ y = 4 ∨ y = 5 ∨ y = 6 ∨ y = 7
          ∨ y = 8 ∨ y = 9)%N as Hcases by lia.
  destruct_or!; subst y; by vm_compute.
Qed.

Lemma pretty_N_go_app x s t :
  pretty_N_go x s +:+ t = pretty_N_go x (s +:+ t).
Proof.
  revert s. induction (N.lt_wf_0 x) as [x _ IH]; intros s.
  destruct (decide (x = 0)%N) as [->|]; [by rewrite !pretty_N_go_0|].
  rewrite (pretty_N_go_step x s), (pretty_N_go_step x (s +:+ t)) by lia.
  rewrite IH; [done|]. apply N.div_lt; lia.
Qed.

Lemma digit_run_pretty_N_go x s :
  digit_run (pretty_N_go x s) = pretty_N_go x (digit_run s).
Proof.
  revert s. induction (N.lt_wf_0 x) as [x _ IH]; intros s.
  destruct (decide (x = 0)%N) as [->|]; [by rewrite !pretty_N_go_0|].
  rewrite (pretty_N_go_step x s), (pretty_N_go_step x (digit_run s)) by lia.
  rewrite IH by (apply N.div_lt; lia). simpl.
  destruct (pretty_N_char_code (x `mod` 10)) as [-> _]; [|done].
  apply N.mod_lt. lia.
Qed.

Lemma parseInt_from_pretty_N_go x :
  ∃ k : Z, 0 ≤ k ∧ ∀ acc s,
    parseInt_from acc (pretty_N_go x s)
    = parseInt_from (acc * 10 ^ k + Z.of_N x) s.
Proof.
  induction (N.lt_wf_0 x) as [x _ IH].
  destruct (decide (x = 0)%N) as [->|].
  { exists 0. split; [done|]. intros acc s. rewrite pretty_N_go_0.
    f_equal. lia. }
  destruct (IH (x `div` 10)%N) as (k & Hk & Hparse); [apply N.div_lt; lia|].
  exists (k + 1). split; [lia|]. intros acc s.
  rewrite pretty_N_go_step by lia. rewrite Hparse. simpl.
  destruct (pretty_N_char_code (x `mod` 10)) as [_ ->]; [apply N.mod_lt; lia|].
  f_equal. rewrite Z.pow_add_r by lia.
  rewrite (N.div_mod x 10) at 3 by lia.
  rewrite N2Z.inj_add, N2Z.inj_mul. lia.
Qed.

Lemma pretty_nonneg_digits (n : Z) suffix :
  0 ≤ n → digit_run suffix = ""%string →
  digit_run (pretty n +:+ suffix) = pretty n
  ∧ pretty n ≠ ""%string
  ∧ parseInt (pretty n) = n.
Proof.
  intros Hn Hsuffix. destruct n as [|p|p]; [|clear Hn|lia].
  { change (pretty 0) with "0"%string. split_and!; [|done..].
    change (digit_run ("0" +:+ suffix)) with ("0" +:+ digit_run suffix)%string.
    by rewrite Hsuffix. }
  unfold pretty, pretty_Z, pretty, pretty_positive, pretty, pretty_N.
  destruct (decide (N.pos p = 0)%N); [done|].
  destruct (parseInt_from_pretty_N_go (N.pos p)) as (k & Hk & Hparse).
  assert (parseInt (pretty_N_go (N.pos p) "") = Z.pos p) as Hvalue.
  { unfold parseInt. rewrite Hparse. simpl. lia. }
  split_and!; [|by intros Heq; rewrite Heq in Hvalue|done].
  rewrite pretty_N_go_app. change ("" +:+ suffix)%string with suffix.
  by rewrite digit_run_pretty_N_go, Hsuffix.
Qed.

Lemma match_digits_app_no_digit prefix s :
  match_digits prefix = None →
  match_digits (prefix +:+ s) = match_digits s.
Proof.
  induction prefix as [|c prefix IH]; simpl; [done|].
  destruct (is_digit c); [done|]. apply IH.
Qed.

Lemma match_digits_leading s :
  digit_run s ≠ ""%string → match_digits s = Some (digit_run s).
Proof. destruct s as [|c s]; simpl; [done|]. by destruct (is_digit c). Qed.

(** X22. The likes of a card are the first number of its likes label:
    when the trimmed label is a text without digits, then the decimal
    numeral of a number [n] below 2^53, then a text that does not start
    with a digit, the likes are [n]. *)
Theorem card_likes_reads_the_first_number (c : card) (prefix suffix : string)
    (n : Z) :
  0 ≤ n →
  n < 2 ^ 53 →
  trim (likes_text c) = (prefix +:+ (pretty n +:+ suffix))%string →
  match_digits prefix = None →
  digit_run suffix = ""%string →
  card_likes c = n.
Proof.
  intros Hn _ Hlabel Hprefix Hsuffix. unfold card_likes.
  destruct (pretty_nonneg_digits n suffix Hn Hsuffix) as (Hrun & Hne & Hvalue).
  rewrite Hlabel, match_digits_app_no_digit by done.
  rewrite match_digits_leading by (by rewrite Hrun).
  by rewrite Hrun.
Qed.

Lemma card_likes_reads_the_first_number_witness :
  card_likes labelled_card = 12.
Proof.
  apply (card_likes_reads_the_first_number _ "thumb_up " " likes 7" 12);
    [lia|reflexivity..].
Defined.

(** * The clock time of a card *)

Lemma append_nil_l (t : string) : ("" +:+ t)%string = t.
Proof. done. Qed.

Lemma append_cons c (p t : string) :
  (String c p +:+ t)%string = String c (p +:+ t).
Proof. done. Qed.

Lemma match_time_cons c s :
  match_time (String c s)
  = if is_time (String c s) then Some (String c s) else match_time s.
Proof. done. Qed.

Lemma match_time_Some s shown :
  match_time s = Some shown →
  ∃ p, s = (p +:+ shown)%string ∧ is_time shown = true.
Proof.
  induction s as [|c s IH]; [done|].
  rewrite match_time_cons. destruct (is_time (String c s)) eqn:Htime.
  - intros [= <-]. by exists ""%string.
  - intros (p & -> & Hshown)%IH. by exists (String c p).
Qed.

Lemma match_time_None s :
  match_time s = None →
  ∀ p t, s = (p +:+ t)%string → is_time t = false.
Proof.
  induction s as [|c s IH].
  - intros _ [|? ?] t Ht; [|done]. rewrite append_nil_l in Ht. by subst t.
  - rewrite match_time_cons.
    destruct (is_time (String c s)) eqn:Htime; [done|].
    intros Hnone [|c' p] t Ht.
    + rewrite append_nil_l in Ht. by subst t.
    + rewrite append_cons in Ht. injection Ht as _ ->. by apply (IH Hnone p).
Qed.

(** X23. [formatTime] never fails on a string.  What it shows is the
    clock time the timestamp ends with (two digits, a colon, two digits)
    when it ends with one, and the whole timestamp when it does not. *)
Theorem formatTime_shows_the_clock_time (s : string) :
  ∃ shown,
    formatTime (PStr s) = Normal shown
    ∧ ((is_time shown = true ∧ ∃ p, s = (p +:+ shown)%string)
       ∨ (shown = s ∧ ∀ p t, s = (p +:+ t)%string → is_time t = false)).
Proof.
  unfold formatTime. simpl.
  destruct (String.eqb s "") eqn:Hempty; simpl.
  - apply String.eqb_eq in Hempty as ->. exists ""%string.
    split; [done|]. right. split; [done|].
    intros [|? ?] t Ht; [|done]. rewrite append_nil_l in Ht. by subst t.
  - destruct (match_time s) as [shown|] eqn:Hmatch.
    + exists shown. split; [done|]. left.
      apply match_time_Some in Hmatch as (p & -> & Htime). eauto.
    + exists s. split; [done|]. right. split; [done|].
      by apply match_time_None.
Qed.

(** * From the scrape to the board *)

Lemma sort_ranked_ext {A} (rank1 rank2 : A → option Z) l :
  (∀ x, rank1 x = rank2 x) → sort_ranked rank1 l = sort_ranked rank2 l.
Proof.
  intros Hrank. induction l as [|x l IH]; [done|].
  simpl. rewrite IH. generalize (sort_ranked rank2 l). intros l'.
  induction l' as [|y l' IH']; [done|].
  simpl. rewrite !Hrank, IH'. done.
Qed.

Lemma descending_fmap {A B} (f : A → B) (rank : B → option Z) l :
  descending rank (f <$> l) → descending (λ a, rank (f a)) l.
Proof.
  unfold descending. induction l as [|x l IH]; [constructor|].
  rewrite fmap_cons. intros [Hx Hl]%StronglySorted_cons.
  apply StronglySorted_cons. split; [|by apply IH].
  rewrite Forall_forall in Hx. apply Forall_forall. intros y Hy.
  apply Hx. by apply list_elem_of_fmap_2.
Qed.

Lemma scraped_messages_sorted cards out :
  parseQAMessages cards = Normal out →
  sort_ranked item_rank (to_item <$> messages out) = to_item <$> messages out.
Proof.
  intros Hout.
  destruct (parseQAMessages_value cards) as (out' & Hout' & Hcontent & _).
  rewrite Hout in Hout'. injection Hout' as <-.
  rewrite <-(sort_ranked_fmap to_item item_rank). f_equal.
  rewrite (sort_ranked_ext _ (λ msg, likes_rank (content msg))) by done.
  apply sort_ranked_sorted, descending_fmap.
  rewrite Hcontent. apply sort_ranked_descending.
Qed.

Lemma scraped_ids (msgs : list message) :
  omap record_id (to_item <$> msgs) = PNum <$> (m_id <$> msgs).
Proof.
  induction msgs as [|msg msgs IH]; [done|].
  rewrite !fmap_cons.
  change (omap record_id (to_item msg :: (to_item <$> msgs)))
    with (PNum (m_id msg) :: omap record_id (to_item <$> msgs)).
  by rewrite IH.
Qed.

Lemma handleScrape_rawData st data st' c :
  handleScrape st data = (st', c) →
  rawData st' = rawData st ++ (to_item <$> messages data).
Proof.
  unfold handleScrape. destruct (messages data) as [|msg msgs].
  - intros [= <- _]. by rewrite app_nil_r.
  - apply addMessages_rawData.
Qed.

(** X24. A scrape shown on a board whose [uncategorized] is empty, the
    likes of every card that is kept being below 2^53: the extraction
    returns, [handleScrape] returns, and [uncategorized] then holds the
    messages of the extraction in the extractor's order (likes descending)
    with the ids 1, 2, ... from the top; the other columns are untouched,
    and the raw log has grown by these messages. *)
Theorem scrape_fills_an_empty_board (cards : list card) (st : state)
    (unc : column) :
  own_property (columns st) "uncategorized" = Some unc →
  items unc = [] →
  Forall (λ c, card_likes c < 2 ^ 53) (filter (λ c, ¬ blank c) cards) →
  ∃ out st',
    parseQAMessages cards = Normal out
    ∧ handleScrape st out = (st', Normal ())
    ∧ items <$> own_property (columns st') "uncategorized"
      = Some (to_item <$> messages out)
    ∧ (∀ k, k ≠ "uncategorized"%string →
         own_property (columns st') k = own_property (columns st) k)
    ∧ omap record_id (to_item <$> messages out)
      = (λ idx, PNum (Z.of_nat idx + 1)) <$> seq 0 (length (messages out))
    ∧ rawData st' = rawData st ++ (to_item <$> messages out).
Proof.
  intros Hunc Hempty _.
  destruct (parseQAMessages_value cards) as (out & Hout & _ & Hids).
  pose proof (scraped_messages_sorted cards out Hout) as Hsorted.
  exists out.
  assert (omap record_id (to_item <$> messages out)
          = (λ idx, PNum (Z.of_nat idx + 1)) <$> seq 0 (length (messages out)))
    as Hrecords.
  { rewrite scraped_ids, Hids, <-list_fmap_compose. done. }
  unfold handleScrape.
  destruct (messages out) as [|msg msgs] eqn:Hmsgs.
  - exists st. split_and!; try done.
    + rewrite Hunc. simpl. by rewrite Hempty.
    + by rewrite app_nil_r.
  - rewrite <-Hmsgs in *. unfold addMessages.
    assert (∃ it its, to_item <$> messages out = it :: its) as (it & its & Hlist)
      by (rewrite Hmsgs, fmap_cons; eauto).
    rewrite Hlist. rewrite <-Hlist. cbn -[sortByLikes].
    rewrite Hunc, sortByLikes_sort_ranked, Hempty, app_nil_l, Hsorted.
    eexists. split_and!; try done.
    + by rewrite columns_setColumns, own_property_set_eq.
    + intros k Hk. by rewrite columns_setColumns, own_property_set_ne.
    + unfold setColumns, save_effect. simpl. by destruct (loading st).
Qed.

Lemma scrape_fills_an_empty_board_witness :
  ∃ out st',
    parseQAMessages sample_cards = Normal out
    ∧ handleScrape (mount empty_storage) out = (st', Normal ())
    ∧ items <$> own_property (columns st') "uncategorized"
      = Some (to_item <$> messages out)
    ∧ length (messages out) = 2%nat.
Proof.
  destruct (scrape_fills_an_empty_board sample_cards (mount empty_storage)
              (empty_column "uncategorized" "Uncategorized"))
    as (out & st' & Hout & Hscrape & Hitems & _); [reflexivity..| |].
  - apply (bool_decide_unpack _). vm_compute. exact I.
  - exists out, st'. split_and!; [done..|].
    vm_compute in Hout. by injection Hout as <-.
Defined.

(** * Exporting the raw data *)

Lemma reduce_likes_scraped (msgs : list message) acc :
  reduce_likes (PNum acc) (to_item <$> msgs)
  = Normal (PNum (foldl (λ sum msg, sum + m_likes msg) acc msgs)).
Proof.
  revert acc. induction msgs as [|msg msgs IH]; intros acc; [done|].
  rewrite fmap_cons. simpl. unfold likes_or_zero. simpl.
  assert ((if negb (m_likes msg =? 0) then PNum (m_likes msg) else PNum 0)
          = PNum (m_likes msg)) as ->.
  { destruct (Z.eqb_spec (m_likes msg) 0) as [->|]; done. }
  apply IH.
Qed.

Lemma handleExportRawData_nonempty rawData :
  rawData ≠ [] →
  handleExportRawData rawData
  = (totalLikes ← reduce_likes (PNum 0) rawData;
     Normal (Some {| export_totalMessages := Z.of_nat (length rawData);
                     export_totalLikes := totalLikes;
                     export_messages := rawData |})).
Proof. by destruct rawData. Qed.

(** X25. The raw-data export agrees with the scrape: after one scrape
    with at least one message, the likes of the cards adding up to less
    than 2^53, has been shown by a hook whose raw log was empty and whose
    board has [uncategorized], [handleScrape] has returned and the export
    carries the messages of the extraction and the extraction's own
    [totalMessages] and [totalLikes]. *)
Theorem export_totals_match_the_scrape (cards : list card) (out : parsed)
    (st : state) :
  parseQAMessages cards = Normal out →
  messages out ≠ [] →
  sum_of (card_likes <$> filter (λ c, ¬ blank c) cards) < 2 ^ 53 →
  rawData st = [] →
  is_Some (own_property (columns st) "uncategorized") →
  ∃ st',
    handleScrape st out = (st', Normal ())
    ∧ handleExportRawData (rawData st')
      = Normal (Some {| export_totalMessages := totalMessages out;
                        export_totalLikes := PNum (totalLikes out);
                        export_messages := to_item <$> messages out |}).
Proof.
  intros Hout Hmsgs _ Hraw Hunc.
  assert (∃ st', handleScrape st out = (st', Normal ())) as [st' Hscrape].
  { unfold handleScrape. destruct (messages out) as [|msg msgs] eqn:Hlist;
      [done|].
    apply addMessages_returns; [by rewrite fmap_cons|done]. }
  exists st'. split; [done|].
  apply handleScrape_rawData in Hscrape. rewrite Hraw, app_nil_l in Hscrape.
  rewrite Hscrape. clear Hscrape.
  unfold parseQAMessages in Hout. rewrite sort_messages in Hout.
  simpl in Hout. injection Hout as <-. simpl in *.
  set (msgs := imap _ _) in *.
  rewrite handleExportRawData_nonempty by by destruct msgs.
  rewrite reduce_likes_scraped. simpl. by rewrite length_fmap.
Qed.

Lemma export_totals_match_the_scrape_witness :
  ∃ st',
    handleScrape (mount empty_storage) sample_scrape = (st', Normal ())
    ∧ handleExportRawData (rawData st')
      = Normal (Some {| export_totalMessages := 2;
                        export_totalLikes := PNum 10;
                        export_messages := to_item <$> messages sample_scrape |}).
Proof.
  apply (export_totals_match_the_scrape sample_cards sample_scrape
           (mount empty_storage)).
  - reflexivity.
  - done.
  - reflexivity.
  - reflexivity.
  - by eexists.
Defined.

